(** * pykitcommander: PIC24 primitive engine, codec and executive protocols

    A shallow embedding of the PIC24 pack of pykitcommander
    (picpack/pic24fj128ga705/common): the 8-to-6 byte codec of
    gen4scriptwrapper.py, the Programming Executive framing of
    programexecinterfaceprovider.py, the transport batcher of
    primitiveproxy.py and the mode handling, flash chunking and Debug
    Executive checks of gen4engineinterface.py.

    Python integers are [Z], byte buffers are [list Z], an exception is a
    [Raise] outcome, and a loop whose termination is not structural takes
    fuel and answers [Diverge] when the fuel is spent. *)

From Stdlib Require Import ZArith List Lia Bool.
From stdpp Require Import base tactics option list gmap.

Local Open Scope Z_scope.

(** ** Outcomes of a Python call *)

Inductive primitive_error :=
| TooManyInstructionWords
| StatusFail (errorcode : Z)
| StatusNack (errorcode : Z)
| UnexpectedEcho (cmd_echo cmd : Z)
| UnexpectedLength (response_length_bytes response_length_expected : Z)
| UnexpectedPayload (databytes decompacted_numbytes : Z).

Inductive de_timeout :=
| HandshakeClockHigh
| HandshakeClockLow
| TransferClockHigh
| TransferClockHighAgain
| TransferDataLow.

Inductive exn :=
| IndexError
| ValueError
| ZeroDivisionError
| KeyError
| PrimitiveException (why : primitive_error)
| DeException (why : de_timeout)
| UnableToReadId.

Inductive outcome (A : Type) :=
| Ok (a : A)
| Raise (e : exn)
| Diverge.
Arguments Ok {A} a.
Arguments Raise {A} e.
Arguments Diverge {A}.

#[global] Instance outcome_ret : MRet outcome := fun A a => Ok a.
#[global] Instance outcome_bind : MBind outcome := fun A B f m =>
  match m with
  | Ok a => f a
  | Raise e => Raise e
  | Diverge => Diverge
  end.

Definition returns {A} (m : outcome A) : Prop := exists a, m = Ok a.

(** Methods mutate the object they are called on and may raise: a method of
    an object of state [S] is a function from the state to an outcome and
    the state it leaves behind. *)
Definition M (S A : Type) : Type := S -> outcome A * S.

#[global] Instance M_ret {S} : MRet (M S) := fun A a s => (Ok a, s).
#[global] Instance M_bind {S} : MBind (M S) := fun A B f m s =>
  match m s with
  | (Ok a, s') => f a s'
  | (Raise e, s') => (Raise e, s')
  | (Diverge, s') => (Diverge, s')
  end.

Definition raise {S A} (e : exn) : M S A := fun s => (Raise e, s).
Definition lift {S A} (o : outcome A) : M S A := fun s => (o, s).

(** [data[i]] for a non-negative index. *)
Definition getitem (data : list Z) (i : nat) : outcome Z :=
  match data !! i with
  | Some b => Ok b
  | None => Raise IndexError
  end.

(** [range(0, stop, step)] for a positive step. *)
Definition py_range (stop step : nat) : list nat :=
  (fun k => k * step)%nat <$> seq 0 ((stop + step - 1) / step)%nat.

(** [for x in xs: acc = body(acc, x)] *)
Fixpoint for_each {A S : Type} (xs : list A) (body : S -> A -> outcome S)
    (acc : S) : outcome S :=
  match xs with
  | [] => Ok acc
  | x :: xs' => acc' ← body acc x; for_each xs' body acc'
  end.

(** [len(data)] *)
Definition len (data : list Z) : Z := Z.of_nat (length data).

(** [while len(data) % m: data.append(fill)] *)
Fixpoint append_while (fuel : nat) (m : Z) (fill : Z) (data : list Z)
    : outcome (list Z) :=
  match fuel with
  | O => Diverge
  | S fuel' =>
      if m =? 0 then Raise ZeroDivisionError
      else if len data mod m =? 0 then Ok data
      else append_while fuel' m fill (data ++ [fill])
  end.

(** ** gen4scriptwrapper.py: the PIC24 codec *)

Module Codec.

(** One turn of the loop body of [pic24_compact]. *)
Definition compact_step (data : list Z) (output : list Z) (i : nat)
    : outcome (list Z) :=
  d0 ← getitem data i;
  d1 ← getitem data (i + 1);
  d2 ← getitem data (i + 2);
  d6 ← getitem data (i + 6);
  d4 ← getitem data (i + 4);
  d5 ← getitem data (i + 5);
  Ok (output ++ [d0; d1; d2; d6; d4; d5]).

(** [pic24_compact(data)]: the pair is the caller's [data] object as the
    call leaves it, and the list returned. *)
Definition pic24_compact (data : list Z) : outcome (list Z * list Z) :=
  data' ← append_while 8 8 0 data;
  output ← for_each (py_range (length data') 8) (compact_step data') [];
  Ok (data', output).

(** One turn of the loop body of [pic24_decompact]. *)
Definition decompact_step (data : list Z) (output : list Z) (i : nat)
    : outcome (list Z) :=
  d0 ← getitem data i;
  d1 ← getitem data (i + 1);
  d2 ← getitem data (i + 2);
  d4 ← getitem data (i + 4);
  d5 ← getitem data (i + 5);
  d3 ← getitem data (i + 3);
  Ok (output ++ [d0; d1; d2; 0; d4; d5; d3; 0]).

Definition pic24_decompact (data : list Z) : outcome (list Z * list Z) :=
  data' ← append_while 6 6 0 data;
  output ← for_each (py_range (length data') 6) (decompact_step data') [];
  Ok (data', output).

(** [pic24_decompact(pic24_compact(x))], as a value. *)
Definition roundtrip (x : list Z) : outcome (list Z) :=
  '(_, packed) ← pic24_compact x;
  '(_, raw) ← pic24_decompact packed;
  Ok raw.

(** The spec's [pad(x,8)]: [x] extended with zero bytes to the next multiple
    of 8. *)
Definition zero_pad (m : Z) (x : list Z) : list Z :=
  x ++ replicate (Z.to_nat ((- len x) mod m)) 0.

Definition pad8 (x : list Z) : list Z := zero_pad 8 x.

(** The upper byte of each 4-byte instruction slot is unimplemented: every
    byte at an index that is 3 modulo 4 is zero. *)
Fixpoint phantom_clear (x : list Z) : bool :=
  match x with
  | _ :: _ :: _ :: d3 :: rest => (d3 =? 0) && phantom_clear rest
  | _ => true
  end.

(** The two loops seen frame by frame, on whole frames. *)
Fixpoint compact_frames (data : list Z) : list Z :=
  match data with
  | d0 :: d1 :: d2 :: _ :: d4 :: d5 :: d6 :: _ :: rest =>
      [d0; d1; d2; d6; d4; d5] ++ compact_frames rest
  | _ => []
  end.

Fixpoint decompact_frames (data : list Z) : list Z :=
  match data with
  | d0 :: d1 :: d2 :: d3 :: d4 :: d5 :: rest =>
      [d0; d1; d2; 0; d4; d5; d3; 0] ++ decompact_frames rest
  | _ => []
  end.

(** *** The mutable store

    Python lists and bytearrays are objects: the store maps an object
    identity to its current contents. *)

Definition loc := nat.
Abbreviation store := (gmap loc (list Z)).

Definition alloc (h : store) : loc := fresh (dom h).

(** [pic24_compact] called on the object at [l]: the padding is appended to
    that object, the result is a newly allocated list. *)
Definition pic24_compact_obj (l : loc) (h : store) : outcome (loc * store) :=
  match h !! l with
  | None => Raise KeyError
  | Some data =>
      '(data', output) ← pic24_compact data;
      let h' := <[l := data']> h in
      let o := alloc h' in
      Ok (o, <[o := output]> h')
  end.

Definition pic24_decompact_obj (l : loc) (h : store) : outcome (loc * store) :=
  match h !! l with
  | None => Raise KeyError
  | Some data =>
      '(data', output) ← pic24_decompact data;
      let h' := <[l := data']> h in
      let o := alloc h' in
      Ok (o, <[o := output]> h')
  end.

End Codec.

(** Modelled from the spec: [binary.unpack_le16] and [binary.unpack_le32] of
    pyedbglib.util, which this pack imports but does not ship; the spec
    describes the fields as little-endian 16-bit and 32-bit values. *)
Definition unpack_le16 (data : list Z) : outcome Z :=
  b0 ← getitem data 0;
  b1 ← getitem data 1;
  Ok (b0 + Z.shiftl b1 8).

Definition unpack_le32 (data : list Z) : outcome Z :=
  b0 ← getitem data 0;
  b1 ← getitem data 1;
  b2 ← getitem data 2;
  b3 ← getitem data 3;
  Ok (b0 + Z.shiftl b1 8 + Z.shiftl b2 16 + Z.shiftl b3 24).

(** ** programexecinterfaceprovider.py: the Programming Executive *)

Module ProgExec.

Definition PE_COMMAND_SCHECK : Z := 0x0.
Definition PE_COMMAND_READC : Z := 0x1.
Definition PE_COMMAND_READP : Z := 0x2.
Definition PE_COMMAND_PROGP : Z := 0x5.
Definition PE_COMMAND_ERASEB : Z := 0x7.
Definition PE_COMMAND_QVER : Z := 0xB.

Definition PE_STATUS_PASS : Z := 0x1.
Definition PE_STATUS_FAIL : Z := 0x2.
Definition PE_STATUS_NACK : Z := 0x3.

(** What a proxy command asks of [pe_proxy] and [board]. *)
Inductive pe_op :=
| send_word (w : Z)
| send_word_buf
| delay_us (us : Z)
| handshake
| receive_word.

Definition _pe_command (command length : Z) : Z :=
  Z.land (Z.shiftl command 12) 0xF000 + Z.land length 0x0FFF.

(** [while num16bitwords: self.pe_proxy.receive_word(); num16bitwords -= 1] *)
Fixpoint receive_words (fuel : nat) (num16bitwords : Z) (ops : list pe_op)
    : outcome (list pe_op) :=
  match fuel with
  | O => Diverge
  | S fuel' =>
      if num16bitwords =? 0 then Ok ops
      else receive_words fuel' (num16bitwords - 1) (ops ++ [receive_word])
  end.

(** The 16-bit data words a read of [num_instructionwords] receives after
    the two header words. *)
Definition num16bitwords_of (num_instructionwords : Z) : Z :=
  if num_instructionwords mod 2 =? 0
  then 3 * num_instructionwords / 2
  else 2 + 3 * (num_instructionwords - 1) / 2.

Definition _read_flash_proxy_command (fuel : nat) (byte_address numbytes : Z)
    : outcome (list pe_op) :=
  let word_address := byte_address / 2 in
  let num_instructionwords := numbytes / 4 in
  if num_instructionwords >? 32768
  then Raise (PrimitiveException TooManyInstructionWords)
  else
    let num16bitwords := num16bitwords_of num_instructionwords in
    receive_words fuel num16bitwords
      [ send_word (_pe_command PE_COMMAND_READP 4);
        send_word num_instructionwords;
        send_word (Z.land (Z.shiftr word_address 16) 0x00FF);
        send_word (Z.land word_address 0xFFFF);
        delay_us 12;
        handshake;
        receive_word;
        receive_word ].

Definition _memory_read_bytes_expected_from_pe (read_numbytes : Z) : Z :=
  if (read_numbytes / 4) mod 2 =? 0
  then 4 + (3 * read_numbytes) / 4
  else 8 + (3 * (read_numbytes - 4)) / 4.

(** The words a proxy command receives, two bytes each. *)
Definition is_receive_word (o : pe_op) : bool :=
  match o with
  | receive_word => true
  | _ => false
  end.

Definition wire_bytes (ops : list pe_op) : Z :=
  2 * Z.of_nat (length (List.filter is_receive_word ops)).

(** The wire byte count as the spec words it, for [N] instruction words. *)
Definition spec_wire_bytes (N : Z) : Z :=
  if Z.even N then 4 + 3 * N / 2 else 2 + 3 * (N - 1) / 2.

(** Status and command echo share the second byte of a response. *)
Definition status_of (byte : Z) : Z :=
  Z.land (Z.shiftr (Z.land byte 0xF0) 4) 0x0F.

Definition cmd_echo_of (byte : Z) : Z := Z.land byte 0x0F.

Definition _check_pe_response (cmd databytes : Z) (response : list Z)
    : outcome (list Z) :=
  r1 ← getitem response 1;
  let status := status_of r1 in
  errorcode ← getitem response 0;
  _ ← (if status =? PE_STATUS_PASS then Ok tt
       else if status =? PE_STATUS_FAIL
       then Raise (PrimitiveException (StatusFail errorcode))
       else if status =? PE_STATUS_NACK
       then Raise (PrimitiveException (StatusNack errorcode))
       else Ok tt);
  r1 ← getitem response 1;
  let cmd_echo := cmd_echo_of r1 in
  if negb (cmd_echo =? cmd)
  then Raise (PrimitiveException (UnexpectedEcho cmd_echo cmd))
  else
    response_length ← unpack_le16 (take 2 (drop 2 response));
    let response_length_bytes := response_length * 2 in
    let response_length_expected := (databytes * 3) / 4 + 4 in
    if negb (response_length_bytes =? response_length_expected)
    then Raise (PrimitiveException
                  (UnexpectedLength response_length_bytes
                     response_length_expected))
    else
      '(_, decompacted_data) ← Codec.pic24_decompact (drop 4 response);
      let decompacted_numbytes := len decompacted_data in
      if negb (decompacted_numbytes =? databytes)
      then Raise (PrimitiveException
                    (UnexpectedPayload databytes decompacted_numbytes))
      else Ok decompacted_data.

End ProgExec.

(** ** primitiveproxy.py: the transport batcher *)

Module Transport.

Section TransportProxy.

(** The wire encoding of one block ([enclose_as_lambda], [flatten_tree] and
    [PrimitiveControllerCommand.generate_bytestream], none of them shipped
    with this pack). *)
Variable generate_bytestream : list Z -> list Z.

(** [transport.execute]: what the tool answers to the latest of the calls
    made on it so far. *)
Variable execute : list (list (list Z)) -> outcome (list (list Z)).

Record TransportProxy := {
  blocksize : Z;
  content : list (list Z);
  length : Z;
  (** every [transport.execute(commands)] made so far, oldest first *)
  executed : list (list (list Z))
}.

Definition new (blocksize : Z) : TransportProxy :=
  {| blocksize := blocksize; content := []; length := 0; executed := [] |}.

Definition _flush : M TransportProxy (list Z) := fun self =>
  let commands := generate_bytestream <$> content self in
  let calls := executed self ++ [commands] in
  match execute calls with
  | Ok results =>
      let self' := {| blocksize := blocksize self; content := [];
                      length := 0; executed := calls |} in
      match last results with
      | Some result => (Ok result, self')
      | None => (Raise IndexError, self')
      end
  | Raise e =>
      (Raise e, {| blocksize := blocksize self; content := content self;
                   length := length self; executed := calls |})
  | Diverge =>
      (Diverge, {| blocksize := blocksize self; content := content self;
                   length := length self; executed := calls |})
  end.

Definition append_block (block : list Z) : M TransportProxy unit := fun self =>
  (Ok tt, {| blocksize := blocksize self;
             content := content self ++ [block];
             length := length self + len block;
             executed := executed self |}).

Definition must_flush (block : list Z) (self : TransportProxy) : bool :=
  length self + len block >? blocksize self.

Definition send_block (block : list Z) : M TransportProxy unit := fun self =>
  (_ ← (if must_flush block self then _ ← _flush; mret tt else mret tt);
   append_block block) self.

Definition sync : M TransportProxy (list Z) := _flush.

(** [for b in blocks: proxy.send_block(b)] *)
Fixpoint send_blocks (blocks : list (list Z)) : M TransportProxy unit :=
  match blocks with
  | [] => mret tt
  | b :: rest => _ ← send_block b; send_blocks rest
  end.

(** A run of the batcher: the blocks are sent in order, then [sync()]. *)
Definition send_then_sync (blocks : list (list Z)) : M TransportProxy (list Z) :=
  _ ← send_blocks blocks; sync.

Definition total_size (blocks : list (list Z)) : Z :=
  foldr (fun b acc => len b + acc) 0 blocks.

(** The proxy after [reset()] following one more [transport.execute]. *)
Definition flushed (self : TransportProxy) : TransportProxy :=
  {| blocksize := blocksize self; content := []; length := 0;
     executed := executed self ++ [generate_bytestream <$> content self] |}.

(** The proxy with [block] accumulated. *)
Definition appended (block : list Z) (self : TransportProxy) : TransportProxy :=
  {| blocksize := blocksize self; content := content self ++ [block];
     length := length self + len block; executed := executed self |}.

(** The transport answers a call with one response per block. *)
Definition one_response_per_block : Prop :=
  forall calls commands,
    last calls = Some commands ->
    exists results,
      execute calls = Ok results
      /\ List.length results = List.length commands.

End TransportProxy.

(** A transport double that answers every block with the block itself: one
    response per block, as section 6 of the spec requires of a transport. *)
Definition echo (calls : list (list (list Z))) : outcome (list (list Z)) :=
  match last calls with
  | Some commands => Ok commands
  | None => Ok []
  end.

End Transport.

(** ** debuginterfaceprovider.py: Debug Executive command headers *)

Module DebugExec.

Definition _de_command_3_2 (param1 param2 : Z) : list Z :=
  [ Z.land param1 0xFF; Z.land (Z.shiftr param1 8) 0xFF;
    Z.land (Z.shiftr param1 16) 0xFF;
    Z.land param2 0xFF; Z.land (Z.shiftr param2 8) 0xFF ].

Definition _de_command_4_2 (param1 param2 : Z) : list Z :=
  [ Z.land param1 0xFF; Z.land (Z.shiftr param1 8) 0xFF;
    Z.land (Z.shiftr param1 16) 0xFF; Z.land (Z.shiftr param1 24) 0xFF;
    Z.land param2 0xFF; Z.land (Z.shiftr param2 8) 0xFF ].

Definition de_command_memory24_write := _de_command_3_2.
Definition de_command_memory24_read := _de_command_3_2.
Definition de_command_memory32_write := _de_command_4_2.
Definition de_command_memory32_read := _de_command_4_2.

Definition de_read_flash_pack_size : Z := 12.

Definition de_command_read_flash (address numbytes : Z) : list Z :=
  de_command_memory32_read address (numbytes / de_read_flash_pack_size).

End DebugExec.

(** ** picdevice.py and pic24fj128ga705pds.py: the device description *)

Record PicDevice := {
  FLASH_WRITE_BYTES_PER_PAGE : Z;
  CONFIG_START_ADDRESS_BYTE : Z
}.

Definition get_flash_write_row_size_bytes := FLASH_WRITE_BYTES_PER_PAGE.
Definition get_config_start_address_byte := CONFIG_START_ADDRESS_BYTE.

Definition pic24fj128ga705 : PicDevice :=
  {| FLASH_WRITE_BYTES_PER_PAGE := 512; CONFIG_START_ADDRESS_BYTE := 0x2BE00 |}.

(** ** gen4engineinterface.py: the scripted debugger *)

(** The scripts of the device model, run through [device_proxy]. *)
Module DeviceModel.
Inductive method :=
| set_speed
| enter_tmod
| read_id
| exit_tmod
| set_speed_pe
| enter_tmod_pe
| write_flash_page.
End DeviceModel.

(** The commands of the debug executive model, run through
    [debug_executive_proxy]. *)
Module DebugModel.
Inductive method :=
| write_ram
| write_emulation
| run
| halt
| step
| debug_read_flash.
End DebugModel.

(** The proxy commands of the programming executive, run through
    [prog_executive_proxy]. *)
Module ProgExecModel.
Inductive method :=
| _sanity_check_proxy_command
| _get_pe_version_proxy_command
| _write_flash_page_proxy_command.
End ProgExecModel.

Module Debugger.

(** Every call the debugger makes on one of its three proxies. *)
Inductive call :=
| device_invoke (method : DeviceModel.method)
| device_invoke_read (bytes_to_read : Z) (method : DeviceModel.method)
| device_invoke_write (data_to_write : list Z) (method : DeviceModel.method)
    (byte_address numbytes : Z)
| pe_invoke_read (bytes_to_read : Z) (method : ProgExecModel.method)
| pe_invoke_write_read (data_to_write : list Z) (bytes_to_read : Z)
    (method : ProgExecModel.method) (byte_address numbytes : Z)
| de_invoke (method : DebugModel.method)
| de_invoke_write (data_to_write : list Z) (method : DebugModel.method)
    (numbytes : Z)
(** the [invoke_write_read] of [debug_read_flash]; [byte_address] is the
    loop's address when the call is made, noted beside the real arguments *)
| de_read_flash_chunk (byte_address : Z) (de_command : list Z)
    (bytes_to_read : Z).

Record Gen4WrapperDebugger := {
  _in_tmod : bool;
  _in_tmod_pe : bool;
  _is_running : bool;
  _current_pe_version : Z;
  use_pe : bool;
  (** the calls made on the proxies so far, oldest first *)
  calls : list call
}.

(** [CmsisAtiPicDebugger.__init__] and [Gen4WrapperDebugger.__init__] *)
Definition init : Gen4WrapperDebugger :=
  {| _in_tmod := false; _in_tmod_pe := false; _is_running := false;
     _current_pe_version := 0; use_pe := false; calls := [] |}.

Definition set_in_tmod (b : bool) : M Gen4WrapperDebugger unit := fun self =>
  (Ok tt, {| _in_tmod := b; _in_tmod_pe := _in_tmod_pe self;
             _is_running := _is_running self;
             _current_pe_version := _current_pe_version self;
             use_pe := use_pe self; calls := calls self |}).

Definition set_in_tmod_pe (b : bool) : M Gen4WrapperDebugger unit := fun self =>
  (Ok tt, {| _in_tmod := _in_tmod self; _in_tmod_pe := b;
             _is_running := _is_running self;
             _current_pe_version := _current_pe_version self;
             use_pe := use_pe self; calls := calls self |}).

Definition set_is_running (b : bool) : M Gen4WrapperDebugger unit := fun self =>
  (Ok tt, {| _in_tmod := _in_tmod self; _in_tmod_pe := _in_tmod_pe self;
             _is_running := b;
             _current_pe_version := _current_pe_version self;
             use_pe := use_pe self; calls := calls self |}).

Definition set_current_pe_version (v : Z) : M Gen4WrapperDebugger unit :=
  fun self =>
  (Ok tt, {| _in_tmod := _in_tmod self; _in_tmod_pe := _in_tmod_pe self;
             _is_running := _is_running self;
             _current_pe_version := v;
             use_pe := use_pe self; calls := calls self |}).

Definition set_use_pe (b : bool) : M Gen4WrapperDebugger unit := fun self =>
  (Ok tt, {| _in_tmod := _in_tmod self; _in_tmod_pe := _in_tmod_pe self;
             _is_running := _is_running self;
             _current_pe_version := _current_pe_version self;
             use_pe := b; calls := calls self |}).

Definition get {A} (field : Gen4WrapperDebugger -> A)
    : M Gen4WrapperDebugger A := fun self => (Ok (field self), self).

(** [is_blank(data)] *)
Fixpoint is_blank (data : list Z) : bool :=
  match data with
  | [] => true
  | d :: rest => if negb (d =? 0xFF) then false else is_blank rest
  end.

(** [Gen4WrapperDebugger.chunks(data, chunk_size)], all chunks at once:
    [range] refuses a zero step and is empty for a negative one. *)
Definition chunks (data : list Z) (chunk_size : Z) : outcome (list (list Z)) :=
  if chunk_size =? 0 then Raise ValueError
  else if chunk_size <? 0 then Ok []
  else
    let n := Z.to_nat chunk_size in
    Ok ((fun i => take n (drop i data)) <$> py_range (length data) n).

(** [Gen4WrapperDebugger.pad(data, pagesize)]: the copy is padded, and the
    loop adds fewer bytes than the size of a page. *)
Definition pad (data : list Z) (pagesize : Z) : outcome (list Z) :=
  append_while (S (Z.to_nat (Z.abs pagesize))) pagesize 0xFF data.

(** [_check_de_response(result)] *)
Definition DE_COMMAND : Z := 0x31.
Definition DE_COMMAND_DATA_ONLY : Z := 0x35.

Definition _check_de_response (result : list Z) : outcome unit :=
  cmd ← getitem result 0;
  if (cmd =? DE_COMMAND) || (cmd =? DE_COMMAND_DATA_ONLY) then
    _ ← getitem result 0;
    _ ← getitem result 1;
    _ ← getitem result 2;
    _ ← getitem result 3;
    status ← getitem result 1;
    if status =? 0x81 then Raise (DeException HandshakeClockHigh)
    else if status =? 0x82 then Raise (DeException HandshakeClockLow)
    else if status =? 0x83 then Raise (DeException TransferClockHigh)
    else if status =? 0x84 then Raise (DeException TransferClockHighAgain)
    else if status =? 0x85 then Raise (DeException TransferDataLow)
    else Ok tt
  else Ok tt.

(** The chunk size [debug_read_flash] settles on for one turn of its loop. *)
Definition temp_chunk_size_bytes (byte_address chunk_size_bytes numbytes_actual : Z)
    : Z :=
  let temp_chunk_size_bytes :=
    if (byte_address <? 0x20000)
       && (byte_address + (chunk_size_bytes * 4) / 3 >=? 0x20000)
    then ((0x20000 - byte_address) * 3) / 4
    else chunk_size_bytes in
  if temp_chunk_size_bytes >? numbytes_actual then numbytes_actual
  else temp_chunk_size_bytes.

Section Session.

(** The tool and target behind the proxies: the reply to the latest of the
    calls made so far. *)
Variable tool : list call -> outcome (list Z).

Variable device_object : PicDevice.

Definition invoke (c : call) : M Gen4WrapperDebugger (list Z) := fun self =>
  let made := calls self ++ [c] in
  (tool made,
   {| _in_tmod := _in_tmod self; _in_tmod_pe := _in_tmod_pe self;
      _is_running := _is_running self;
      _current_pe_version := _current_pe_version self;
      use_pe := use_pe self; calls := made |}).

Definition exit_tmod : M Gen4WrapperDebugger unit := fun self =>
  if negb (_in_tmod self) && negb (_in_tmod_pe self) then (Ok tt, self)
  else
    (_ ← invoke (device_invoke DeviceModel.exit_tmod);
     _ ← set_in_tmod false;
     set_in_tmod_pe false) self.

Definition enter_tmod : M Gen4WrapperDebugger unit := fun self =>
  if _in_tmod self then (Ok tt, self)
  else
    (_ ← (if _in_tmod_pe self then exit_tmod else mret tt);
     _ ← invoke (device_invoke DeviceModel.set_speed);
     _ ← invoke (device_invoke DeviceModel.enter_tmod);
     result ← invoke (device_invoke_read 4 DeviceModel.read_id);
     unpacked ← lift (unpack_le32 result);
     let device_id := Z.shiftr unpacked 16 in
     if (Z.land device_id 0xFFFF =? 0x0000)
        || (Z.land device_id 0xFFFF =? 0x3FFF)
     then raise UnableToReadId
     else set_in_tmod true) self.

(** [ProgExecInterfacePic24.check_pe_connection_by_proxy] *)
Definition check_pe_connection_by_proxy : M Gen4WrapperDebugger Z :=
  sanity_check_response ←
    invoke (pe_invoke_read 4 ProgExecModel._sanity_check_proxy_command);
  _ ← lift (ProgExec._check_pe_response ProgExec.PE_COMMAND_SCHECK 0
              sanity_check_response);
  pe_version_response ←
    invoke (pe_invoke_read 4 ProgExecModel._get_pe_version_proxy_command);
  _ ← lift (ProgExec._check_pe_response ProgExec.PE_COMMAND_QVER 0
              pe_version_response);
  lift (getitem pe_version_response 0).

Definition enter_tmod_pe : M Gen4WrapperDebugger Z := fun self =>
  if _in_tmod_pe self then (Ok (_current_pe_version self), self)
  else
    (_ ← (if _in_tmod self then exit_tmod else mret tt);
     _ ← invoke (device_invoke DeviceModel.set_speed_pe);
     _ ← invoke (device_invoke DeviceModel.enter_tmod_pe);
     version ← check_pe_connection_by_proxy;
     _ ← set_current_pe_version version;
     _ ← set_in_tmod_pe true;
     get _current_pe_version) self.

(** [ProgExecInterfacePic24.write_flash_page_by_proxy]: [len(data)] is taken
    after [pic24_compact] has padded [data]. *)
Definition write_flash_page_by_proxy (byte_address : Z) (data : list Z)
    : M Gen4WrapperDebugger unit :=
  '(data', packed_data) ← lift (Codec.pic24_compact data);
  response ←
    invoke (pe_invoke_write_read packed_data 4
              ProgExecModel._write_flash_page_proxy_command
              byte_address (len data'));
  _ ← lift (ProgExec._check_pe_response ProgExec.PE_COMMAND_PROGP 0 response);
  mret tt.

Definition _write_flash_chunk (byte_address : Z) (data : list Z)
    : M Gen4WrapperDebugger unit := fun self =>
  let use_pe_original := use_pe self in
  (_ ← (if use_pe self then
          if byte_address + len data
             >? get_config_start_address_byte device_object
          then
            _ ← set_use_pe false;
            _ ← exit_tmod;
            enter_tmod
          else mret tt
        else mret tt);
   let numbytes := len data in
   now_use_pe ← get use_pe;
   if (now_use_pe : bool) then write_flash_page_by_proxy byte_address data
   else
     _ ← invoke (device_invoke_write data DeviceModel.write_flash_page
                   byte_address numbytes);
     if use_pe_original then
       _ ← set_use_pe use_pe_original;
       _ ← exit_tmod;
       _ ← enter_tmod_pe;
       mret tt
     else mret tt) self.

(** The loop of [_write_flash_block] over the chunks still to come. *)
Fixpoint write_chunks (todo : list (list Z)) (byte_address chunksize pagesize : Z)
    : M Gen4WrapperDebugger unit :=
  match todo with
  | [] => mret tt
  | chunk :: rest =>
      _ ← (if negb (is_blank chunk) then
             padded_chunk ← lift (pad chunk pagesize);
             _write_flash_chunk byte_address padded_chunk
           else mret tt);
      write_chunks rest (byte_address + chunksize) chunksize pagesize
  end.

Definition _write_flash_block (byte_address : Z) (data : list Z)
    : M Gen4WrapperDebugger unit :=
  let chunksize := 512 in
  let pagesize := get_flash_write_row_size_bytes device_object in
  if pagesize =? 0 then raise ZeroDivisionError
  else
    let chunksize := chunksize - chunksize mod pagesize in
    todo ← lift (chunks data chunksize);
    write_chunks todo byte_address chunksize pagesize.

(** *** Debug mode *)

Definition debug_write_memory (address : Z) (data : list Z) (length : Z)
    : M Gen4WrapperDebugger unit :=
  let de_command := DebugExec.de_command_memory32_write address length in
  let de_command := de_command ++ data in
  result ← invoke (de_invoke_write de_command DebugModel.write_ram length);
  lift (_check_de_response result).

Definition debug_write_emulation (address : Z) (data : list Z) (length : Z)
    : M Gen4WrapperDebugger unit :=
  let de_command := DebugExec.de_command_memory24_write address (length / 2) in
  let de_command := de_command ++ data in
  result ← invoke (de_invoke_write de_command DebugModel.write_emulation length);
  lift (_check_de_response result).

Definition run : M Gen4WrapperDebugger unit := fun self =>
  if _is_running self then (Ok tt, self)
  else
    (result ← invoke (de_invoke DebugModel.run);
     _ ← lift (_check_de_response result);
     set_is_running true) self.

Definition halt : M Gen4WrapperDebugger unit := fun self =>
  if negb (_is_running self) then (Ok tt, self)
  else
    (result ← invoke (de_invoke DebugModel.halt);
     _ ← lift (_check_de_response result);
     set_is_running false) self.

Definition step : M Gen4WrapperDebugger unit := fun self =>
  if _is_running self then (Ok tt, self)
  else
    (result ← invoke (de_invoke DebugModel.step);
     lift (_check_de_response result)) self.

(** The loop of [debug_read_flash]. *)
Fixpoint read_flash_loop (fuel : nat)
    (byte_address numbytes_actual chunk_size_bytes : Z) (result : list Z)
    : M Gen4WrapperDebugger (list Z) :=
  match fuel with
  | O => lift Diverge
  | S fuel' =>
      if numbytes_actual >? 0 then
        let temp :=
          temp_chunk_size_bytes byte_address chunk_size_bytes numbytes_actual in
        let de_command :=
          DebugExec.de_command_read_flash (byte_address / 2) temp in
        chunk ← invoke (de_read_flash_chunk byte_address de_command temp);
        match chunk with
        | [] => mret result
        | _ =>
            read_flash_loop fuel' (byte_address + (temp * 4) / 3)
              (numbytes_actual - temp) chunk_size_bytes (result ++ chunk)
        end
      else mret result
  end.

Definition debug_read_flash (fuel : nat) (byte_address numbytes : Z)
    : M Gen4WrapperDebugger (list Z) :=
  let numbytes_actual := (numbytes * 3) / 4 in
  let chunk_size_bytes := 512 in
  let chunk_size_bytes :=
    chunk_size_bytes - chunk_size_bytes mod DebugExec.de_read_flash_pack_size in
  read_flash_loop fuel byte_address numbytes_actual chunk_size_bytes [].

(** *** Callers of the mode methods *)

Inductive mode_call :=
| call_enter_tmod
| call_enter_tmod_pe
| call_exit_tmod.

Definition do_mode_call (c : mode_call) : M Gen4WrapperDebugger unit :=
  match c with
  | call_enter_tmod => enter_tmod
  | call_enter_tmod_pe => _ ← enter_tmod_pe; mret tt
  | call_exit_tmod => exit_tmod
  end.

(** The debugger after a sequence of mode calls, whatever each call did: a
    call that raised leaves the object as it was when it raised. *)
Fixpoint after_mode_calls (cs : list mode_call) (self : Gen4WrapperDebugger)
    : Gen4WrapperDebugger :=
  match cs with
  | [] => self
  | c :: rest => after_mode_calls rest (do_mode_call c self).2
  end.

End Session.

(** [_in_tmod] and [_in_tmod_pe] are not both set. *)
Definition exclusive (self : Gen4WrapperDebugger) : Prop :=
  _in_tmod self && _in_tmod_pe self = false.

(** *** Page writes among the calls *)

Record page_write := {
  pw_byte_address : Z;
  pw_numbytes : Z;
  pw_data : list Z;
  (** through the programming executive, or as a raw TMOD script *)
  pw_pe : bool
}.

Definition page_write_of (c : call) : option page_write :=
  match c with
  | device_invoke_write data DeviceModel.write_flash_page byte_address numbytes =>
      Some {| pw_byte_address := byte_address; pw_numbytes := numbytes;
              pw_data := data; pw_pe := false |}
  | pe_invoke_write_read data _ ProgExecModel._write_flash_page_proxy_command
      byte_address numbytes =>
      Some {| pw_byte_address := byte_address; pw_numbytes := numbytes;
              pw_data := data; pw_pe := true |}
  | _ => None
  end.

Definition page_writes (cs : list call) : list page_write :=
  omap page_write_of cs.


(** The writes [_write_flash_block] is to make for the chunks still to
    come: none for a blank chunk, one padded to whole rows otherwise. *)
Fixpoint planned_writes (todo : list (list Z)) (byte_address chunksize pagesize : Z)
    : list (Z * list Z) :=
  match todo with
  | [] => []
  | chunk :: rest =>
      (if is_blank chunk then []
       else [(byte_address,
              chunk ++ replicate (Z.to_nat ((- len chunk) mod pagesize)) 0xFF)])
      ++ planned_writes rest (byte_address + chunksize) chunksize pagesize
  end.

(** The write-class commands of the debug executive. *)
Inductive write_class :=
| WriteMemory (address : Z) (data : list Z) (length : Z)
| WriteEmulation (address : Z) (data : list Z) (length : Z)
| Run
| Halt
| Step.

Definition perform (tool : list call -> outcome (list Z)) (w : write_class)
    : M Gen4WrapperDebugger unit :=
  match w with
  | WriteMemory address data length => debug_write_memory tool address data length
  | WriteEmulation address data length =>
      debug_write_emulation tool address data length
  | Run => run tool
  | Halt => halt tool
  | Step => step tool
  end.

(** The one call a write-class command makes on the debug executive. *)
Definition call_of (w : write_class) : call :=
  match w with
  | WriteMemory address data length =>
      de_invoke_write
        (DebugExec.de_command_memory32_write address length ++ data)
        DebugModel.write_ram length
  | WriteEmulation address data length =>
      de_invoke_write
        (DebugExec.de_command_memory24_write address (length / 2) ++ data)
        DebugModel.write_emulation length
  | Run => de_invoke DebugModel.run
  | Halt => de_invoke DebugModel.halt
  | Step => de_invoke DebugModel.step
  end.

(** [run] and [step] do nothing on a running target, [halt] nothing on a
    halted one. *)
Definition sends (w : write_class) (self : Gen4WrapperDebugger) : bool :=
  match w with
  | Run | Step => negb (_is_running self)
  | Halt => _is_running self
  | _ => true
  end.

Definition running_after (w : write_class) (self : Gen4WrapperDebugger) : bool :=
  match w with
  | Run => true
  | Halt => false
  | _ => _is_running self
  end.

(** The responses [_check_de_response] refuses: a response to a DE command
    whose status byte is one of the five timeout codes. *)
Definition de_rejects (result : list Z) : bool :=
  match result with
  | cmd :: status :: _ =>
      ((cmd =? DE_COMMAND) || (cmd =? DE_COMMAND_DATA_ONLY))
      && (0x81 <=? status) && (status <=? 0x85)
  | _ => false
  end.

(** The debugger with one more call made and [_is_running] as given. *)
Definition called (c : call) (running : bool) (self : Gen4WrapperDebugger)
    : Gen4WrapperDebugger :=
  {| _in_tmod := _in_tmod self; _in_tmod_pe := _in_tmod_pe self;
     _is_running := running;
     _current_pe_version := _current_pe_version self;
     use_pe := use_pe self; calls := calls self ++ [c] |}.

(** A chunk of [debug_read_flash] that lies on one side of byte address
    0x20000: it ends at or before the boundary, or starts at or after it. *)
Definition clear_of_boundary (c : call) : Prop :=
  match c with
  | de_read_flash_chunk byte_address _ bytes_to_read =>
      byte_address + (bytes_to_read * 4) / 3 <= 0x20000
      \/ 0x20000 <= byte_address
  | _ => True
  end.

(** A tool double that answers every call with the same bytes. *)
Definition steady_tool (reply : list Z) : list call -> outcome (list Z) :=
  fun _ => Ok reply.

(** The calls that bring the debugger into raw TMOD, and those that take
    it from there back into TMOD-PE, when every one of them succeeds. *)
Definition raw_entry_calls : list call :=
  [device_invoke DeviceModel.set_speed;
   device_invoke DeviceModel.enter_tmod;
   device_invoke_read 4 DeviceModel.read_id].

Definition pe_reentry_calls : list call :=
  [device_invoke DeviceModel.exit_tmod;
   device_invoke DeviceModel.set_speed_pe;
   device_invoke DeviceModel.enter_tmod_pe;
   pe_invoke_read 4 ProgExecModel._sanity_check_proxy_command;
   pe_invoke_read 4 ProgExecModel._get_pe_version_proxy_command].

(** The page write of raw TMOD. *)
Definition raw_page_write (byte_address : Z) (data : list Z) : call :=
  device_invoke_write data DeviceModel.write_flash_page byte_address (len data).

(** A tool double with a healthy target: a plausible device id, and a
    programming executive that answers PASS with the command echoed. *)
Definition healthy_tool (made : list call) : outcome (list Z) :=
  match last made with
  | Some (device_invoke_read _ DeviceModel.read_id) => Ok [0; 0; 1; 0]
  | Some (pe_invoke_read _ ProgExecModel._sanity_check_proxy_command) =>
      Ok [0; 0x10; 2; 0]
  | Some (pe_invoke_read _ ProgExecModel._get_pe_version_proxy_command) =>
      Ok [0x25; 0x1B; 2; 0]
  | Some (pe_invoke_write_read _ _ _ _ _) => Ok [0; 0x15; 2; 0]
  | _ => Ok [0; 0; 0; 0]
  end.

(** A debugger in TMOD-PE that uses the programming executive. *)
Definition in_pe_mode : Gen4WrapperDebugger :=
  {| _in_tmod := false; _in_tmod_pe := true; _is_running := false;
     _current_pe_version := 0x25; use_pe := true; calls := [] |}.

(** The calls an [exit_tmod()] makes when it succeeds. *)
Definition exit_calls (self : Gen4WrapperDebugger) : list call :=
  if _in_tmod self || _in_tmod_pe self
  then [device_invoke DeviceModel.exit_tmod] else [].

(** A run that made the calls [evs], none of them a page write, and left
    [use_pe] and [_is_running] alone. *)
Definition quiet (s s' : Gen4WrapperDebugger) (evs : list call) : Prop :=
  calls s' = calls s ++ evs
  /\ page_writes evs = []
  /\ use_pe s' = use_pe s
  /\ _is_running s' = _is_running s.

(** What a run of [_write_flash_chunk] leaves when it starts with [use_pe]
    set and the chunk reaches beyond the start of the config words. *)
Definition config_write_post (s : Gen4WrapperDebugger) (byte_address : Z)
    (data : list Z) (run : outcome unit * Gen4WrapperDebugger) : Prop :=
  (run.1 <> Ok tt
   /\ exists evs, calls run.2 = calls s ++ evs /\ page_writes evs = [])
  \/ exists tail,
       calls run.2
       = calls s ++ exit_calls s ++ raw_entry_calls
                 ++ raw_page_write byte_address data :: tail
       /\ page_writes tail = []
       /\ (run.1 = Ok tt ->
           tail = pe_reentry_calls
           /\ _in_tmod run.2 = false
           /\ _in_tmod_pe run.2 = true
           /\ use_pe run.2 = true).



(** A tool with a healthy target behind it: every call is answered, the
    device id read back is neither 0x0000 nor 0x3FFF, and the programming
    executive answers each of its commands with a response that
    [_check_pe_response] accepts. *)
Definition cooperative (tool : list call -> outcome (list Z)) : Prop :=
  forall made,
    match last made with
    | Some (device_invoke_read _ DeviceModel.read_id) =>
        exists result unpacked,
          tool made = Ok result
          /\ unpack_le32 result = Ok unpacked
          /\ Z.land (Z.shiftr unpacked 16) 0xFFFF <> 0x0000
          /\ Z.land (Z.shiftr unpacked 16) 0xFFFF <> 0x3FFF
    | Some (pe_invoke_read _ ProgExecModel._sanity_check_proxy_command) =>
        exists response,
          tool made = Ok response
          /\ returns (ProgExec._check_pe_response ProgExec.PE_COMMAND_SCHECK 0
                        response)
    | Some (pe_invoke_read _ ProgExecModel._get_pe_version_proxy_command) =>
        exists response,
          tool made = Ok response
          /\ returns (ProgExec._check_pe_response ProgExec.PE_COMMAND_QVER 0
                        response)
          /\ returns (getitem response 0)
    | Some (pe_invoke_write_read _ _
              ProgExecModel._write_flash_page_proxy_command _ _) =>
        exists response,
          tool made = Ok response
          /\ returns (ProgExec._check_pe_response ProgExec.PE_COMMAND_PROGP 0
                        response)
    | _ => returns (tool made)
    end.



End Debugger.

(** ** Further uses of the codec *)

Module CodecUse.

(** [pic24_compact(pic24_decompact(p))], as a value. *)
Definition repack (p : list Z) : outcome (list Z) :=
  '(_, raw) ← Codec.pic24_decompact p;
  '(_, packed) ← Codec.pic24_compact raw;
  Ok packed.

End CodecUse.

(** ** More of programexecinterfaceprovider.py *)

Module ProgExecUse.
Import ProgExec.

Definition _sanity_check_proxy_command : list pe_op :=
  [ send_word (_pe_command PE_COMMAND_SCHECK 1);
    delay_us 12; handshake; receive_word; receive_word ].

Definition _get_pe_version_proxy_command : list pe_op :=
  [ send_word (_pe_command PE_COMMAND_QVER 1);
    delay_us 12; handshake; receive_word; receive_word ].

(** [while num16bitwords: self.pe_proxy.send_word_buf(); num16bitwords -= 1] *)
Fixpoint send_words_buf (fuel : nat) (num16bitwords : Z) (ops : list pe_op)
    : outcome (list pe_op) :=
  match fuel with
  | O => Diverge
  | S fuel' =>
      if num16bitwords =? 0 then Ok ops
      else send_words_buf fuel' (num16bitwords - 1) (ops ++ [send_word_buf])
  end.

Definition _write_flash_page_proxy_command (fuel : nat)
    (byte_address numbytes : Z) : outcome (list pe_op) :=
  let word_address := byte_address / 2 in
  let num_instructionwords := numbytes / 4 in
  let num16bitwords := 3 * num_instructionwords / 2 in
  ops ← send_words_buf fuel num16bitwords
          [ send_word (_pe_command PE_COMMAND_PROGP (3 + num16bitwords));
            send_word (Z.land (Z.shiftr word_address 16) 0x00FF);
            send_word (Z.land word_address 0xFFFF) ];
  Ok (ops ++ [delay_us 12; handshake; receive_word; receive_word]).

(** The words a proxy command takes from the data buffer, two bytes each. *)
Definition is_send_word_buf (o : pe_op) : bool :=
  match o with
  | send_word_buf => true
  | _ => false
  end.

Definition buffer_bytes (ops : list pe_op) : Z :=
  2 * Z.of_nat (length (List.filter is_send_word_buf ops)).

(** [read_flash_by_proxy], with [proxy.invoke_read] for
    [_read_flash_proxy_command] given as a function of [bytes_to_read],
    [byte_address] and [numbytes]. *)
Definition read_flash_by_proxy (invoke_read : Z -> Z -> Z -> outcome (list Z))
    (byte_address numbytes : Z) : outcome (list Z) :=
  let bytes_from_tool := _memory_read_bytes_expected_from_pe numbytes in
  response ← invoke_read bytes_from_tool byte_address numbytes;
  _check_pe_response PE_COMMAND_READP numbytes response.

End ProgExecUse.

(** ** primitiveproxy.py: the accumulating and the executing proxy *)

Module Accumulator.

(** [PrimitiveAccumulatorProxy]: the state is [_content], a list of
    primitives, each a list that starts with the primitive's id. *)
Definition PrimitiveAccumulatorProxy := list (list Z).

(** [self._content[-1].extend(values)] *)
Definition extend_last (values : list Z) : M PrimitiveAccumulatorProxy unit :=
  fun _content =>
  match last _content with
  | None => (Raise IndexError, _content)
  | Some element => (Ok tt, removelast _content ++ [element ++ values])
  end.

Definition reset : M PrimitiveAccumulatorProxy unit := fun _ => (Ok tt, []).

Definition new_element (element : Z) : M PrimitiveAccumulatorProxy unit :=
  fun _content => (Ok tt, _content ++ [[element]]).

Definition append_byte (value : Z) : M PrimitiveAccumulatorProxy unit :=
  extend_last [Z.land value 0xFF].

Definition append_le16 (value : Z) : M PrimitiveAccumulatorProxy unit :=
  _ ← extend_last [Z.land value 0xFF];
  extend_last [Z.land (Z.shiftr value 8) 0xFF].

Definition append_le32 (value : Z) : M PrimitiveAccumulatorProxy unit :=
  _ ← extend_last [Z.land value 0xFF];
  _ ← extend_last [Z.land (Z.shiftr value 8) 0xFF];
  _ ← extend_last [Z.land (Z.shiftr value 16) 0xFF];
  extend_last [Z.land (Z.shiftr value 24) 0xFF].

Definition get_content : M PrimitiveAccumulatorProxy (list (list Z)) :=
  fun _content => (Ok _content, _content).

(** The calls that build a primitive sequence. *)
Inductive build :=
| NewElement (element : Z)
| AppendByte (value : Z)
| AppendLe16 (value : Z)
| AppendLe32 (value : Z).

Definition do_build (b : build) : M PrimitiveAccumulatorProxy unit :=
  match b with
  | NewElement element => new_element element
  | AppendByte value => append_byte value
  | AppendLe16 value => append_le16 value
  | AppendLe32 value => append_le32 value
  end.

Fixpoint do_builds (bs : list build) : M PrimitiveAccumulatorProxy unit :=
  match bs with
  | [] => mret tt
  | b :: rest => _ ← do_build b; do_builds rest
  end.

End Accumulator.

Module Executer.

Section Proxy.

Variable generate_bytestream : list Z -> list Z.
Variable execute : list (list (list Z)) -> outcome (list (list Z)).

(** [PrimitiveExecuterProxy] *)
Record PrimitiveExecuterProxy := {
  _content : list (list Z);
  transportproxy : Transport.TransportProxy;
  _result_accumulator : list Z
}.

(** [PrimitiveExecuterProxy(controller)]: the transport proxy is made with
    a block size of 64. *)
Definition new : PrimitiveExecuterProxy :=
  {| _content := []; transportproxy := Transport.new 64;
     _result_accumulator := [] |}.

(** A method of the accumulator it inherits, run on [_content]. *)
Definition inherited {A} (m : M Accumulator.PrimitiveAccumulatorProxy A)
    : M PrimitiveExecuterProxy A := fun self =>
  let '(r, content) := m (_content self) in
  (r, {| _content := content; transportproxy := transportproxy self;
         _result_accumulator := _result_accumulator self |}).

(** A method of [self.transportproxy]. *)
Definition on_transport {A} (m : M Transport.TransportProxy A)
    : M PrimitiveExecuterProxy A := fun self =>
  let '(r, tp) := m (transportproxy self) in
  (r, {| _content := _content self; transportproxy := tp;
         _result_accumulator := _result_accumulator self |}).

Definition send_pending : M PrimitiveExecuterProxy unit := fun self =>
  match _content self with
  | [] => (Raise IndexError, self)
  | block :: _ =>
      on_transport (Transport.send_block generate_bytestream execute block) self
  end.

Definition new_element (element : Z) : M PrimitiveExecuterProxy unit :=
  fun self =>
  (_ ← (match _content self with
        | [] => mret tt
        | _ => _ ← send_pending; inherited Accumulator.reset
        end);
   inherited (Accumulator.new_element element)) self.

(** [result[0:numbytes]] *)
Definition slice_to (result : list Z) (numbytes : Z) : list Z :=
  if numbytes <? 0 then take (Z.to_nat (len result + numbytes)) result
  else take (Z.to_nat numbytes) result.

(** A value a bytearray takes. *)
Definition is_byte (value : Z) : bool := (0 <=? value) && (value <? 256).

(** [self._result_accumulator.extend(values)]: the accumulator is a
    bytearray, which refuses a value outside 0..255 with [ValueError] and
    is then left as it was. *)
Definition extend_results (values : list Z) : M PrimitiveExecuterProxy unit :=
  fun self =>
  if forallb is_byte values then
    (Ok tt, {| _content := _content self; transportproxy := transportproxy self;
               _result_accumulator := _result_accumulator self ++ values |})
  else (Raise ValueError, self).

(** [sync(numbytes)] returns the result of the transport, or [0] when
    nothing is loaded: [None] stands for that [0]. *)
Definition sync (numbytes : Z) : M PrimitiveExecuterProxy (option (list Z)) :=
  fun self =>
  match _content self with
  | [] => (Ok None, self)
  | _ =>
      (_ ← send_pending;
       result ← on_transport (Transport.sync generate_bytestream execute);
       _ ← extend_results (slice_to result numbytes);
       _ ← inherited Accumulator.reset;
       mret (Some result)) self
  end.

Definition finalise : M PrimitiveExecuterProxy unit :=
  _ ← sync 0; mret tt.

Definition clear_accumulated_results : M PrimitiveExecuterProxy unit :=
  fun self =>
  (Ok tt, {| _content := _content self; transportproxy := transportproxy self;
             _result_accumulator := [] |}).

Definition get_accumulated_results : M PrimitiveExecuterProxy (list Z) :=
  fun self =>
  let results := _result_accumulator self in
  (_ ← clear_accumulated_results; mret results) self.

(** A building call on the executing proxy: [new_element] is its own, the
    appends are the accumulator's. *)
Definition do_build (b : Accumulator.build) : M PrimitiveExecuterProxy unit :=
  match b with
  | Accumulator.NewElement element => new_element element
  | _ => inherited (Accumulator.do_build b)
  end.

Fixpoint do_builds (bs : list Accumulator.build) : M PrimitiveExecuterProxy unit :=
  match bs with
  | [] => mret tt
  | b :: rest => _ ← do_build b; do_builds rest
  end.

(** All the blocks handed to the transport so far, call after call. *)
Definition delivered (self : PrimitiveExecuterProxy) : list (list Z) :=
  concat (Transport.executed (transportproxy self)).

(** The blocks the transport proxy has executed or still holds, in order. *)
Definition handed_over (tp : Transport.TransportProxy) : list (list Z) :=
  concat (Transport.executed tp)
  ++ (generate_bytestream <$> Transport.content tp).

(** The transport proxy of an executing proxy: block size 64, and a
    running length that is the size of what it holds. *)
Definition sound (tp : Transport.TransportProxy) : Prop :=
  Transport.length tp = Transport.total_size (Transport.content tp)
  /\ Transport.blocksize tp = 64.

(** The executing proxy [self] has been given the primitives [built]:
    all but the last are with the transport proxy, the last is pending. *)
Definition follows (built : list (list Z)) (self : PrimitiveExecuterProxy)
    : Prop :=
  handed_over (transportproxy self) ++ (generate_bytestream <$> _content self)
  = generate_bytestream <$> built
  /\ sound (transportproxy self)
  /\ (_content self = [] /\ built = []
      \/ exists init element,
           built = init ++ [element] /\ _content self = [element]).

(** At most one primitive is waiting in [_content]. *)
Definition one_pending (self : PrimitiveExecuterProxy) : Prop :=
  (length (_content self) <= 1)%nat.

(** Any use of the proxy: building calls and sync points. *)
Inductive use :=
| Build (b : Accumulator.build)
| Sync (numbytes : Z)
| GetResults.

Definition do_use (u : use) : M PrimitiveExecuterProxy unit :=
  match u with
  | Build b => do_build b
  | Sync numbytes => _ ← sync numbytes; mret tt
  | GetResults => _ ← get_accumulated_results; mret tt
  end.

(** The proxy after a sequence of uses, whatever each of them did. *)
Fixpoint after_uses (us : list use) (self : PrimitiveExecuterProxy)
    : PrimitiveExecuterProxy :=
  match us with
  | [] => self
  | u :: rest => after_uses rest (do_use u self).2
  end.

End Proxy.

End Executer.

(** ** More of gen4engineinterface.py *)

Module DebuggerUse.
Import Debugger.

Section Session.

Variable tool : list call -> outcome (list Z).
Variable device_object : PicDevice.

(** [write_pe_memory(byte_address, data)]: the block is padded to whole
    rows, and the padded block is written. *)
Definition write_pe_memory (byte_address : Z) (data : list Z)
    : M Gen4WrapperDebugger unit :=
  padded_data ←
    lift (pad data (get_flash_write_row_size_bytes device_object));
  _write_flash_block tool device_object byte_address padded_data.

(** [write_de_memory(byte_address, data)]: the padded block is made, and
    [data] is what is written. *)
Definition write_de_memory (byte_address : Z) (data : list Z)
    : M Gen4WrapperDebugger unit :=
  _ ← lift (pad data (get_flash_write_row_size_bytes device_object));
  _write_flash_block tool device_object byte_address data.

End Session.

(** The packed bytes a call asks the debug executive to read. *)
Definition bytes_asked (c : call) : Z :=
  match c with
  | de_read_flash_chunk _ _ bytes_to_read => bytes_to_read
  | _ => 0
  end.

Definition requested (cs : list call) : Z :=
  foldr (fun c n => bytes_asked c + n) 0 cs.

(** A flash read of the debug executive that starts below 0x20000. *)
Definition below_boundary (c : call) : Prop :=
  match c with
  | de_read_flash_chunk byte_address _ _ => byte_address < 0x20000
  | _ => True
  end.

(** A flash read of the debug executive that asks for 1 to 504 bytes. *)
Definition within_chunk (c : call) : Prop :=
  match c with
  | de_read_flash_chunk _ _ bytes_to_read => 0 < bytes_to_read <= 504
  | _ => False
  end.

End DebuggerUse.

(** ** pic24fj128ga705pds.py and gen4scriptwrapper.py: raw flash access *)

Module DeviceScripts.

(** What a script method hands to the wrapper: the parameters, as they are
    before [pic24_pack_params], and [options['packed_data_count']]. The
    bytecode of the script is a constant of the method. *)
Record script := {
  parameters : list Z;
  packed_data_count : Z
}.

(** [read_flash(byte_address, numbytes)] *)
Definition read_flash (byte_address numbytes : Z) : script :=
  let numbytes := (numbytes * 3) / 4 in
  let extra_bytes := 0 in
  let extra_bytes :=
    if numbytes mod 12 >? 0 then 12 - numbytes mod 12 else extra_bytes in
  let numbytes := numbytes + extra_bytes in
  {| parameters := [byte_address / 2; numbytes];
     packed_data_count := numbytes |}.

(** [write_flash_page(byte_address, numbytes)] *)
Definition write_flash_page (byte_address numbytes : Z) : script :=
  let numbytes := (numbytes * 3) / 4 in
  {| parameters := [byte_address / 2; numbytes];
     packed_data_count := numbytes |}.

Section Wrapper.

(** The controller: [execute] of the command made from a script, and the
    data buffers of the tool, read and written [numbytes] at a time. *)
Variable execute : script -> outcome (list Z).
Variable read_data_buffer : Z -> Z -> outcome (list Z).
Variable write_data_buffer : Z -> list Z -> outcome unit.

(** [Gen4ScriptWrapper.invoke_read(bytes_to_read, method, ...)] for a
    method whose options hold [packed_data_count]. *)
Definition invoke_read (bytes_to_read : Z) (method : script)
    : outcome (list Z) :=
  let data_buffer_id := 1 in
  _ ← execute method;
  data ← read_data_buffer data_buffer_id (packed_data_count method);
  '(_, data) ← Codec.pic24_decompact data;
  Ok data.

(** [Gen4ScriptWrapper.invoke_write(data_to_write, method, ...)] for a
    method whose options hold [packed_data_count]. *)
Definition invoke_write (data_to_write : list Z) (method : script)
    : outcome (list Z) :=
  let data_buffer_id := 1 in
  '(_, data_to_write) ← Codec.pic24_compact data_to_write;
  _ ← write_data_buffer data_buffer_id data_to_write;
  execute method.

(** [_read_flash_block(byte_address, numbytes)] without the programming
    executive. *)
Definition _read_flash_block (byte_address numbytes : Z) : outcome (list Z) :=
  invoke_read numbytes (read_flash byte_address numbytes).

End Wrapper.

End DeviceScripts.

(** * Properties *)

(** Floor division and remainder by a constant, case by case. *)
Ltac floor_arith :=
  repeat match goal with
         | |- context [Z.eqb ?a ?b] => destruct (Z.eqb_spec a b)
         | |- context [Z.gtb ?a ?b] => destruct (Z.gtb_spec a b)
         | |- context [Z.ltb ?a ?b] => destruct (Z.ltb_spec a b)
         | |- context [Z.geb ?a ?b] => destruct (Z.geb_spec a b)
         end;
  Z.div_mod_to_equations; lia.

Lemma bind_ok {A B} (a : A) (f : A -> outcome B) : (Ok a ≫= f) = f a.
Proof. reflexivity. Qed.

(** ** Padding loops *)

Lemma len_app (a b : list Z) : len (a ++ b) = len a + len b.
Proof. unfold len. rewrite length_app. lia. Qed.

Lemma len_nonneg (a : list Z) : 0 <= len a.
Proof. unfold len. lia. Qed.

Lemma shortfall_step (n m : Z) :
  0 < m -> n mod m <> 0 -> (- (n + 1)) mod m = (- n) mod m - 1.
Proof.
  intros Hm Hn.
  pose proof (Z.mod_pos_bound n m Hm).
  rewrite (Z.mod_opp_l_nz n m) by lia.
  destruct (Z.eq_dec ((n + 1) mod m) 0) as [E|E].
  - rewrite (Z.mod_opp_l_z (n + 1) m) by lia.
    assert (n mod m = m - 1); [|lia].
    apply Z.mod_divide in E; [|lia]. destruct E as [q Hq].
    replace n with (m - 1 + (q - 1) * m) by lia.
    rewrite Z.mod_add by lia. apply Z.mod_small. lia.
  - rewrite (Z.mod_opp_l_nz (n + 1) m) by lia.
    assert ((n + 1) mod m = n mod m + 1); [|lia].
    pose proof (Z.mod_pos_bound (n + 1) m Hm).
    rewrite <- (Zplus_mod_idemp_l n 1 m) in E |- *.
    destruct (Z.eq_dec (n mod m + 1) m) as [F|F].
    + rewrite F, Z.mod_same in E by lia. congruence.
    + apply Z.mod_small. lia.
Qed.

(** The padding loop always ends: it appends the shortfall to the next
    multiple of [m], and fuel above the shortfall is enough. *)
Lemma append_while_shortfall (m fill : Z) (fuel : nat) (data : list Z) :
  0 < m -> (Z.to_nat ((- len data) mod m) < fuel)%nat ->
  append_while fuel m fill data
  = Ok (data ++ replicate (Z.to_nat ((- len data) mod m)) fill).
Proof.
  intros Hm. revert data.
  induction fuel as [|fuel IH]; intros data Hf; [lia|].
  simpl. destruct (Z.eqb_spec m 0) as [|_]; [lia|].
  destruct (Z.eqb_spec (len data mod m) 0) as [E|E].
  - rewrite Z.mod_opp_l_z by lia. simpl. by rewrite app_nil_r.
  - pose proof (shortfall_step (len data) m Hm E) as Hs.
    pose proof (Z.mod_pos_bound (- (len data + 1)) m Hm).
    rewrite IH; rewrite len_app; change (len [fill]) with 1.
    + rewrite Hs. f_equal. rewrite <- app_assoc. f_equal.
      replace (Z.to_nat ((- len data) mod m))
        with (S (Z.to_nat ((- len data) mod m - 1))) by lia.
      reflexivity.
    + lia.
Qed.

Lemma shortfall_lt (n m : Z) : 0 < m -> (Z.to_nat ((- n) mod m) < Z.to_nat m)%nat.
Proof. intros Hm. pose proof (Z.mod_pos_bound (- n) m Hm). lia. Qed.

(** ** The codec *)

Module CodecFacts.
Import Codec.

Example compact_example :
  pic24_compact [1; 2; 3; 0; 5; 6; 7; 0; 9]
  = Ok ([1; 2; 3; 0; 5; 6; 7; 0; 9; 0; 0; 0; 0; 0; 0; 0],
        [1; 2; 3; 7; 5; 6; 9; 0; 0; 0; 0; 0]).
Proof. reflexivity. Qed.

Example decompact_example :
  pic24_decompact [1; 2; 3; 7; 5; 6]
  = Ok ([1; 2; 3; 7; 5; 6], [1; 2; 3; 0; 5; 6; 7; 0]).
Proof. reflexivity. Qed.

Lemma range_unfold (i step n : nat) :
  (fun k => i + k * step)%nat <$> seq 0 (S n)
  = i :: ((fun k => (i + step) + k * step)%nat <$> seq 0 n).
Proof.
  simpl. f_equal; [lia|].
  rewrite <- fmap_S_seq, <- list_fmap_compose.
  apply list_fmap_ext. intros _ k _. simpl. lia.
Qed.

Lemma py_range_exact (n step : nat) :
  (0 < step)%nat ->
  py_range (n * step) step = (fun k => k * step)%nat <$> seq 0 n.
Proof.
  intros Hs. unfold py_range.
  replace ((n * step + step - 1) / step)%nat with n; [done|].
  apply Nat.div_unique with (r := (step - 1)%nat); lia.
Qed.

Lemma getitem_app (pre data : list Z) (i k : nat) :
  length pre = i -> getitem (pre ++ data) (i + k) = getitem data k.
Proof.
  intros <-. unfold getitem. by rewrite lookup_app_r, Nat.add_comm, Nat.add_sub by lia.
Qed.

Lemma getitem_app0 (pre data : list Z) (i : nat) :
  length pre = i -> getitem (pre ++ data) i = getitem data 0.
Proof. intros H. rewrite <- (Nat.add_0_r i) at 1. by apply getitem_app. Qed.

Lemma compact_step_frame (pre rest output : list Z) (i : nat)
    (d0 d1 d2 d3 d4 d5 d6 d7 : Z) :
  length pre = i ->
  compact_step (pre ++ d0 :: d1 :: d2 :: d3 :: d4 :: d5 :: d6 :: d7 :: rest)
    output i
  = Ok (output ++ [d0; d1; d2; d6; d4; d5]).
Proof.
  intros H. unfold compact_step.
  rewrite (getitem_app0 pre _ i), !(getitem_app pre _ i) by done. reflexivity.
Qed.

Lemma decompact_step_frame (pre rest output : list Z) (i : nat)
    (d0 d1 d2 d3 d4 d5 : Z) :
  length pre = i ->
  decompact_step (pre ++ d0 :: d1 :: d2 :: d3 :: d4 :: d5 :: rest) output i
  = Ok (output ++ [d0; d1; d2; 0; d4; d5; d3; 0]).
Proof.
  intros H. unfold decompact_step.
  rewrite (getitem_app0 pre _ i), !(getitem_app pre _ i) by done. reflexivity.
Qed.

(** The indexed loop of [pic24_compact] visits whole frames in order. *)
Lemma compact_loop (n : nat) : forall (pre data output : list Z) (i : nat),
  length pre = i -> length data = (n * 8)%nat ->
  for_each ((fun k => i + k * 8)%nat <$> seq 0 n)
    (compact_step (pre ++ data)) output
  = Ok (output ++ compact_frames data).
Proof.
  induction n as [|n IH]; intros pre data output i Hp Hd.
  - destruct data; [|done]. simpl. by rewrite app_nil_r.
  - do 8 (destruct data as [|? data]; [done|]).
    rewrite range_unfold. cbn [for_each].
    rewrite compact_step_frame, bind_ok by done.
    replace (pre ++ z :: z0 :: z1 :: z2 :: z3 :: z4 :: z5 :: z6 :: data)
      with ((pre ++ [z; z0; z1; z2; z3; z4; z5; z6]) ++ data)
      by (by rewrite <- app_assoc).
    rewrite IH.
    + by rewrite <- app_assoc.
    + rewrite length_app. simpl. lia.
    + simpl in Hd. lia.
Qed.

Lemma decompact_loop (n : nat) : forall (pre data output : list Z) (i : nat),
  length pre = i -> length data = (n * 6)%nat ->
  for_each ((fun k => i + k * 6)%nat <$> seq 0 n)
    (decompact_step (pre ++ data)) output
  = Ok (output ++ decompact_frames data).
Proof.
  induction n as [|n IH]; intros pre data output i Hp Hd.
  - destruct data; [|done]. simpl. by rewrite app_nil_r.
  - do 6 (destruct data as [|? data]; [done|]).
    rewrite range_unfold. cbn [for_each].
    rewrite decompact_step_frame, bind_ok by done.
    replace (pre ++ z :: z0 :: z1 :: z2 :: z3 :: z4 :: data)
      with ((pre ++ [z; z0; z1; z2; z3; z4]) ++ data)
      by (by rewrite <- app_assoc).
    rewrite IH.
    + by rewrite <- app_assoc.
    + rewrite length_app. simpl. lia.
    + simpl in Hd. lia.
Qed.

Lemma compact_loop0 (n : nat) (data : list Z) :
  length data = (n * 8)%nat ->
  for_each ((fun k => k * 8)%nat <$> seq 0 n) (compact_step data) []
  = Ok (compact_frames data).
Proof. intros Hn. exact (compact_loop n [] data [] 0%nat eq_refl Hn). Qed.

Lemma decompact_loop0 (n : nat) (data : list Z) :
  length data = (n * 6)%nat ->
  for_each ((fun k => k * 6)%nat <$> seq 0 n) (decompact_step data) []
  = Ok (decompact_frames data).
Proof. intros Hn. exact (decompact_loop n [] data [] 0%nat eq_refl Hn). Qed.

Lemma zero_pad_length (m : Z) (x : list Z) :
  0 < m -> exists n, length (zero_pad m x) = (n * Z.to_nat m)%nat.
Proof.
  intros Hm. unfold zero_pad. rewrite length_app, length_replicate.
  pose proof (Z.mod_pos_bound (- len x) m Hm) as Hb.
  assert ((len x + (- len x) mod m) mod m = 0) as Hz.
  { rewrite Zplus_mod_idemp_r. replace (len x + - len x) with 0 by lia.
    by apply Z.mod_0_l, Z.neq_sym, Z.lt_neq. }
  apply Z.mod_divide in Hz; [|lia]. destruct Hz as [q Hq].
  exists (Z.to_nat q). unfold len in *. nia.
Qed.

Lemma zero_pad_whole (m : Z) (x : list Z) :
  0 < m -> (zero_pad m x = x <-> len x mod m = 0).
Proof.
  intros Hm. unfold zero_pad. split.
  - intros H. apply (f_equal length) in H.
    rewrite length_app, length_replicate in H.
    pose proof (Z.mod_pos_bound (- len x) m Hm).
    assert ((- len x) mod m = 0) as Hz by lia.
    apply Z.mod_divide in Hz; [|lia]. destruct Hz as [q Hq].
    replace (len x) with ((- q) * m) by lia. by apply Z.mod_mul, Z.neq_sym, Z.lt_neq.
  - intros H. rewrite Z.mod_opp_l_z by lia. apply app_nil_r.
Qed.

Lemma pad8_whole (x : list Z) : len x mod 8 = 0 -> pad8 x = x.
Proof. apply zero_pad_whole. lia. Qed.

(** [pic24_compact] on any buffer: the buffer is padded in place, and the
    padded buffer is converted. *)
Lemma pic24_compact_any (x : list Z) :
  pic24_compact x = Ok (pad8 x, compact_frames (pad8 x)).
Proof.
  destruct (zero_pad_length 8 x) as [n Hn]; [lia|].
  unfold pic24_compact.
  rewrite append_while_shortfall; [|lia|].
  - fold (zero_pad 8 x). fold (pad8 x) in Hn |- *.
    change (Z.to_nat 8) with 8%nat in Hn.
    rewrite bind_ok, Hn, py_range_exact by lia.
    by rewrite (compact_loop0 n (pad8 x) Hn).
  - pose proof (shortfall_lt (len x) 8). lia.
Qed.

Lemma pic24_decompact_any (x : list Z) :
  pic24_decompact x = Ok (zero_pad 6 x, decompact_frames (zero_pad 6 x)).
Proof.
  destruct (zero_pad_length 6 x) as [n Hn]; [lia|].
  unfold pic24_decompact.
  rewrite append_while_shortfall; [|lia|].
  - fold (zero_pad 6 x).
    change (Z.to_nat 6) with 6%nat in Hn.
    rewrite bind_ok, Hn, py_range_exact by lia.
    by rewrite (decompact_loop0 n (zero_pad 6 x) Hn).
  - pose proof (shortfall_lt (len x) 6). lia.
Qed.

Lemma pic24_compact_frames (data : list Z) (n : nat) :
  length data = (n * 8)%nat ->
  pic24_compact data = Ok (data, compact_frames data).
Proof.
  intros Hn. rewrite pic24_compact_any, pad8_whole; [done|].
  unfold len. rewrite Hn.
  replace (Z.of_nat (n * 8)) with (Z.of_nat n * 8) by lia.
  by rewrite Z.mod_mul.
Qed.

Lemma pic24_decompact_frames (data : list Z) (n : nat) :
  length data = (n * 6)%nat ->
  pic24_decompact data = Ok (data, decompact_frames data).
Proof.
  intros Hn. rewrite pic24_decompact_any.
  assert (zero_pad 6 data = data) as ->; [|done].
  apply zero_pad_whole; [lia|].
  unfold len. rewrite Hn.
  replace (Z.of_nat (n * 6)) with (Z.of_nat n * 6) by lia.
  by rewrite Z.mod_mul.
Qed.

Lemma compact_frames_length (n : nat) : forall data,
  length data = (n * 8)%nat -> length (compact_frames data) = (n * 6)%nat.
Proof.
  induction n as [|n IH]; intros data Hd.
  - by destruct data.
  - do 8 (destruct data as [|? data]; [done|]).
    simpl. rewrite IH; [lia|]. simpl in Hd. lia.
Qed.

(** What a round trip leaves of whole frames: the phantom bytes are gone. *)
Lemma frames_roundtrip (n : nat) : forall data,
  length data = (n * 8)%nat -> phantom_clear data = true ->
  decompact_frames (compact_frames data) = data.
Proof.
  induction n as [|n IH]; intros data Hd Hp.
  - by destruct data.
  - do 8 (destruct data as [|? data]; [done|]).
    simpl in Hp. apply andb_prop in Hp as [H3 Hp].
    apply andb_prop in Hp as [H7 Hp].
    apply Z.eqb_eq in H3, H7. subst.
    simpl. rewrite IH; [done| |done]. simpl in Hd. lia.
Qed.

Lemma phantom_clear_pad8 (x : list Z) :
  phantom_clear x = true -> phantom_clear (pad8 x) = true.
Proof.
  unfold pad8, zero_pad. generalize (Z.to_nat ((- len x) mod 8)). intros k.
  remember (length x) as m eqn:Hm. revert x Hm.
  induction m as [m IH] using lt_wf_ind. intros x Hm Hp.
  destruct x as [|a [|b [|c [|d rest]]]].
  - clear. simpl. induction k as [k IHk] using lt_wf_ind.
    destruct k as [|[|[|[|k]]]]; try done. simpl. apply IHk. lia.
  - clear. destruct k as [|[|[|k]]]; try done. simpl.
    induction k as [k IHk] using lt_wf_ind.
    destruct k as [|[|[|[|k]]]]; try done. simpl. apply IHk. lia.
  - clear. destruct k as [|[|k]]; try done. simpl.
    induction k as [k IHk] using lt_wf_ind.
    destruct k as [|[|[|[|k]]]]; try done. simpl. apply IHk. lia.
  - clear. destruct k as [|k]; try done. simpl.
    induction k as [k IHk] using lt_wf_ind.
    destruct k as [|[|[|[|k]]]]; try done. simpl. apply IHk. lia.
  - simpl in Hp |- *. apply andb_prop in Hp as [Hd Hp].
    rewrite Hd. simpl. apply (IH (length rest)); [simpl in Hm; lia|done|done].
Qed.

(** The round trip on any buffer, without conditions: the padded buffer
    comes back with its phantom bytes cleared. *)
Lemma roundtrip_any (x : list Z) :
  roundtrip x = Ok (decompact_frames (compact_frames (pad8 x))).
Proof.
  destruct (zero_pad_length 8 x) as [n Hn]; [lia|].
  change (Z.to_nat 8) with 8%nat in Hn. fold (pad8 x) in Hn.
  unfold roundtrip. rewrite pic24_compact_any, bind_ok.
  rewrite (pic24_decompact_frames _ n); [done|].
  by apply compact_frames_length.
Qed.

(** C1, as the code has it: a buffer whose phantom bytes (every byte at an
    index that is 3 modulo 4) are zero survives the round trip up to its
    padding, [decompact(compact(x)) == pad(x,8)]; padding first changes
    nothing, and a buffer of a whole number of 8-byte frames comes back
    as it was. *)
Theorem roundtrip_phantom_clear (x : list Z) :
  phantom_clear x = true ->
  roundtrip x = Ok (pad8 x)
  /\ roundtrip (pad8 x) = Ok (pad8 x)
  /\ (len x mod 8 = 0 -> roundtrip x = Ok x).
Proof.
  intros Hp.
  destruct (zero_pad_length 8 x) as [n Hn]; [lia|].
  change (Z.to_nat 8) with 8%nat in Hn. fold (pad8 x) in Hn.
  assert (roundtrip x = Ok (pad8 x)) as Hr.
  { rewrite roundtrip_any, (frames_roundtrip n); auto using phantom_clear_pad8. }
  split; [done|]. split.
  - rewrite roundtrip_any, pad8_whole.
    + rewrite (frames_roundtrip n); auto using phantom_clear_pad8.
    + unfold len. rewrite Hn.
      replace (Z.of_nat (n * 8)) with (Z.of_nat n * 8) by lia.
      by rewrite Z.mod_mul.
  - intros Hw. by rewrite Hr, pad8_whole.
Qed.

Lemma roundtrip_phantom_clear_witness :
  phantom_clear [1; 2; 3; 0; 5; 6; 7; 0; 9] = true
  /\ roundtrip [1; 2; 3; 0; 5; 6; 7; 0; 9]
     = Ok (pad8 [1; 2; 3; 0; 5; 6; 7; 0; 9]).
Proof.
  split; [reflexivity|].
  apply (roundtrip_phantom_clear [1; 2; 3; 0; 5; 6; 7; 0; 9]). reflexivity.
Defined.

(** C1 as the spec words it fails: the codec drops byte 3 and byte 7 of
    every frame, so a frame with a nonzero byte there does not come back. *)
Lemma roundtrip_drops_phantom_byte :
  len [0; 0; 0; 1; 0; 0; 0; 0] mod 8 = 0
  /\ roundtrip [0; 0; 0; 1; 0; 0; 0; 0] = Ok [0; 0; 0; 0; 0; 0; 0; 0]
  /\ roundtrip [0; 0; 0; 1; 0; 0; 0; 0] <> Ok [0; 0; 0; 1; 0; 0; 0; 0].
Proof. split; [reflexivity|]. split; [reflexivity|discriminate]. Qed.

(** C10: both functions pad the caller's object in place. The object at
    [l] holds [data] followed by the zero bytes that bring its length to a
    multiple of 8 (compact) or 6 (decompact) when the call returns, so it
    is left as it was exactly when its length was such a multiple already;
    the list returned is a new object. *)
Theorem codec_pads_argument_in_place (l : loc) (h : store) (data : list Z) :
  h !! l = Some data ->
  (exists o h',
     pic24_compact_obj l h = Ok (o, h')
     /\ o <> l /\ h !! o = None
     /\ h' !! l
        = Some (data ++ replicate (Z.to_nat ((- len data) mod 8)) 0)
     /\ (h' !! l = h !! l <-> len data mod 8 = 0))
  /\ (exists o h',
     pic24_decompact_obj l h = Ok (o, h')
     /\ o <> l /\ h !! o = None
     /\ h' !! l
        = Some (data ++ replicate (Z.to_nat ((- len data) mod 6)) 0)
     /\ (h' !! l = h !! l <-> len data mod 6 = 0)).
Proof.
  intros Hl.
  assert (forall (m : Z) (out : list Z), 0 < m ->
    let h1 := <[l := zero_pad m data]> h in
    let o := alloc h1 in
    o <> l /\ h !! o = None
    /\ <[o := out]> h1 !! l = Some (zero_pad m data)
    /\ (<[o := out]> h1 !! l = h !! l <-> len data mod m = 0)) as Hgen.
  { intros m out Hm h1 o.
    assert (o ∉ dom h1) as Hfresh by (subst o; unfold alloc; apply is_fresh).
    assert (o <> l) as Hne.
    { intros ->. apply Hfresh. subst h1. rewrite dom_insert_L. set_solver. }
    assert (h !! o = None) as Hnone.
    { apply not_elem_of_dom. intros Hin. apply Hfresh.
      subst h1. rewrite dom_insert_L. set_solver. }
    assert (<[o := out]> h1 !! l = Some (zero_pad m data)) as Hlook.
    { subst h1. by rewrite lookup_insert_ne, lookup_insert_eq. }
    repeat split; try done.
    - rewrite Hlook, Hl. intros [= E]. by apply zero_pad_whole in E.
    - intros E. rewrite Hlook, Hl. f_equal. by apply zero_pad_whole. }
  split.
  - unfold pic24_compact_obj. rewrite Hl, pic24_compact_any, bind_ok.
    eexists _, _. split; [reflexivity|].
    specialize (Hgen 8 (compact_frames (pad8 data)) ltac:(lia)).
    unfold pad8, zero_pad in *. by rewrite Hl in Hgen.
  - unfold pic24_decompact_obj. rewrite Hl, pic24_decompact_any, bind_ok.
    eexists _, _. split; [reflexivity|].
    specialize (Hgen 6 (decompact_frames (zero_pad 6 data)) ltac:(lia)).
    unfold zero_pad in *. by rewrite Hl in Hgen.
Qed.

Lemma codec_pads_argument_in_place_witness :
  ({[ 7%nat := [1; 2; 3] ]} : store) !! 7%nat = Some [1; 2; 3]
  /\ exists o h',
       pic24_compact_obj 7%nat {[ 7%nat := [1; 2; 3] ]} = Ok (o, h')
       /\ o <> 7%nat
       /\ h' !! 7%nat = Some [1; 2; 3; 0; 0; 0; 0; 0].
Proof.
  assert (({[ 7%nat := [1; 2; 3] ]} : store) !! 7%nat = Some [1; 2; 3]) as H
    by reflexivity.
  split; [exact H|].
  destruct (codec_pads_argument_in_place 7%nat _ _ H)
    as [(o & h' & Hrun & Hne & _ & Hl & _) _].
  exists o, h'. auto.
Defined.

End CodecFacts.

(** ** The Programming Executive *)

Module ProgExecFacts.
Import ProgExec.

Lemma receive_words_counts (fuel : nat) : forall (num16bitwords : Z) ops,
  0 <= num16bitwords -> (Z.to_nat num16bitwords < fuel)%nat ->
  receive_words fuel num16bitwords ops
  = Ok (ops ++ replicate (Z.to_nat num16bitwords) receive_word).
Proof.
  induction fuel as [|fuel IH]; intros n ops Hn Hf; [lia|].
  simpl. destruct (Z.eqb_spec n 0) as [->|Hnz].
  - simpl. by rewrite app_nil_r.
  - rewrite IH by lia. rewrite <- app_assoc. do 2 f_equal.
    replace (Z.to_nat n) with (S (Z.to_nat (n - 1))) by lia. reflexivity.
Qed.

Lemma wire_bytes_app (a b : list pe_op) :
  wire_bytes (a ++ b) = wire_bytes a + wire_bytes b.
Proof. unfold wire_bytes. rewrite List.filter_app, length_app. lia. Qed.

Lemma wire_bytes_receive (k : nat) :
  wire_bytes (replicate k receive_word) = 2 * Z.of_nat k.
Proof.
  unfold wire_bytes. induction k as [|k IH]; [done|].
  simpl. rewrite Nat2Z.inj_succ. simpl in IH. lia.
Qed.

Lemma num16bitwords_nonneg (N : Z) : 0 <= N -> 0 <= num16bitwords_of N.
Proof. intros HN. unfold num16bitwords_of. floor_arith. Qed.

(** What the host expects and what the proxy command receives, for [N]
    instruction words. *)
Lemma expected_bytes_even_odd (N : Z) :
  _memory_read_bytes_expected_from_pe (4 * N)
  = if Z.even N then 4 + 3 * N else 8 + 3 * (N - 1).
Proof.
  unfold _memory_read_bytes_expected_from_pe. rewrite Zeven_mod. floor_arith.
Qed.

Lemma expected_bytes_are_the_words_read (N : Z) :
  0 <= N ->
  _memory_read_bytes_expected_from_pe (4 * N) = 2 * (2 + num16bitwords_of N).
Proof.
  intros HN. rewrite expected_bytes_even_odd. unfold num16bitwords_of.
  rewrite Zeven_mod. floor_arith.
Qed.

(** C2, as the code has it: for [1 <= N <= 32768] instruction words the
    host expects [4 + 3*N] bytes when [N] is even and [8 + 3*(N-1)] bytes
    when [N] is odd, and that is twice the number of 16-bit words the
    proxy command receives (two header words, then [3*N/2] data words for
    even [N], [2 + 3*(N-1)/2] for odd [N]). *)
Theorem pe_read_byte_accounting (N byte_address : Z) (fuel : nat) :
  1 <= N <= 32768 -> (Z.to_nat (2 * N) < fuel)%nat ->
  _memory_read_bytes_expected_from_pe (4 * N)
  = (if Z.even N then 4 + 3 * N else 8 + 3 * (N - 1))
  /\ exists ops,
       _read_flash_proxy_command fuel byte_address (4 * N) = Ok ops
       /\ wire_bytes ops = _memory_read_bytes_expected_from_pe (4 * N)
       /\ wire_bytes ops
          = 2 * (if Z.even N then 2 + 3 * N / 2 else 4 + 3 * (N - 1) / 2).
Proof.
  intros HN Hf. split; [apply expected_bytes_even_odd|].
  pose proof (num16bitwords_nonneg N ltac:(lia)) as Hw.
  assert (num16bitwords_of N <= 2 * N) as Hle
    by (unfold num16bitwords_of; floor_arith).
  unfold _read_flash_proxy_command.
  replace (4 * N / 4) with N by floor_arith.
  destruct (Z.gtb_spec N 32768) as [|_]; [lia|].
  rewrite receive_words_counts by lia.
  eexists. split; [reflexivity|].
  assert (wire_bytes
            ([send_word (_pe_command PE_COMMAND_READP 4); send_word N;
              send_word (Z.land (Z.shiftr (byte_address / 2) 16) 255);
              send_word (Z.land (byte_address / 2) 65535);
              delay_us 12; handshake; receive_word; receive_word]
             ++ replicate (Z.to_nat (num16bitwords_of N)) receive_word)
          = 2 * (2 + num16bitwords_of N)) as Hb.
  { rewrite wire_bytes_app, wire_bytes_receive.
    change (wire_bytes _) with 4. lia. }
  split.
  - rewrite Hb. symmetry. apply expected_bytes_are_the_words_read. lia.
  - rewrite Hb. f_equal. unfold num16bitwords_of. rewrite Zeven_mod.
    destruct (N mod 2 =? 0); lia.
Qed.

Lemma pe_read_byte_accounting_witness :
  1 <= 5 <= 32768
  /\ _memory_read_bytes_expected_from_pe (4 * 5) = 20
  /\ exists ops,
       _read_flash_proxy_command 20 0x400 (4 * 5) = Ok ops
       /\ wire_bytes ops = 20.
Proof.
  split; [lia|].
  destruct (pe_read_byte_accounting 5 0x400 20 ltac:(lia) ltac:(lia))
    as [He (ops & Hrun & Hb & _)].
  split; [exact He|]. exists ops. split; [exact Hrun|].
  rewrite Hb. exact He.
Defined.

(** The sample counts of the spec, on the code. *)
Example expected_bytes_samples :
  map (fun N => _memory_read_bytes_expected_from_pe (4 * N))
    [1; 2; 3; 4; 5; 32768]
  = [8; 10; 14; 16; 20; 98308].
Proof. reflexivity. Qed.

(** C2 as the spec words it fails: its formulas count 16-bit data words,
    not bytes on the wire. *)
Lemma spec_wire_bytes_mismatch :
  _memory_read_bytes_expected_from_pe (4 * 2) = 10
  /\ spec_wire_bytes 2 = 7
  /\ _memory_read_bytes_expected_from_pe (4 * 2) <> spec_wire_bytes 2.
Proof. split; [reflexivity|]. split; [reflexivity|discriminate]. Qed.

(** *** Response validation *)

(** The checks of [_check_pe_response] on a frame with a full header. *)
Lemma check_pe_response_header (cmd databytes e r1 lo hi : Z)
    (payload : list Z) :
  _check_pe_response cmd databytes (e :: r1 :: lo :: hi :: payload)
  = if status_of r1 =? PE_STATUS_FAIL
    then Raise (PrimitiveException (StatusFail e))
    else if status_of r1 =? PE_STATUS_NACK
    then Raise (PrimitiveException (StatusNack e))
    else if negb (cmd_echo_of r1 =? cmd)
    then Raise (PrimitiveException (UnexpectedEcho (cmd_echo_of r1) cmd))
    else if negb ((lo + Z.shiftl hi 8) * 2 =? databytes * 3 / 4 + 4)
    then Raise (PrimitiveException
                  (UnexpectedLength ((lo + Z.shiftl hi 8) * 2)
                     (databytes * 3 / 4 + 4)))
    else
      '(_, decompacted_data) ← Codec.pic24_decompact payload;
      if negb (len decompacted_data =? databytes)
      then Raise (PrimitiveException
                    (UnexpectedPayload databytes (len decompacted_data)))
      else Ok decompacted_data.
Proof.
  unfold _check_pe_response. cbn [getitem lookup list_lookup].
  rewrite !bind_ok.
  unfold PE_STATUS_PASS, PE_STATUS_FAIL, PE_STATUS_NACK.
  destruct (Z.eqb_spec (status_of r1) 1) as [E|E].
  - rewrite E. reflexivity.
  - destruct (status_of r1 =? 2); [done|].
    destruct (status_of r1 =? 3); [done|]. reflexivity.
Qed.

(** A frame shorter than its header is never accepted. *)
Lemma check_pe_response_short (cmd databytes : Z) (response data : list Z) :
  _check_pe_response cmd databytes response = Ok data ->
  exists e r1 lo hi payload, response = e :: r1 :: lo :: hi :: payload.
Proof.
  intros H.
  destruct response as [|e [|r1 [|lo [|hi payload]]]]; [done|done| | |by eauto 6].
  - exfalso. revert H. unfold _check_pe_response.
    cbn [getitem lookup list_lookup]. rewrite !bind_ok.
    destruct (status_of r1 =? PE_STATUS_PASS);
      [|destruct (status_of r1 =? PE_STATUS_FAIL); [done|];
        destruct (status_of r1 =? PE_STATUS_NACK); [done|]];
      rewrite bind_ok; by destruct (negb (cmd_echo_of r1 =? cmd)).
  - exfalso. revert H. unfold _check_pe_response.
    cbn [getitem lookup list_lookup]. rewrite !bind_ok.
    destruct (status_of r1 =? PE_STATUS_PASS);
      [|destruct (status_of r1 =? PE_STATUS_FAIL); [done|];
        destruct (status_of r1 =? PE_STATUS_NACK); [done|]];
      rewrite bind_ok; by destruct (negb (cmd_echo_of r1 =? cmd)).
Qed.

(** Flipping one of the four low bits of the second byte changes the
    command echo. *)
Lemma flipped_bit_changes_echo (r1 k : Z) :
  0 <= k < 4 -> cmd_echo_of (Z.lxor r1 (2 ^ k)) <> cmd_echo_of r1.
Proof.
  intros Hk E. unfold cmd_echo_of in E.
  apply (f_equal (fun z => Z.testbit z k)) in E.
  rewrite !Z.land_spec, Z.lxor_spec, Z.pow2_bits_true in E by lia.
  assert (Z.testbit 15 k = true) as Hbit
    by (assert (k = 0 \/ k = 1 \/ k = 2 \/ k = 3) as [->|[->|[->| ->]]] by lia;
        reflexivity).
  rewrite Hbit in E. by destruct (Z.testbit r1 k).
Qed.

(** C3, as the code has it. A frame is accepted, and decompacted payload
    returned, only if the status nibble of byte 2 is neither FAIL nor NACK,
    the echo nibble of byte 2 equals the command sent, the length field of
    bytes 3-4 times two equals [4 + (3*databytes)/4], and the decompacted
    payload has [databytes] bytes. A FAIL or NACK status, an echo mismatch
    (such as one flipped low bit of byte 2) or a length mismatch raises a
    [PrimitiveException]. *)
Theorem check_pe_response_validation (cmd databytes : Z) :
  (forall response data,
     _check_pe_response cmd databytes response = Ok data ->
     exists e r1 lo hi payload,
       response = e :: r1 :: lo :: hi :: payload
       /\ status_of r1 <> PE_STATUS_FAIL
       /\ status_of r1 <> PE_STATUS_NACK
       /\ cmd_echo_of r1 = cmd
       /\ (lo + Z.shiftl hi 8) * 2 = 4 + (3 * databytes) / 4
       /\ Codec.pic24_decompact payload
          = Ok (Codec.zero_pad 6 payload, data)
       /\ len data = databytes)
  /\ (forall e r1 lo hi payload,
       status_of r1 = PE_STATUS_FAIL \/ status_of r1 = PE_STATUS_NACK
       \/ cmd_echo_of r1 <> cmd
       \/ (lo + Z.shiftl hi 8) * 2 <> 4 + (3 * databytes) / 4 ->
       exists why,
         _check_pe_response cmd databytes (e :: r1 :: lo :: hi :: payload)
         = Raise (PrimitiveException why))
  /\ (forall e r1 lo hi payload k,
       cmd_echo_of r1 = cmd -> 0 <= k < 4 ->
       exists why,
         _check_pe_response cmd databytes
           (e :: Z.lxor r1 (2 ^ k) :: lo :: hi :: payload)
         = Raise (PrimitiveException why)).
Proof.
  assert (forall e r1 lo hi payload,
       status_of r1 = PE_STATUS_FAIL \/ status_of r1 = PE_STATUS_NACK
       \/ cmd_echo_of r1 <> cmd
       \/ (lo + Z.shiftl hi 8) * 2 <> 4 + (3 * databytes) / 4 ->
       exists why,
         _check_pe_response cmd databytes (e :: r1 :: lo :: hi :: payload)
         = Raise (PrimitiveException why)) as Hreject.
  { intros e r1 lo hi payload Hbad. rewrite check_pe_response_header.
    destruct (Z.eqb_spec (status_of r1) PE_STATUS_FAIL); [by eauto|].
    destruct (Z.eqb_spec (status_of r1) PE_STATUS_NACK); [by eauto|].
    destruct (Z.eqb_spec (cmd_echo_of r1) cmd); [|by eauto].
    replace (databytes * 3) with (3 * databytes) by lia.
    destruct (Z.eqb_spec ((lo + Z.shiftl hi 8) * 2) (3 * databytes / 4 + 4));
      [|by eauto].
    exfalso. destruct Hbad as [?|[?|[?|?]]]; try done. lia. }
  split; [|split; [exact Hreject|]].
  - intros response data H.
    destruct (check_pe_response_short _ _ _ _ H)
      as (e & r1 & lo & hi & payload & ->).
    exists e, r1, lo, hi, payload. split; [done|].
    rewrite check_pe_response_header in H.
    destruct (Z.eqb_spec (status_of r1) PE_STATUS_FAIL); [done|].
    destruct (Z.eqb_spec (status_of r1) PE_STATUS_NACK); [done|].
    destruct (Z.eqb_spec (cmd_echo_of r1) cmd); [|done].
    replace (databytes * 3) with (3 * databytes) in H by lia.
    destruct (Z.eqb_spec ((lo + Z.shiftl hi 8) * 2) (3 * databytes / 4 + 4));
      [|done].
    rewrite CodecFacts.pic24_decompact_any in H |- *.
    cbn in H.
    destruct (Z.eqb_spec (len (Codec.decompact_frames (Codec.zero_pad 6 payload)))
                databytes); [|done].
    injection H as <-. repeat split; try done. lia.
  - intros e r1 lo hi payload k He Hk. apply Hreject.
    right. right. left. rewrite <- He. by apply flipped_bit_changes_echo.
Qed.

Lemma check_pe_response_validation_witness :
  cmd_echo_of 0x12 = PE_COMMAND_READP
  /\ 0 <= 1 < 4
  /\ exists why,
       _check_pe_response PE_COMMAND_READP 8
         [0; Z.lxor 0x12 (2 ^ 1); 5; 0; 1; 2; 3; 4; 5; 6]
       = Raise (PrimitiveException why).
Proof.
  split; [reflexivity|]. split; [lia|].
  apply (check_pe_response_validation PE_COMMAND_READP 8);
    [reflexivity|lia].
Defined.

(** A frame with status PASS that is accepted, for reference. *)
Example check_pe_response_pass :
  _check_pe_response PE_COMMAND_READP 8 [0; 0x12; 5; 0; 1; 2; 3; 4; 5; 6]
  = Ok [1; 2; 3; 0; 5; 6; 4; 0].
Proof. reflexivity. Qed.

(** C3 as the spec words it fails: a status nibble that is none of PASS,
    FAIL and NACK is let through, and the payload is returned. *)
Lemma check_pe_response_unknown_status :
  status_of 0x02 <> PE_STATUS_PASS
  /\ _check_pe_response PE_COMMAND_READP 8 [0; 0x02; 5; 0; 1; 2; 3; 4; 5; 6]
     = Ok [1; 2; 3; 0; 5; 6; 4; 0].
Proof. split; [discriminate|reflexivity]. Qed.

End ProgExecFacts.

(** ** The transport batcher *)

Module TransportFacts.
Import Transport.

Section Batcher.

Variable generate_bytestream : list Z -> list Z.
Variable execute : list (list (list Z)) -> outcome (list (list Z)).

Local Abbreviation wire := (fmap generate_bytestream).
Local Abbreviation _flush := (_flush generate_bytestream execute).
Local Abbreviation send_block := (send_block generate_bytestream execute).
Local Abbreviation send_blocks := (send_blocks generate_bytestream execute).
Local Abbreviation sync := (sync generate_bytestream execute).
Local Abbreviation send_then_sync := (send_then_sync generate_bytestream execute).
Local Abbreviation flushed := (flushed generate_bytestream).

Lemma flush_ok (self : TransportProxy) results result :
  execute (executed self ++ [wire (content self)]) = Ok results ->
  last results = Some result ->
  _flush self = (Ok result, flushed self).
Proof. intros He Hl. unfold Transport._flush. by rewrite He, Hl. Qed.

Lemma flush_empty_results (self : TransportProxy) :
  execute (executed self ++ [wire (content self)]) = Ok [] ->
  _flush self = (Raise IndexError, flushed self).
Proof. intros He. unfold Transport._flush. by rewrite He. Qed.

Lemma send_block_fits (self : TransportProxy) (b : list Z) :
  must_flush b self = false ->
  send_block b self = (Ok tt, appended b self).
Proof. intros Hm. unfold Transport.send_block. by rewrite Hm. Qed.

Lemma send_block_full (self : TransportProxy) (b : list Z) results result :
  must_flush b self = true ->
  execute (executed self ++ [wire (content self)]) = Ok results ->
  last results = Some result ->
  send_block b self = (Ok tt, appended b (flushed self)).
Proof.
  intros Hm He Hl. unfold Transport.send_block. rewrite Hm.
  unfold mbind, M_bind. by rewrite (flush_ok self results result).
Qed.

Lemma total_size_nonneg (blocks : list (list Z)) : 0 <= total_size blocks.
Proof.
  induction blocks as [|b blocks IH]; simpl; [lia|].
  pose proof (len_nonneg b). lia.
Qed.

Lemma total_size_app (a b : list (list Z)) :
  total_size (a ++ b) = total_size a + total_size b.
Proof. induction a as [|x a IH]; simpl; lia. Qed.

(** Blocks that fit are accumulated without a call on the transport. *)
Lemma send_blocks_fit (blocks : list (list Z)) : forall self,
  length self + total_size blocks <= blocksize self ->
  send_blocks blocks self
  = (Ok tt,
     {| blocksize := blocksize self; content := content self ++ blocks;
        length := length self + total_size blocks;
        executed := executed self |}).
Proof.
  induction blocks as [|b blocks IH]; intros self Hfit.
  - simpl. rewrite app_nil_r, Z.add_0_r. by destruct self.
  - pose proof (total_size_nonneg blocks). pose proof (len_nonneg b).
    simpl in Hfit. cbn [Transport.send_blocks]. unfold mbind, M_bind.
    rewrite send_block_fits by (unfold must_flush; lia).
    rewrite IH by (simpl; lia). simpl.
    rewrite <- app_assoc. do 2 f_equal. lia.
Qed.

Lemma last_nonempty {A} (l : list A) : l <> [] -> exists x, last l = Some x.
Proof.
  intros Hl. destruct (last l) eqn:E; [by eauto|].
  apply last_None in E. done.
Qed.

(** C4, as the code has it. [send_block(b)] calls the transport exactly
    when [length + len(b) > blocksize], and when that flush returns a last
    result the block is then appended to the emptied accumulator;
    [sync()] calls the transport with whatever is accumulated and returns
    the last result only. With a transport that answers one response per
    block, blocks of which a non-empty run [fits] stays within capacity,
    the next block [b] overflows it, and [b] with the remaining blocks
    stays within capacity again, make exactly two [execute] calls: [fits],
    then [b] and the rest; the value returned is the last response of the
    second call. *)
Theorem transport_batching :
  (forall self b,
     must_flush b self = false ->
     send_block b self = (Ok tt, appended b self))
  /\ (forall self b results result,
       must_flush b self = true ->
       execute (executed self ++ [wire (content self)]) = Ok results ->
       last results = Some result ->
       send_block b self = (Ok tt, appended b (flushed self)))
  /\ (forall self results result,
       execute (executed self ++ [wire (content self)]) = Ok results ->
       last results = Some result ->
       sync self = (Ok result, flushed self))
  /\ (forall C fits b rest,
       one_response_per_block execute ->
       fits <> [] ->
       total_size fits <= C ->
       total_size fits + len b > C ->
       len b + total_size rest <= C ->
       exists results result,
         execute [wire fits; wire (b :: rest)] = Ok results
         /\ last results = Some result
         /\ send_then_sync (fits ++ b :: rest) (new C)
            = (Ok result,
               {| blocksize := C; content := []; length := 0;
                  executed := [wire fits; wire (b :: rest)] |})).
Proof.
  split; [exact send_block_fits|]. split; [exact send_block_full|].
  split; [exact flush_ok|].
  intros C fits b rest Hone Hne Hfits Hover Hrest.
  destruct (Hone [wire fits] (wire fits) eq_refl) as (r1 & He1 & Hl1).
  destruct (last_nonempty r1) as [x1 Hx1].
  { intros ->. rewrite length_fmap in Hl1. by destruct fits. }
  destruct (Hone [wire fits; wire (b :: rest)] (wire (b :: rest)) eq_refl)
    as (r2 & He2 & Hl2).
  destruct (last_nonempty r2) as [x2 Hx2]; [by intros ->|].
  exists r2, x2. split; [done|]. split; [done|].
  unfold Transport.send_then_sync.
  assert (send_blocks (fits ++ b :: rest) (new C)
          = (Ok tt,
             {| blocksize := C; content := b :: rest;
                length := len b + total_size rest; executed := [wire fits] |}))
    as Hsend.
  { assert (forall (xs ys : list (list Z)) s s',
              send_blocks xs s = (Ok tt, s') ->
              send_blocks (xs ++ ys) s = send_blocks ys s') as Happ.
    { induction xs as [|x xs IH]; intros ys s s' Hs.
      - simpl in Hs. by injection Hs as <-.
      - cbn [app Transport.send_blocks] in Hs |- *.
        unfold mbind, M_bind in Hs |- *.
        destruct (send_block x s) as [[[]|e|] s1]; try done.
        by apply IH. }
    rewrite (Happ fits (b :: rest) (new C)
               {| blocksize := C; content := fits;
                  length := total_size fits; executed := [] |}).
    - cbn [Transport.send_blocks]. unfold mbind, M_bind.
      rewrite (send_block_full _ b r1 x1);
        [|unfold must_flush; simpl; lia|done|done].
      rewrite send_blocks_fit by (simpl; lia).
      simpl. do 2 f_equal.
    - rewrite send_blocks_fit by (simpl; lia). done. }
  unfold mbind, M_bind. rewrite Hsend.
  by rewrite (flush_ok _ r2 x2).
Qed.

End Batcher.

Lemma echo_one_response_per_block : one_response_per_block echo.
Proof.
  intros calls commands Hl. exists commands. unfold echo. by rewrite Hl.
Qed.

Lemma transport_batching_witness :
  total_size [[1; 2]; [3]] <= 4
  /\ total_size [[1; 2]; [3]] + len [4; 5] > 4
  /\ len [4; 5] + total_size [[6]] <= 4
  /\ exists results result,
       echo [[[1; 2]; [3]]; [[4; 5]; [6]]] = Ok results
       /\ last results = Some result
       /\ send_then_sync id echo [[1; 2]; [3]; [4; 5]; [6]] (new 4)
          = (Ok result,
             {| blocksize := 4; content := []; length := 0;
                executed := [[[1; 2]; [3]]; [[4; 5]; [6]]] |}).
Proof.
  split; [vm_compute; discriminate|].
  split; [vm_compute; reflexivity|].
  split; [vm_compute; discriminate|].
  destruct (transport_batching id echo) as (_ & _ & _ & Htwo).
  apply (Htwo 4 [[1; 2]; [3]] [4; 5] [[6]]).
  - exact echo_one_response_per_block.
  - discriminate.
  - vm_compute; discriminate.
  - vm_compute; reflexivity.
  - vm_compute; discriminate.
Defined.

(** C4 as the spec words it fails when a flush finds the accumulator empty:
    a first block larger than the capacity makes [send_block] call the
    transport with no block at all, [results[-1]] raises, and the block is
    not appended; one [execute] call is made, not two. *)
Lemma oversize_first_block_not_appended :
  must_flush [1; 2; 3; 4; 5] (new 4) = true
  /\ send_block id echo [1; 2; 3; 4; 5] (new 4)
     = (Raise IndexError,
        {| blocksize := 4; content := []; length := 0; executed := [[]] |})
  /\ send_then_sync id echo [[1; 2; 3; 4; 5]] (new 4)
     = (Raise IndexError,
        {| blocksize := 4; content := []; length := 0; executed := [[]] |}).
Proof. repeat split. Qed.

End TransportFacts.

(** ** The scripted debugger *)

Module DebuggerFacts.
Import Debugger.

(** The step through one bind of a method. *)
Ltac unfold_m :=
  unfold mbind, M_bind, mret, M_ret, lift, raise, get,
    set_in_tmod, set_in_tmod_pe, set_is_running, set_current_pe_version,
    set_use_pe, invoke in *.

Section Modes.

Variable tool : list call -> outcome (list Z).

Local Abbreviation exit_tmod := (exit_tmod tool).
Local Abbreviation enter_tmod := (enter_tmod tool).
Local Abbreviation enter_tmod_pe := (enter_tmod_pe tool).
Local Abbreviation check_pe_connection_by_proxy :=
  (check_pe_connection_by_proxy tool).

(** What [exit_tmod] does, case by case. *)
Lemma exit_tmod_cases (s : Gen4WrapperDebugger) :
  let made := calls s ++ [device_invoke DeviceModel.exit_tmod] in
  exit_tmod s
  = if negb (_in_tmod s) && negb (_in_tmod_pe s) then (Ok tt, s)
    else
      match tool made with
      | Ok _ =>
          (Ok tt,
           {| _in_tmod := false; _in_tmod_pe := false;
              _is_running := _is_running s;
              _current_pe_version := _current_pe_version s;
              use_pe := use_pe s; calls := made |})
      | Raise e =>
          (Raise e,
           {| _in_tmod := _in_tmod s; _in_tmod_pe := _in_tmod_pe s;
              _is_running := _is_running s;
              _current_pe_version := _current_pe_version s;
              use_pe := use_pe s; calls := made |})
      | Diverge =>
          (Diverge,
           {| _in_tmod := _in_tmod s; _in_tmod_pe := _in_tmod_pe s;
              _is_running := _is_running s;
              _current_pe_version := _current_pe_version s;
              use_pe := use_pe s; calls := made |})
      end.
Proof.
  unfold Debugger.exit_tmod. destruct (negb _ && negb _); [done|].
  unfold_m. simpl. by destruct (tool _).
Qed.

(** Case analysis on every outcome and branch met on the way. *)
Ltac tidy :=
  cbn beta iota delta
    [fst snd negb andb orb calls use_pe _in_tmod _in_tmod_pe _is_running
     _current_pe_version].

Ltac crunch :=
  repeat (tidy;
          match goal with
          | |- context [match ?x with Ok _ => _ | Raise _ => _ | Diverge => _ end] =>
              destruct x eqn:?
          | |- context [if ?b then _ else _] => destruct b eqn:?
          end);
  tidy.

Lemma page_writes_app (a b : list call) :
  page_writes (a ++ b) = page_writes a ++ page_writes b.
Proof. apply omap_app. Qed.

Lemma page_writes_cons (c : call) (l : list call) :
  page_writes (c :: l)
  = match page_write_of c with Some w => [w] | None => [] end
    ++ page_writes l.
Proof. unfold page_writes. simpl. by destruct (page_write_of c). Qed.

Lemma quiet_trans s1 s2 s3 e1 e2 :
  quiet s1 s2 e1 -> quiet s2 s3 e2 -> quiet s1 s3 (e1 ++ e2).
Proof.
  intros (H1 & P1 & U1 & R1) (H2 & P2 & U2 & R2). repeat split.
  - by rewrite H2, H1, app_assoc.
  - by rewrite page_writes_app, P1, P2.
  - congruence.
  - congruence.
Qed.

Lemma exit_tmod_summary (s : Gen4WrapperDebugger) :
  exists evs,
    quiet s (exit_tmod s).2 evs
    /\ ((exit_tmod s).1 = Ok tt
        /\ _in_tmod (exit_tmod s).2 = false
        /\ _in_tmod_pe (exit_tmod s).2 = false
        /\ evs = exit_calls s
        \/ (exit_tmod s).1 <> Ok tt
           /\ _in_tmod (exit_tmod s).2 = _in_tmod s
           /\ _in_tmod_pe (exit_tmod s).2 = _in_tmod_pe s
           /\ evs = [device_invoke DeviceModel.exit_tmod]).
Proof.
  rewrite exit_tmod_cases. unfold quiet, exit_calls.
  destruct (_in_tmod s) eqn:Ht, (_in_tmod_pe s) eqn:Hp; simpl;
    try (destruct (tool _); simpl;
         (eexists; split; [repeat split; reflexivity|]);
         first [left; by repeat split | right; by repeat split]).
  exists []. rewrite app_nil_r. split; [done|]. left. by repeat split.
Qed.

Lemma exit_tmod_exclusive (s : Gen4WrapperDebugger) :
  exclusive s -> exclusive (exit_tmod s).2.
Proof.
  intros Hs. rewrite exit_tmod_cases. simpl.
  destruct (negb _ && negb _); [done|]. by destruct (tool _).
Qed.

(** [enter_tmod] from a state that is not in TMOD. *)
Lemma enter_tmod_summary (s : Gen4WrapperDebugger) :
  _in_tmod s = false ->
  exists evs,
    quiet s (enter_tmod s).2 evs
    /\ exclusive (enter_tmod s).2
    /\ ((enter_tmod s).1 = Ok tt ->
        _in_tmod (enter_tmod s).2 = true
        /\ _in_tmod_pe (enter_tmod s).2 = false
        /\ evs = exit_calls s
                 ++ [device_invoke DeviceModel.set_speed;
                     device_invoke DeviceModel.enter_tmod;
                     device_invoke_read 4 DeviceModel.read_id])
    /\ (_in_tmod_pe s = true ->
        exists tail, evs = device_invoke DeviceModel.exit_tmod :: tail).
Proof.
  intros Ht. unfold Debugger.enter_tmod. rewrite Ht.
  unfold quiet, exclusive, exit_calls. rewrite Ht.
  destruct (_in_tmod_pe s) eqn:Hp.
  - unfold_m. fold exit_tmod. rewrite exit_tmod_cases, Ht, Hp.
    crunch; rewrite <- ?app_assoc; cbn [app];
      (eexists; split; [repeat split; reflexivity|]);
      (split; [by rewrite ?Ht, ?Hp|]);
      (split; [try done; by intros _|by eauto]).
  - unfold_m.
    crunch; rewrite <- ?app_assoc; cbn [app];
      (eexists; split; [repeat split; reflexivity|]);
      (split; [by rewrite ?Ht, ?Hp|]);
      (split; [try done; by intros _|done]).
Qed.

Lemma enter_tmod_exclusive (s : Gen4WrapperDebugger) :
  exclusive s -> exclusive (enter_tmod s).2.
Proof.
  intros Hs. destruct (_in_tmod s) eqn:Ht.
  - unfold Debugger.enter_tmod. by rewrite Ht.
  - by destruct (enter_tmod_summary s Ht) as (_ & _ & ? & _).
Qed.

(** [enter_tmod_pe] from a state that is not in TMOD-PE. *)
Lemma enter_tmod_pe_summary (s : Gen4WrapperDebugger) :
  _in_tmod_pe s = false ->
  exists evs,
    quiet s (enter_tmod_pe s).2 evs
    /\ exclusive (enter_tmod_pe s).2
    /\ (returns (enter_tmod_pe s).1 ->
        _in_tmod (enter_tmod_pe s).2 = false
        /\ _in_tmod_pe (enter_tmod_pe s).2 = true
        /\ evs = exit_calls s
                 ++ [device_invoke DeviceModel.set_speed_pe;
                     device_invoke DeviceModel.enter_tmod_pe;
                     pe_invoke_read 4
                       ProgExecModel._sanity_check_proxy_command;
                     pe_invoke_read 4
                       ProgExecModel._get_pe_version_proxy_command])
    /\ (_in_tmod s = true ->
        exists tail, evs = device_invoke DeviceModel.exit_tmod :: tail).
Proof.
  intros Hp. unfold Debugger.enter_tmod_pe. rewrite Hp.
  unfold quiet, exclusive, exit_calls, returns. rewrite Hp, orb_false_r.
  unfold Debugger.check_pe_connection_by_proxy.
  destruct (_in_tmod s) eqn:Ht.
  - unfold_m. fold exit_tmod. rewrite exit_tmod_cases, Ht, Hp.
    crunch; rewrite <- ?app_assoc; cbn [app];
      (eexists; split; [repeat split; reflexivity|]);
      (split; [by rewrite ?Ht, ?Hp|]);
      (split; [try done; by intros [? [=]]|by eauto]).
  - unfold_m.
    crunch; rewrite <- ?app_assoc; cbn [app];
      (eexists; split; [repeat split; reflexivity|]);
      (split; [by rewrite ?Ht, ?Hp|]);
      (split; [try done; by intros [? [=]]|done]).
Qed.

Lemma enter_tmod_pe_exclusive (s : Gen4WrapperDebugger) :
  exclusive s -> exclusive (enter_tmod_pe s).2.
Proof.
  intros Hs. destruct (_in_tmod_pe s) eqn:Hp.
  - unfold Debugger.enter_tmod_pe. by rewrite Hp.
  - by destruct (enter_tmod_pe_summary s Hp) as (_ & _ & ? & _).
Qed.

Lemma do_mode_call_exclusive (c : mode_call) (s : Gen4WrapperDebugger) :
  exclusive s -> exclusive (do_mode_call tool c s).2.
Proof.
  intros Hs. destruct c; simpl.
  - by apply enter_tmod_exclusive.
  - unfold_m. pose proof (enter_tmod_pe_exclusive s Hs) as H.
    fold enter_tmod_pe. by destruct (enter_tmod_pe s) as [[?|?|] ?].
  - by apply exit_tmod_exclusive.
Qed.

Lemma after_mode_calls_exclusive (cs : list mode_call) : forall s,
  exclusive s -> exclusive (after_mode_calls tool cs s).
Proof.
  induction cs as [|c cs IH]; intros s Hs; [done|].
  simpl. by apply IH, do_mode_call_exclusive.
Qed.

(** C5: after any sequence of [enter_tmod], [enter_tmod_pe] and
    [exit_tmod] calls from the idle state, whatever the tool answers,
    [_in_tmod] and [_in_tmod_pe] are not both true. A call of
    [enter_tmod_pe] while [_in_tmod] is true makes the [exit_tmod] script
    its first call, before any step of the PE entry, and if it returns
    the debugger is in TMOD-PE only; symmetrically for [enter_tmod] while
    [_in_tmod_pe] is true. *)
Theorem mode_exclusivity :
  (forall cs, exclusive (after_mode_calls tool cs init))
  /\ (forall s,
       _in_tmod s = true -> _in_tmod_pe s = false ->
       exists tail,
         calls (enter_tmod_pe s).2
         = calls s ++ device_invoke DeviceModel.exit_tmod :: tail
         /\ (returns (enter_tmod_pe s).1 ->
             tail = [device_invoke DeviceModel.set_speed_pe;
                     device_invoke DeviceModel.enter_tmod_pe;
                     pe_invoke_read 4
                       ProgExecModel._sanity_check_proxy_command;
                     pe_invoke_read 4
                       ProgExecModel._get_pe_version_proxy_command]
             /\ _in_tmod (enter_tmod_pe s).2 = false
             /\ _in_tmod_pe (enter_tmod_pe s).2 = true))
  /\ (forall s,
       _in_tmod_pe s = true -> _in_tmod s = false ->
       exists tail,
         calls (enter_tmod s).2
         = calls s ++ device_invoke DeviceModel.exit_tmod :: tail
         /\ ((enter_tmod s).1 = Ok tt ->
             tail = [device_invoke DeviceModel.set_speed;
                     device_invoke DeviceModel.enter_tmod;
                     device_invoke_read 4 DeviceModel.read_id]
             /\ _in_tmod (enter_tmod s).2 = true
             /\ _in_tmod_pe (enter_tmod s).2 = false)).
Proof.
  split; [|split].
  - intros cs. by apply after_mode_calls_exclusive.
  - intros s Ht Hp.
    destruct (enter_tmod_pe_summary s Hp)
      as (evs & (Hc & _) & _ & Hok & Hfirst).
    destruct (Hfirst Ht) as [tail ->]. exists tail. split; [done|].
    intros Hr. destruct (Hok Hr) as (? & ? & Hevs).
    unfold exit_calls in Hevs. rewrite Ht in Hevs. simpl in Hevs.
    by injection Hevs as ->.
  - intros s Hp Ht.
    destruct (enter_tmod_summary s Ht)
      as (evs & (Hc & _) & _ & Hok & Hfirst).
    destruct (Hfirst Hp) as [tail ->]. exists tail. split; [done|].
    intros Hr. destruct (Hok Hr) as (? & ? & Hevs).
    unfold exit_calls in Hevs. rewrite Ht, Hp in Hevs. simpl in Hevs.
    by injection Hevs as ->.
Qed.

End Modes.

(** *** Runs with a cooperative tool *)

Section Cooperation.

Variable tool : list call -> outcome (list Z).
Variable device_object : PicDevice.
Hypothesis Hcoop : cooperative tool.

Local Abbreviation exit_tmod := (exit_tmod tool).
Local Abbreviation enter_tmod := (enter_tmod tool).
Local Abbreviation enter_tmod_pe := (enter_tmod_pe tool).
Local Abbreviation invoke := (invoke tool).
Local Abbreviation total m := (forall s, returns (m s).1).

Lemma total_bind {S A B} (Q : A -> Prop) (m : M S A) (f : A -> M S B) :
  (forall s, exists a, (m s).1 = Ok a /\ Q a) ->
  (forall a, Q a -> total (f a)) ->
  total (m ≫= f).
Proof.
  intros Hm Hf s. unfold mbind, M_bind. destruct (Hm s) as (a & Ha & HQ).
  destruct (m s) as [r s1]. cbn [fst] in Ha. subst r. by apply Hf.
Qed.

Lemma total_seq {S A B} (m : M S A) (f : A -> M S B) :
  total m -> (forall a, total (f a)) -> total (m ≫= f).
Proof.
  intros Hm Hf. apply (total_bind (fun _ => True)); [|by intros a _].
  intros s. destruct (Hm s) as [a Ha]. by exists a.
Qed.

Lemma total_lift {A} (Q : A -> Prop) (o : outcome A) :
  (exists a, o = Ok a /\ Q a) ->
  forall s : Gen4WrapperDebugger, exists a, (lift o s).1 = Ok a /\ Q a.
Proof. by intros H s. Qed.

Lemma invoke_answer (c : call) (s : Gen4WrapperDebugger) :
  (invoke c s).1 = tool (calls s ++ [c]).
Proof. reflexivity. Qed.

Lemma answer (c : call) (s : Gen4WrapperDebugger) :
  match c with
  | device_invoke_read _ DeviceModel.read_id =>
      exists result unpacked,
        (invoke c s).1 = Ok result
        /\ unpack_le32 result = Ok unpacked
        /\ Z.land (Z.shiftr unpacked 16) 0xFFFF <> 0x0000
        /\ Z.land (Z.shiftr unpacked 16) 0xFFFF <> 0x3FFF
  | pe_invoke_read _ ProgExecModel._sanity_check_proxy_command =>
      exists response,
        (invoke c s).1 = Ok response
        /\ returns (ProgExec._check_pe_response ProgExec.PE_COMMAND_SCHECK 0
                      response)
  | pe_invoke_read _ ProgExecModel._get_pe_version_proxy_command =>
      exists response,
        (invoke c s).1 = Ok response
        /\ returns (ProgExec._check_pe_response ProgExec.PE_COMMAND_QVER 0
                      response)
        /\ returns (getitem response 0)
  | pe_invoke_write_read _ _
      ProgExecModel._write_flash_page_proxy_command _ _ =>
      exists response,
        (invoke c s).1 = Ok response
        /\ returns (ProgExec._check_pe_response ProgExec.PE_COMMAND_PROGP 0
                      response)
  | _ => returns (invoke c s).1
  end.
Proof.
  rewrite invoke_answer.
  pose proof (Hcoop (calls s ++ [c])) as H. rewrite last_snoc in H.
  exact H.
Qed.

Lemma total_invoke (c : call) : total (invoke c).
Proof.
  intros s. pose proof (answer c s) as H.
  destruct c as [m|n m|d m a n|n m|d n m a k|m|d m n|a d n];
    try destruct m; try done.
  - destruct H as (r & u & -> & _). by exists r.
  - destruct H as (r & -> & _). by exists r.
  - destruct H as (r & -> & _). by exists r.
  - destruct H as (r & -> & _). by exists r.
Qed.

Lemma total_exit_tmod : total exit_tmod.
Proof.
  intros s. unfold Debugger.exit_tmod.
  destruct (negb _ && negb _); [by exists tt|].
  revert s. apply total_seq; [apply total_invoke|]. intros _.
  apply total_seq; intros; by exists tt.
Qed.

Lemma total_enter_tmod : total enter_tmod.
Proof.
  intros s. unfold Debugger.enter_tmod.
  destruct (_in_tmod s); [by exists tt|].
  assert (total (if _in_tmod_pe s then exit_tmod else mret tt)) as Hfirst
    by (destruct (_in_tmod_pe s); [apply total_exit_tmod|by exists tt]).
  revert s Hfirst. intros s0 Hfirst.
  apply total_seq; [exact Hfirst|]. intros _.
  apply total_seq; [apply total_invoke|]. intros _.
  apply total_seq; [apply total_invoke|]. intros _.
  apply (total_bind
           (fun result =>
              exists unpacked,
                unpack_le32 result = Ok unpacked
                /\ Z.land (Z.shiftr unpacked 16) 0xFFFF <> 0x0000
                /\ Z.land (Z.shiftr unpacked 16) 0xFFFF <> 0x3FFF)).
  { intros s. destruct (answer (device_invoke_read 4 DeviceModel.read_id) s)
      as (result & unpacked & E & H). exists result. split; [done|].
    by exists unpacked. }
  intros result (unpacked & Hu & H0 & H3).
  apply (total_bind
           (fun unpacked =>
              Z.land (Z.shiftr unpacked 16) 0xFFFF <> 0x0000
              /\ Z.land (Z.shiftr unpacked 16) 0xFFFF <> 0x3FFF)).
  { apply total_lift. by exists unpacked. }
  intros u [Hu0 Hu3] s. cbv zeta.
  destruct (Z.eqb_spec (Z.land (Z.shiftr u 16) 65535) 0); [done|].
  destruct (Z.eqb_spec (Z.land (Z.shiftr u 16) 65535) 16383); [done|].
  by exists tt.
Qed.

Lemma total_check_pe_connection_by_proxy :
  total (check_pe_connection_by_proxy tool).
Proof.
  unfold Debugger.check_pe_connection_by_proxy.
  apply (total_bind
           (fun response =>
              returns (ProgExec._check_pe_response ProgExec.PE_COMMAND_SCHECK
                         0 response))).
  { intros s.
    destruct (answer (pe_invoke_read 4
                        ProgExecModel._sanity_check_proxy_command) s)
      as (response & E & H). by exists response. }
  intros response [data Hdata].
  apply total_seq; [intros s; by exists data|]. intros _.
  apply (total_bind
           (fun response =>
              returns (ProgExec._check_pe_response ProgExec.PE_COMMAND_QVER
                         0 response)
              /\ returns (getitem response 0))).
  { intros s.
    destruct (answer (pe_invoke_read 4
                        ProgExecModel._get_pe_version_proxy_command) s)
      as (response' & E & H). by exists response'. }
  intros response' [[data' Hdata'] [version Hversion]].
  apply total_seq; [intros s; by exists data'|]. intros _.
  intros s. by exists version.
Qed.

Lemma total_enter_tmod_pe : total enter_tmod_pe.
Proof.
  intros s. unfold Debugger.enter_tmod_pe.
  destruct (_in_tmod_pe s); [by eexists|].
  assert (total (if _in_tmod s then exit_tmod else mret tt)) as Hfirst
    by (destruct (_in_tmod s); [apply total_exit_tmod|by exists tt]).
  revert s Hfirst. intros s0 Hfirst.
  apply total_seq; [exact Hfirst|]. intros _.
  apply total_seq; [apply total_invoke|]. intros _.
  apply total_seq; [apply total_invoke|]. intros _.
  apply total_seq; [apply total_check_pe_connection_by_proxy|]. intros version.
  apply total_seq; [intros s; by exists tt|]. intros _.
  apply total_seq; [intros s; by exists tt|]. intros _.
  intros s. by eexists.
Qed.

Lemma total_write_flash_page_by_proxy (byte_address : Z) (data : list Z) :
  total (write_flash_page_by_proxy tool byte_address data).
Proof.
  unfold Debugger.write_flash_page_by_proxy.
  rewrite CodecFacts.pic24_compact_any.
  apply total_seq; [intros s; by eexists|]. intros [data' packed].
  apply (total_bind
           (fun response =>
              returns (ProgExec._check_pe_response ProgExec.PE_COMMAND_PROGP
                         0 response))).
  { intros s.
    destruct (answer (pe_invoke_write_read packed 4
                        ProgExecModel._write_flash_page_proxy_command
                        byte_address (len data')) s)
      as (response & E & H). by exists response. }
  intros response [checked Hchecked].
  apply total_seq; [intros s; by exists checked|]. intros _.
  intros s. by exists tt.
Qed.

(** With a cooperative tool a chunk is always written: the call returns,
    by whichever path it takes. *)
Lemma total_write_flash_chunk (byte_address : Z) (data : list Z) :
  total (_write_flash_chunk tool device_object byte_address data).
Proof.
  intros s. unfold Debugger._write_flash_chunk.
  set (original := use_pe s).
  assert (total (if original
                 then if byte_address + len data
                         >? get_config_start_address_byte device_object
                      then _ ← set_use_pe false; _ ← exit_tmod; enter_tmod
                      else mret tt
                 else mret tt)) as Hfirst.
  { destruct original; [|by exists tt].
    destruct (_ >? _); [|by exists tt].
    apply total_seq; [intros s1; by exists tt|]. intros _.
    apply total_seq; [apply total_exit_tmod|]. intros _.
    apply total_enter_tmod. }
  clearbody original. revert s Hfirst. intros s0 Hfirst.
  apply total_seq; [exact Hfirst|]. intros _. cbv zeta.
  apply total_seq; [intros s; by eexists|]. intros now_use_pe.
  destruct now_use_pe; [apply total_write_flash_page_by_proxy|].
  apply total_seq; [apply total_invoke|]. intros _.
  destruct original; [|intros s; by exists tt].
  apply total_seq; [intros s; by exists tt|]. intros _.
  apply total_seq; [apply total_exit_tmod|]. intros _.
  apply total_seq; [apply total_enter_tmod_pe|]. intros _.
  intros s. by exists tt.
Qed.

End Cooperation.

(** *** Writing flash *)

Section FlashWrite.

Variable tool : list call -> outcome (list Z).
Variable device_object : PicDevice.

Local Abbreviation exit_tmod := (exit_tmod tool).
Local Abbreviation enter_tmod := (enter_tmod tool).
Local Abbreviation enter_tmod_pe := (enter_tmod_pe tool).
Local Abbreviation _write_flash_chunk := (_write_flash_chunk tool device_object).
Local Abbreviation _write_flash_block := (_write_flash_block tool device_object).
Local Abbreviation write_chunks := (write_chunks tool device_object).
Local Abbreviation config_start :=
  (get_config_start_address_byte device_object).


Lemma exit_tmod_run (s s1 : Gen4WrapperDebugger) (r : outcome unit) :
  exit_tmod s = (r, s1) ->
  exists evs,
    quiet s s1 evs
    /\ (r = Ok tt /\ _in_tmod s1 = false /\ _in_tmod_pe s1 = false
        /\ evs = exit_calls s
        \/ r <> Ok tt /\ evs = [device_invoke DeviceModel.exit_tmod]).
Proof.
  intros E. destruct (exit_tmod_summary tool s) as (evs & Hq & H).
  rewrite E in Hq, H. cbn [fst snd] in *. exists evs. split; [done|].
  destruct H as [(? & ? & ? & ?)|(? & _ & _ & ?)]; auto.
Qed.

Lemma enter_tmod_run (s s1 : Gen4WrapperDebugger) (r : outcome unit) :
  _in_tmod s = false -> _in_tmod_pe s = false ->
  enter_tmod s = (r, s1) ->
  exists evs,
    quiet s s1 evs
    /\ (r = Ok tt ->
        _in_tmod s1 = true /\ _in_tmod_pe s1 = false
        /\ evs = raw_entry_calls).
Proof.
  intros Ht Hp E.
  destruct (enter_tmod_summary tool s Ht) as (evs & Hq & _ & H & _).
  rewrite E in Hq, H. cbn [fst snd] in *. exists evs. split; [done|].
  intros Hr. destruct (H Hr) as (? & ? & ->).
  unfold exit_calls. by rewrite Ht, Hp.
Qed.

Lemma enter_tmod_pe_run (s s1 : Gen4WrapperDebugger) (r : outcome Z) :
  _in_tmod s = false -> _in_tmod_pe s = false ->
  enter_tmod_pe s = (r, s1) ->
  exists evs,
    quiet s s1 evs
    /\ (returns r ->
        _in_tmod s1 = false /\ _in_tmod_pe s1 = true
        /\ evs = [device_invoke DeviceModel.set_speed_pe;
                  device_invoke DeviceModel.enter_tmod_pe;
                  pe_invoke_read 4 ProgExecModel._sanity_check_proxy_command;
                  pe_invoke_read 4
                    ProgExecModel._get_pe_version_proxy_command]).
Proof.
  intros Ht Hp E.
  destruct (enter_tmod_pe_summary tool s Hp) as (evs & Hq & _ & H & _).
  rewrite E in Hq, H. cbn [fst snd] in *. exists evs. split; [done|].
  intros Hr. destruct (H Hr) as (? & ? & ->).
  unfold exit_calls. by rewrite Ht, Hp.
Qed.

Lemma bind_inv {S A B} (m : M S A) (f : A -> M S B) (s s' : S)
    (r : outcome B) :
  (m ≫= f) s = (r, s') ->
  (exists a s1, m s = (Ok a, s1) /\ f a s1 = (r, s'))
  \/ (forall b, r <> Ok b) /\ exists r1, m s = (r1, s') /\ forall a, r1 <> Ok a.
Proof.
  unfold mbind, M_bind. destruct (m s) as [[a|e|] s1]; intros E.
  - left. eauto.
  - right. injection E as <- <-. split; [done|]. by eexists.
  - right. injection E as <- <-. split; [done|]. by eexists.
Qed.

(** Leaving PE mode for raw TMOD, as [_write_flash_chunk] does before a
    write that reaches the config words. *)
Lemma to_raw_tmod_run (s s2 : Gen4WrapperDebugger) (r : outcome unit) :
  (_ ← set_use_pe false; _ ← exit_tmod; enter_tmod) s = (r, s2) ->
  exists evs,
    calls s2 = calls s ++ evs /\ page_writes evs = []
    /\ use_pe s2 = false
    /\ (r = Ok tt ->
        _in_tmod s2 = true /\ _in_tmod_pe s2 = false
        /\ evs = exit_calls s ++ raw_entry_calls).
Proof.
  intros E.
  apply bind_inv in E as [(u0 & s0 & E0 & E)|(_ & r1 & E0 & Hr1)];
    [|exfalso; by apply (Hr1 tt); injection E0 as <- _].
  unfold set_use_pe in E0. injection E0 as _ <-.
  apply bind_inv in E as [(u1 & s1 & E1 & E)|(Hr & r1 & E1 & Hr1)].
  - destruct u1.
    destruct (exit_tmod_run _ _ _ E1)
      as (evs1 & (Hc1 & Hp1 & Hu1 & _) & [(_ & Ht1 & Hpe1 & ->)|(? & _)]);
      [|done].
    destruct (enter_tmod_run _ _ _ Ht1 Hpe1 E)
      as (evs2 & (Hc2 & Hp2 & Hu2 & _) & Hok).
    exists (exit_calls s ++ evs2). cbn [calls use_pe] in *.
    split; [|split; [|split; [congruence|]]].
    + rewrite Hc2, Hc1. unfold exit_calls. cbn [_in_tmod _in_tmod_pe].
      by rewrite app_assoc.
    + rewrite page_writes_app, Hp2.
      unfold exit_calls. by destruct (_ || _).
    + intros Hr. by destruct (Hok Hr) as (? & ? & ->).
  - destruct (exit_tmod_run _ _ _ E1) as (evs1 & (Hc1 & Hp1 & Hu1 & _) & _).
    exists evs1. cbn [calls use_pe] in *.
    split; [done|]. split; [done|]. split; [done|].
    intros ->. by destruct (Hr tt).
Qed.

(** Going back to PE mode after the raw write. *)
Lemma to_pe_mode_run (s s5 : Gen4WrapperDebugger) (r : outcome unit) :
  _in_tmod s = true -> _in_tmod_pe s = false ->
  (_ ← set_use_pe true; _ ← exit_tmod; _ ← enter_tmod_pe; mret tt) s
  = (r, s5) ->
  exists evs,
    calls s5 = calls s ++ evs /\ page_writes evs = []
    /\ (r = Ok tt ->
        evs = pe_reentry_calls
        /\ _in_tmod s5 = false /\ _in_tmod_pe s5 = true
        /\ use_pe s5 = true).
Proof.
  intros Ht Hp E.
  apply bind_inv in E as [(u0 & s0 & E0 & E)|(_ & r1 & E0 & Hr1)];
    [|exfalso; by apply (Hr1 tt); injection E0 as <- _].
  unfold set_use_pe in E0. injection E0 as _ <-.
  apply bind_inv in E as [(u1 & s1 & E1 & E)|(Hr & r1 & E1 & Hr1)].
  - destruct u1.
    destruct (exit_tmod_run _ _ _ E1)
      as (evs1 & (Hc1 & Hp1 & Hu1 & _) & [(_ & Ht1 & Hpe1 & ->)|(? & _)]);
      [|done].
    unfold exit_calls in *. cbn [calls use_pe _in_tmod _in_tmod_pe] in *.
    rewrite Ht in *. cbn [orb] in *.
    apply bind_inv in E as [(v & s2 & E2 & E)|(Hr & r1 & E2 & Hr1)].
    + destruct (enter_tmod_pe_run _ _ _ Ht1 Hpe1 E2)
        as (evs2 & (Hc2 & Hp2 & Hu2 & _) & Hok).
      injection E as <- <-.
      destruct Hok as (? & ? & ->); [by exists v|].
      eexists. split; [by rewrite Hc2, Hc1, <- app_assoc|].
      split; [done|]. intros _. repeat split; try done. congruence.
    + destruct (enter_tmod_pe_run _ _ _ Ht1 Hpe1 E2)
        as (evs2 & (Hc2 & Hp2 & Hu2 & _) & _).
      exists ([device_invoke DeviceModel.exit_tmod] ++ evs2).
      split; [by rewrite Hc2, Hc1, <- app_assoc|].
      split; [by rewrite page_writes_app, Hp2|].
      intros ->. by destruct (Hr tt).
  - destruct (exit_tmod_run _ _ _ E1) as (evs1 & (Hc1 & Hp1 & Hu1 & _) & _).
    exists evs1. cbn [calls use_pe] in *.
    split; [done|]. split; [done|].
    intros ->. by destruct (Hr tt).
Qed.

Lemma write_flash_chunk_config (s : Gen4WrapperDebugger) (byte_address : Z)
    (data : list Z) :
  use_pe s = true ->
  (byte_address + len data >? config_start) = true ->
  config_write_post s byte_address data (_write_flash_chunk byte_address data s).
Proof.
  intros Hu Hc. unfold Debugger._write_flash_chunk. rewrite Hu, Hc.
  match goal with
  | |- config_write_post _ _ _ ?run => destruct run as [r s'] eqn:E
  end.
  unfold config_write_post.
  cbn [fst snd].
  apply bind_inv in E as [(u2 & s2 & E2 & E)|(Hr & r1 & E2 & Hr1)].
  - destruct u2.
    destruct (to_raw_tmod_run _ _ _ E2) as (evs & Hc2 & Hp2 & Hu2 & Hok).
    destruct (Hok eq_refl) as (Ht2 & Hpe2 & ->).
    revert E. unfold get at 1. unfold mbind at 1, M_bind at 1.
    rewrite Hu2. fold (raw_page_write byte_address data).
    intros E. right.
    apply bind_inv in E as [(reply & s3 & E3 & E)|(Hr & r1 & E3 & Hr1)].
    + unfold invoke in E3. injection E3 as _ <-.
      apply to_pe_mode_run in E as (tail & Hc5 & Hp5 & Hok5); [|done|done].
      exists tail. cbn [calls] in Hc5.
      split; [by rewrite Hc5, Hc2, <- !app_assoc|]. done.
    + unfold invoke in E3. injection E3 as _ <-.
      exists []. cbn [calls].
      split; [by rewrite Hc2, <- !app_assoc|].
      split; [done|]. intros ->. by destruct (Hr tt).
  - destruct (to_raw_tmod_run _ _ _ E2) as (evs & Hc2 & Hp2 & _).
    left. split; [apply Hr|]. by exists evs.
Qed.

(** [_write_flash_chunk] without the programming executive: the raw page
    write and nothing else. *)
Lemma write_flash_chunk_raw (s : Gen4WrapperDebugger) (byte_address : Z)
    (data : list Z) :
  use_pe s = false ->
  _write_flash_chunk byte_address data s
  = ((_ ← tool (calls s ++ [raw_page_write byte_address data]); Ok tt),
     called (raw_page_write byte_address data) (_is_running s) s).
Proof.
  intros Hu. unfold Debugger._write_flash_chunk. rewrite Hu.
  unfold_m. rewrite Hu. fold (raw_page_write byte_address data).
  unfold called. by destruct (tool _).
Qed.



(** C9: when [_write_flash_chunk] is called with [use_pe] set and the chunk
    reaches beyond the start of the config words, no page write goes through
    the programming executive. Either the run fails before any page write,
    or its calls are: the exit from the current mode, the entry into raw
    TMOD, the raw page write, and then calls that make no page write; when
    the run returns, those last calls are the exit from TMOD and the entry
    into TMOD-PE, and the debugger is in TMOD-PE with [use_pe] set again.
    With a cooperative tool the run does return: its calls are exactly the
    exit from the current mode, the entry into raw TMOD, the raw page
    write, the exit from TMOD and the entry into TMOD-PE, in this order.
    Called with [use_pe] clear, it makes the raw page write and no mode
    call at all, and returns exactly when the tool answers that write. *)
Theorem config_words_written_in_raw_tmod (s : Gen4WrapperDebugger)
    (byte_address : Z) (data : list Z) :
  (use_pe s = true ->
   byte_address + len data > config_start ->
   config_write_post s byte_address data
     (_write_flash_chunk byte_address data s)
   /\ (forall w,
        w ∈ page_writes (calls (_write_flash_chunk byte_address data s).2) ->
        w ∈ page_writes (calls s) \/ pw_pe w = false)
   /\ (cooperative tool ->
       exists s',
         _write_flash_chunk byte_address data s = (Ok tt, s')
         /\ calls s'
            = calls s ++ exit_calls s ++ raw_entry_calls
                      ++ raw_page_write byte_address data :: pe_reentry_calls
         /\ _in_tmod s' = false /\ _in_tmod_pe s' = true
         /\ use_pe s' = true))
  /\ (use_pe s = false ->
      _write_flash_chunk byte_address data s
      = ((_ ← tool (calls s ++ [raw_page_write byte_address data]); Ok tt),
         called (raw_page_write byte_address data) (_is_running s) s)).
Proof.
  split.
  - intros Hu Hc. apply Z.gtb_gt in Hc.
    pose proof (write_flash_chunk_config s byte_address data Hu Hc) as Hpost.
    split; [done|]. split.
    + intros w.
      destruct Hpost as [(_ & evs & -> & Hp)|(tail & -> & Hp & _)].
      * rewrite page_writes_app, Hp, app_nil_r. by left.
      * rewrite page_writes_app, page_writes_app,
          (page_writes_app raw_entry_calls), page_writes_cons, Hp.
        replace (page_writes (exit_calls s)) with (@nil page_write)
          by (unfold exit_calls; by destruct (_ || _)).
        cbn. rewrite elem_of_app, list_elem_of_singleton.
        intros [?| ->]; [by left|by right].
    + intros Hcoop.
      destruct (total_write_flash_chunk tool device_object Hcoop
                  byte_address data s) as [[] Hok].
      destruct (_write_flash_chunk byte_address data s) as [r s'] eqn:E.
      cbn [fst snd] in *. subst r. exists s'. split; [done|].
      destruct Hpost as [(Hno & _)|(tail & Hcalls & _ & Hret)]; [done|].
      destruct (Hret eq_refl) as (-> & Ht & Hp & Hu').
      done.
  - intros Hu. by apply write_flash_chunk_raw.
Qed.

(** *** Blocks of chunks *)






Lemma planned_writes_blank (todo : list (list Z)) (chunksize pagesize : Z) :
  Forall (fun chunk => is_blank chunk = true) todo ->
  forall byte_address,
    planned_writes todo byte_address chunksize pagesize = [].
Proof.
  induction 1 as [|chunk rest Hb _ IH]; intros a; [done|].
  cbn [planned_writes]. by rewrite Hb, IH.
Qed.






End FlashWrite.

Lemma healthy_tool_cooperative : cooperative healthy_tool.
Proof.
  intros made. unfold healthy_tool.
  destruct (last made) as [c|]; [|by eexists].
  destruct c as [m|n m|d m a n|n m|d n m a k|m|d m n|a d n];
    try destruct m; try (by eexists).
  - exists [0; 0; 1; 0], 0x10000. by repeat split.
  - eexists. split; [reflexivity|]. by eexists.
  - eexists. split; [reflexivity|]. split; by eexists.
  - eexists. split; [reflexivity|]. by eexists.
Qed.

Lemma config_words_written_in_raw_tmod_witness :
  use_pe in_pe_mode = true
  /\ 0x2BE00 + len [1; 2; 3; 0] > get_config_start_address_byte pic24fj128ga705
  /\ cooperative healthy_tool
  /\ exists s',
       Debugger._write_flash_chunk healthy_tool pic24fj128ga705 0x2BE00
         [1; 2; 3; 0] in_pe_mode
       = (Ok tt, s')
       /\ calls s'
          = calls in_pe_mode ++ exit_calls in_pe_mode ++ raw_entry_calls
              ++ raw_page_write 0x2BE00 [1; 2; 3; 0] :: pe_reentry_calls
       /\ _in_tmod s' = false /\ _in_tmod_pe s' = true
       /\ use_pe s' = true.
Proof.
  split; [reflexivity|]. split; [vm_compute; reflexivity|].
  split; [exact healthy_tool_cooperative|].
  destruct (config_words_written_in_raw_tmod healthy_tool pic24fj128ga705
              in_pe_mode 0x2BE00 [1; 2; 3; 0]) as [Hpe _].
  destruct Hpe as (_ & _ & Hrun); [reflexivity|vm_compute; reflexivity|].
  exact (Hrun healthy_tool_cooperative).
Defined.

(** The run of the witness returns, by the calls of the theorem. *)
Example config_write_run :
  Debugger._write_flash_chunk healthy_tool pic24fj128ga705 0x2BE00
    [1; 2; 3; 0] in_pe_mode
  = (Ok tt,
     {| _in_tmod := false; _in_tmod_pe := true; _is_running := false;
        _current_pe_version := 0x25; use_pe := true;
        calls := [device_invoke DeviceModel.exit_tmod]
                 ++ raw_entry_calls
                 ++ raw_page_write 0x2BE00 [1; 2; 3; 0] :: pe_reentry_calls |}).
Proof. reflexivity. Qed.



(** A blank page is skipped, a page with one other byte is written once,
    padded to 512 bytes. *)
Example blank_page_skipped :
  Debugger._write_flash_block healthy_tool pic24fj128ga705 0x400
    (replicate 512 0xFF) init
  = (Ok tt, init).
Proof. reflexivity. Qed.

Example short_page_padded :
  page_writes
    (calls (Debugger._write_flash_block healthy_tool pic24fj128ga705 0x400
              [0x12; 0x34] init).2)
  = [{| pw_byte_address := 0x400; pw_numbytes := 512;
        pw_data := [0x12; 0x34] ++ replicate 510 0xFF; pw_pe := false |}].
Proof. vm_compute. reflexivity. Qed.

Lemma mode_exclusivity_witness :
  let tool := steady_tool [0; 0; 1; 0] in
  let s := (Debugger.enter_tmod tool init).2 in
  _in_tmod s = true /\ _in_tmod_pe s = false
  /\ exists tail,
       calls (Debugger.enter_tmod_pe tool s).2
       = calls s ++ device_invoke DeviceModel.exit_tmod :: tail.
Proof.
  intros tool s. split; [reflexivity|]. split; [reflexivity|].
  destruct (mode_exclusivity tool) as (_ & Hpe & _).
  destruct (Hpe s) as (tail & Hc & _); [reflexivity|reflexivity|].
  by exists tail.
Defined.

(** *** Debug executive responses *)

Section DebugResponses.

Variable tool : list call -> outcome (list Z).

Lemma check_de_response_verdict (result : list Z) :
  (4 <= List.length result)%nat ->
  if de_rejects result
  then exists why, _check_de_response result = Raise (DeException why)
  else _check_de_response result = Ok tt.
Proof.
  intros Hl.
  destruct result as [|cmd [|status [|r2 [|r3 rest]]]]; simpl in Hl; try lia.
  unfold _check_de_response, de_rejects.
  cbn [getitem lookup list_lookup]. rewrite !bind_ok.
  destruct ((cmd =? DE_COMMAND) || (cmd =? DE_COMMAND_DATA_ONLY)); [|done].
  cbn [andb].
  destruct (Z.eqb_spec status 129); [subst; simpl; by eauto|].
  destruct (Z.eqb_spec status 130); [subst; simpl; by eauto|].
  destruct (Z.eqb_spec status 131); [subst; simpl; by eauto|].
  destruct (Z.eqb_spec status 132); [subst; simpl; by eauto|].
  destruct (Z.eqb_spec status 133); [subst; simpl; by eauto|].
  destruct (Z.leb_spec 129 status), (Z.leb_spec status 133); try done. lia.
Qed.

(** C7, as the code has it. Each write-class command that is sent makes
    one call on the debug executive and checks the raw response: when the
    response is one to a DE command (first byte 0x31 or 0x35) and its
    status byte is a timeout code 0x81..0x85, an exception is raised at
    once, with no further call and [_is_running] unchanged; any other
    response of four bytes or more, whatever its status byte, lets the
    command return normally. *)
Theorem de_write_class_response_checked
    (w : write_class) (s : Gen4WrapperDebugger) (result : list Z) :
  sends w s = true ->
  tool (calls s ++ [call_of w]) = Ok result ->
  (4 <= List.length result)%nat ->
  if de_rejects result
  then exists why,
         perform tool w s
         = (Raise (DeException why), called (call_of w) (_is_running s) s)
  else perform tool w s
       = (Ok tt, called (call_of w) (running_after w s) s).
Proof.
  intros Hs Ht Hl.
  pose proof (check_de_response_verdict result Hl) as Hv.
  destruct w; cbn [sends perform call_of running_after] in *;
    unfold debug_write_memory, debug_write_emulation, run, halt, step;
    rewrite ?Hs; try (apply negb_true_iff in Hs; rewrite Hs);
    unfold_m; cbv zeta; rewrite Ht;
    (destruct (de_rejects result); [destruct Hv as [why Hv]; exists why|]);
    rewrite Hv; unfold called; cbn [calls _in_tmod _in_tmod_pe _is_running
      _current_pe_version use_pe]; by rewrite ?Hs.
Qed.

End DebugResponses.

Lemma de_write_class_response_checked_witness :
  let tool := steady_tool [0x31; 0x83; 0; 0] in
  sends Run init = true
  /\ exists why,
       perform tool Run init
       = (Raise (DeException why),
          called (de_invoke DebugModel.run) false init).
Proof.
  intros tool. split; [reflexivity|].
  apply (de_write_class_response_checked tool Run init [0x31; 0x83; 0; 0]);
    [reflexivity|reflexivity|simpl; lia].
Defined.

(** C7 as the spec words it fails: a nonzero status that is not one of
    the five timeout codes is not an error. *)
Lemma de_nonzero_status_accepted :
  let tool := steady_tool [0x31; 0x01; 0; 0] in
  (0x01 <> 0)
  /\ debug_write_memory tool 0x1000 [0xAA] 1 init
     = (Ok tt,
        called (call_of (WriteMemory 0x1000 [0xAA] 1)) false init)
  /\ perform tool Run init
     = (Ok tt, called (de_invoke DebugModel.run) true init).
Proof. intros tool. split; [discriminate|]. split; reflexivity. Qed.

(** *** Reading flash in debug mode *)

Section DebugReadFlash.

Variable tool : list call -> outcome (list Z).

(** The chunk size chosen for a turn of the loop never reaches across
    0x20000, whatever the nominal chunk size and the bytes still wanted. *)
Lemma temp_chunk_clear (byte_address chunk_size_bytes numbytes_actual : Z) :
  let temp :=
    temp_chunk_size_bytes byte_address chunk_size_bytes numbytes_actual in
  0 <= chunk_size_bytes ->
  byte_address + (temp * 4) / 3 <= 0x20000 \/ 0x20000 <= byte_address.
Proof.
  unfold temp_chunk_size_bytes. intros Hc.
  destruct (Z.ltb_spec byte_address 131072); [|by right].
  left. cbn [andb].
  destruct (Z.geb_spec (byte_address + chunk_size_bytes * 4 / 3) 131072);
    floor_arith.
Qed.

Lemma read_flash_loop_clear (fuel : nat) :
  forall byte_address numbytes_actual chunk_size_bytes result s,
    0 <= chunk_size_bytes ->
    exists evs,
      calls (read_flash_loop tool fuel byte_address numbytes_actual
               chunk_size_bytes result s).2
      = calls s ++ evs
      /\ Forall clear_of_boundary evs.
Proof.
  induction fuel as [|fuel IH]; intros a rem c result s Hc.
  - exists []. by rewrite app_nil_r.
  - cbn [read_flash_loop].
    destruct (rem >? 0); [|exists []; by rewrite app_nil_r].
    unfold mbind, M_bind, invoke.
    set (ev := de_read_flash_chunk a _ _).
    assert (clear_of_boundary ev) as Hev by (by apply temp_chunk_clear).
    destruct (tool (calls s ++ [ev])) as [chunk|e|].
    + destruct chunk as [|b chunk].
      * exists [ev]. split; [done|]. by constructor.
      * match goal with
        | |- context [read_flash_loop tool fuel ?a' ?r' c ?res ?s1] =>
            destruct (IH a' r' c res s1 Hc) as (evs & -> & Hevs)
        end.
        exists (ev :: evs). cbn [calls]. rewrite <- app_assoc.
        split; [done|]. by constructor.
    + exists [ev]. split; [done|]. by constructor.
    + exists [ev]. split; [done|]. by constructor.
Qed.

(** One turn of the loop that gets data, and the turn that ends it. *)
Lemma read_flash_loop_step (fuel : nat)
    (byte_address numbytes_actual chunk_size_bytes : Z) (result : list Z)
    (s : Gen4WrapperDebugger) (b : Z) (bs : list Z) :
  let temp :=
    temp_chunk_size_bytes byte_address chunk_size_bytes numbytes_actual in
  let ev :=
    de_read_flash_chunk byte_address
      (DebugExec.de_command_read_flash (byte_address / 2) temp) temp in
  (numbytes_actual >? 0) = true ->
  tool (calls s ++ [ev]) = Ok (b :: bs) ->
  read_flash_loop tool (S fuel) byte_address numbytes_actual chunk_size_bytes
    result s
  = read_flash_loop tool fuel (byte_address + (temp * 4) / 3)
      (numbytes_actual - temp) chunk_size_bytes (result ++ b :: bs)
      (called ev (_is_running s) s).
Proof.
  intros temp ev Hn Ht. cbn [read_flash_loop]. rewrite Hn.
  unfold mbind, M_bind, invoke. fold temp. fold ev. by rewrite Ht.
Qed.

Lemma read_flash_loop_done (fuel : nat)
    (byte_address numbytes_actual chunk_size_bytes : Z) (result : list Z)
    (s : Gen4WrapperDebugger) :
  (numbytes_actual >? 0) = false ->
  read_flash_loop tool (S fuel) byte_address numbytes_actual chunk_size_bytes
    result s
  = (Ok result, s).
Proof. intros Hn. cbn [read_flash_loop]. by rewrite Hn. Qed.

(** C6: every chunk [debug_read_flash] asks for lies on one side of byte
    address 0x20000, whatever the start address, the length asked for and
    the answers of the tool; and with a tool that returns data for every
    chunk, a read of 0x40 bytes at 0x1FFF0 is made in exactly two chunks,
    12 packed bytes up to 0x20000 and 36 from 0x20000 on. *)
Theorem debug_read_flash_boundary :
  (forall fuel byte_address numbytes s,
     exists evs,
       calls (debug_read_flash tool fuel byte_address numbytes s).2
       = calls s ++ evs
       /\ Forall clear_of_boundary evs)
  /\ ((forall made, exists b bs, tool made = Ok (b :: bs)) ->
      forall fuel s, (2 < fuel)%nat ->
      exists chunk1 chunk2,
        debug_read_flash tool fuel 0x1FFF0 0x40 s
        = (Ok (chunk1 ++ chunk2),
           called (de_read_flash_chunk 0x20000 [0; 0; 1; 0; 3; 0] 36)
             (_is_running s)
             (called (de_read_flash_chunk 0x1FFF0 [0xF8; 0xFF; 0; 0; 1; 0] 12)
                (_is_running s) s))
        /\ clear_of_boundary
             (de_read_flash_chunk 0x1FFF0 [0xF8; 0xFF; 0; 0; 1; 0] 12)
        /\ clear_of_boundary
             (de_read_flash_chunk 0x20000 [0; 0; 1; 0; 3; 0] 36)).
Proof.
  split.
  - intros fuel a n s. unfold debug_read_flash.
    apply read_flash_loop_clear. done.
  - intros Hdata fuel s Hf.
    destruct fuel as [|[|[|fuel]]]; try lia.
    set (ev1 := de_read_flash_chunk 0x1FFF0 [0xF8; 0xFF; 0; 0; 1; 0] 12).
    set (ev2 := de_read_flash_chunk 0x20000 [0; 0; 1; 0; 3; 0] 36).
    destruct (Hdata (calls s ++ [ev1])) as (b1 & bs1 & H1).
    destruct (Hdata (calls (called ev1 (_is_running s) s) ++ [ev2]))
      as (b2 & bs2 & H2).
    exists (b1 :: bs1), (b2 :: bs2).
    split; [|split; [left; by vm_compute|right; by vm_compute]].
    unfold debug_read_flash.
    change (0x40 * 3 / 4) with 48.
    change (512 - 512 mod DebugExec.de_read_flash_pack_size) with 504.
    rewrite (read_flash_loop_step _ 0x1FFF0 48 504 [] s b1 bs1 eq_refl H1).
    change (0x1FFF0 + temp_chunk_size_bytes 0x1FFF0 504 48 * 4 / 3)
      with 0x20000.
    change (48 - temp_chunk_size_bytes 0x1FFF0 504 48) with 36.
    change (temp_chunk_size_bytes 131056 504 48) with 12.
    change (DebugExec.de_command_read_flash (131056 / 2) 12)
      with [0xF8; 0xFF; 0; 0; 1; 0].
    fold ev1.
    rewrite (read_flash_loop_step _ 0x20000 36 504 _ _ b2 bs2 eq_refl H2).
    by rewrite read_flash_loop_done.
Qed.

End DebugReadFlash.

Lemma debug_read_flash_boundary_witness :
  let tool := steady_tool [0xDD] in
  (forall made, exists b bs, tool made = Ok (b :: bs))
  /\ exists chunk1 chunk2,
       (debug_read_flash tool 3 0x1FFF0 0x40 init).1 = Ok (chunk1 ++ chunk2)
       /\ calls (debug_read_flash tool 3 0x1FFF0 0x40 init).2
          = [de_read_flash_chunk 0x1FFF0 [0xF8; 0xFF; 0; 0; 1; 0] 12;
             de_read_flash_chunk 0x20000 [0; 0; 1; 0; 3; 0] 36].
Proof.
  intros tool.
  assert (forall made, exists b bs, tool made = Ok (b :: bs)) as Hdata
    by (intros made; by exists 0xDD, []).
  split; [exact Hdata|].
  destruct (debug_read_flash_boundary tool) as [_ Hex].
  destruct (Hex Hdata 3%nat init ltac:(lia)) as (c1 & c2 & Hrun & _).
  exists c1, c2. by rewrite Hrun.
Defined.

End DebuggerFacts.

(** * Further properties *)

(** ** Sizes and the other round trip of the codec *)

Module CodecUseFacts.
Import Codec CodecUse CodecFacts.

Lemma decompact_frames_length (n : nat) : forall data,
  length data = (n * 6)%nat -> length (decompact_frames data) = (n * 8)%nat.
Proof.
  induction n as [|n IH]; intros data Hd.
  - by destruct data.
  - do 6 (destruct data as [|? data]; [done|]).
    simpl. rewrite IH; [lia|]. simpl in Hd. lia.
Qed.

Lemma zero_pad_len (m : Z) (x : list Z) :
  0 < m -> len (zero_pad m x) = m * ((len x + m - 1) / m).
Proof.
  intros Hm. unfold zero_pad. rewrite len_app. unfold len at 2.
  rewrite length_replicate.
  pose proof (Z.mod_pos_bound (- len x) m Hm).
  rewrite Z2Nat.id by lia.
  pose proof (Z.div_mod (- len x) m ltac:(lia)) as H1.
  pose proof (Z.div_mod (len x + m - 1) m ltac:(lia)) as H2.
  pose proof (Z.mod_pos_bound (len x + m - 1) m Hm).
  set (q1 := - len x / m) in *. set (q2 := (len x + m - 1) / m) in *.
  set (r1 := (- len x) mod m) in *. set (r2 := (len x + m - 1) mod m) in *.
  assert (m * (q1 + q2) = m - 1 - r1 - r2) as Hk by lia.
  assert (q1 + q2 = 0) as Hz by nia.
  nia.
Qed.

Lemma frames_of_len (m : nat) (x : list Z) (q : Z) :
  (0 < m)%nat -> len x = Z.of_nat m * q -> 0 <= q ->
  length x = (Z.to_nat q * m)%nat.
Proof. unfold len. nia. Qed.

Lemma codec_sizes_compact (x : list Z) :
  exists padded packed,
    pic24_compact x = Ok (padded, packed)
    /\ len padded = 8 * ((len x + 7) / 8)
    /\ len packed = 6 * ((len x + 7) / 8).
Proof.
  pose proof (len_nonneg x) as Hx.
  rewrite pic24_compact_any. eexists _, _. split; [reflexivity|].
  pose proof (zero_pad_len 8 x ltac:(lia)) as Hl.
  replace (len x + 8 - 1) with (len x + 7) in Hl by lia.
  split; [exact Hl|].
  assert (0 <= (len x + 7) / 8) as Hq by (apply Z.div_pos; lia).
  pose proof (frames_of_len 8 (pad8 x) _ ltac:(lia) Hl Hq) as Hn.
  unfold len in *. rewrite (compact_frames_length _ _ Hn). lia.
Qed.

Lemma codec_sizes_decompact (x : list Z) :
  exists padded raw,
    pic24_decompact x = Ok (padded, raw)
    /\ padded = zero_pad 6 x
    /\ raw = decompact_frames (zero_pad 6 x)
    /\ len padded = 6 * ((len x + 5) / 6)
    /\ len raw = 8 * ((len x + 5) / 6).
Proof.
  pose proof (len_nonneg x) as Hx.
  rewrite pic24_decompact_any. eexists _, _. split; [reflexivity|].
  split; [done|]. split; [done|].
  pose proof (zero_pad_len 6 x ltac:(lia)) as Hl.
  replace (len x + 6 - 1) with (len x + 5) in Hl by lia.
  split; [exact Hl|].
  assert (0 <= (len x + 5) / 6) as Hq by (apply Z.div_pos; lia).
  pose proof (frames_of_len 6 (zero_pad 6 x) _ ltac:(lia) Hl Hq) as Hn.
  unfold len in *. rewrite (decompact_frames_length _ _ Hn). lia.
Qed.

(** The sizes of the codec: [pic24_compact] leaves its argument at the next
    multiple of 8 bytes and returns 6 bytes for every 8 of them, and
    [pic24_decompact] leaves its argument at the next multiple of 6 bytes
    and returns 8 bytes for every 6 of them. *)
Theorem codec_sizes (x : list Z) :
  (exists padded packed,
     pic24_compact x = Ok (padded, packed)
     /\ len padded = 8 * ((len x + 7) / 8)
     /\ len packed = 6 * ((len x + 7) / 8))
  /\ (exists padded raw,
       pic24_decompact x = Ok (padded, raw)
       /\ len padded = 6 * ((len x + 5) / 6)
       /\ len raw = 8 * ((len x + 5) / 6)).
Proof.
  split.
  - apply codec_sizes_compact.
  - destruct (codec_sizes_decompact x) as (padded & raw & ? & _ & _ & ? & ?).
    by exists padded, raw.
Qed.

Lemma frames_repack (n : nat) : forall p,
  length p = (n * 6)%nat -> compact_frames (decompact_frames p) = p.
Proof.
  induction n as [|n IH]; intros p Hp.
  - by destruct p.
  - do 6 (destruct p as [|? p]; [done|]).
    simpl. rewrite IH; [done|]. simpl in Hp. lia.
Qed.

(** Packed data survives expansion and compaction without any condition:
    [pic24_compact(pic24_decompact(p))] is [p] padded with zero bytes to the
    next multiple of 6, and [p] itself when its length is such a multiple. *)
Theorem repack_is_padding (p : list Z) :
  repack p = Ok (zero_pad 6 p)
  /\ (len p mod 6 = 0 -> repack p = Ok p).
Proof.
  destruct (zero_pad_length 6 p) as [n Hn]; [lia|].
  change (Z.to_nat 6) with 6%nat in Hn.
  assert (repack p = Ok (zero_pad 6 p)) as Hr.
  { unfold repack. rewrite pic24_decompact_any, bind_ok.
    rewrite (pic24_compact_frames _ n)
      by (by apply decompact_frames_length).
    rewrite bind_ok. by rewrite (frames_repack n). }
  split; [done|]. intros Hp. rewrite Hr. f_equal.
  apply zero_pad_whole; [lia|done].
Qed.

Lemma repack_is_padding_witness :
  len [1; 2; 3; 4; 5; 6] mod 6 = 0
  /\ repack [1; 2; 3; 4; 5; 6] = Ok [1; 2; 3; 4; 5; 6].
Proof.
  split; [reflexivity|].
  apply (repack_is_padding [1; 2; 3; 4; 5; 6]). reflexivity.
Defined.

Lemma decompact_frames_clear (n : nat) : forall p,
  length p = (n * 6)%nat -> phantom_clear (decompact_frames p) = true.
Proof.
  induction n as [|n IH]; intros p Hp.
  - by destruct p.
  - do 6 (destruct p as [|? p]; [done|]).
    simpl. apply IH. simpl in Hp. lia.
Qed.

(** Whatever is expanded, the phantom bytes of the result are zero; so the
    result of one round trip is a fixed point of the round trip. *)
Theorem roundtrip_settles (x y : list Z) :
  roundtrip x = Ok y ->
  phantom_clear y = true /\ len y mod 8 = 0 /\ roundtrip y = Ok y.
Proof.
  rewrite roundtrip_any. intros [= <-].
  destruct (zero_pad_length 8 x) as [n Hn]; [lia|].
  change (Z.to_nat 8) with 8%nat in Hn. fold (pad8 x) in Hn.
  pose proof (compact_frames_length n _ Hn) as Hc.
  pose proof (decompact_frames_length n _ Hc) as Hd.
  pose proof (decompact_frames_clear n _ Hc) as Hp.
  assert (len (decompact_frames (compact_frames (pad8 x))) mod 8 = 0) as Hm.
  { unfold len. rewrite Hd.
    replace (Z.of_nat (n * 8)) with (Z.of_nat n * 8) by lia.
    by rewrite Z.mod_mul. }
  split; [done|]. split; [done|].
  rewrite roundtrip_any, pad8_whole by done.
  by rewrite (frames_roundtrip n).
Qed.

Lemma roundtrip_settles_witness :
  roundtrip [9; 8; 7; 6; 5] = Ok [9; 8; 7; 0; 5; 0; 0; 0]
  /\ roundtrip [9; 8; 7; 0; 5; 0; 0; 0] = Ok [9; 8; 7; 0; 5; 0; 0; 0].
Proof.
  assert (roundtrip [9; 8; 7; 6; 5] = Ok [9; 8; 7; 0; 5; 0; 0; 0]) as H
    by reflexivity.
  split; [exact H|].
  by destruct (roundtrip_settles _ _ H) as (_ & _ & ?).
Defined.

End CodecUseFacts.

(** ** More of the Programming Executive *)

Module ProgExecUseFacts.
Import ProgExec ProgExecUse ProgExecFacts.

(** The command header keeps the low 4 bits of the command and the low 12
    bits of the length, each readable back from the 16-bit word; a command
    below 16 and a length below 4096 come back as they were. *)
Theorem pe_command_fields (command length : Z) :
  0 <= _pe_command command length < 65536
  /\ Z.shiftr (_pe_command command length) 12 = command mod 16
  /\ Z.land (_pe_command command length) 0x0FFF = length mod 4096
  /\ (0 <= command < 16 -> 0 <= length < 4096 ->
      _pe_command command length = command * 4096 + length).
Proof.
  unfold _pe_command.
  assert (Z.land (Z.shiftl command 12) 0xF000 = (command mod 16) * 4096) as ->.
  { change 0xF000 with (Z.shiftl (Z.ones 4) 12).
    rewrite <- Z.shiftl_land, Z.land_ones, Z.shiftl_mul_pow2 by lia. done. }
  change 0x0FFF with (Z.ones 12). rewrite !Z.land_ones by lia.
  rewrite Z.shiftr_div_pow2 by lia.
  change (2 ^ 4) with 16. change (2 ^ 12) with 4096.
  pose proof (Z.mod_pos_bound command 16 ltac:(lia)).
  pose proof (Z.mod_pos_bound length 4096 ltac:(lia)).
  repeat split; try lia.
  - symmetry. apply (Z.div_unique _ _ _ (length mod 4096)); lia.
  - symmetry. apply (Z.mod_unique _ _ (command mod 16)); lia.
  - intros Hc Hl. by rewrite !Z.mod_small by lia.
Qed.

Lemma pe_command_fields_witness :
  0 <= 5 < 16 /\ 0 <= 19 < 4096
  /\ _pe_command PE_COMMAND_PROGP 19 = 5 * 4096 + 19.
Proof.
  split; [lia|]. split; [lia|].
  apply (pe_command_fields PE_COMMAND_PROGP 19); unfold PE_COMMAND_PROGP; lia.
Defined.

Lemma send_words_buf_counts (fuel : nat) : forall (n : Z) ops,
  0 <= n -> (Z.to_nat n < fuel)%nat ->
  send_words_buf fuel n ops
  = Ok (ops ++ replicate (Z.to_nat n) send_word_buf).
Proof.
  induction fuel as [|fuel IH]; intros n ops Hn Hf; [lia|].
  simpl. destruct (Z.eqb_spec n 0) as [->|Hnz].
  - simpl. by rewrite app_nil_r.
  - rewrite IH by lia. rewrite <- app_assoc. do 2 f_equal.
    replace (Z.to_nat n) with (S (Z.to_nat (n - 1))) by lia. reflexivity.
Qed.

Lemma buffer_bytes_app (a b : list pe_op) :
  buffer_bytes (a ++ b) = buffer_bytes a + buffer_bytes b.
Proof. unfold buffer_bytes. rewrite List.filter_app, length_app. lia. Qed.

Lemma buffer_bytes_replicate (k : nat) :
  buffer_bytes (replicate k send_word_buf) = 2 * Z.of_nat k.
Proof.
  unfold buffer_bytes. induction k as [|k IH]; [done|].
  simpl. rewrite Nat2Z.inj_succ. simpl in IH. lia.
Qed.

(** The page-write command takes from the data buffer exactly the bytes
    that [pic24_compact] produced for the page, for a page of any length,
    and receives the four bytes of a bare response header. *)
Theorem write_page_command_consumes_packed_data
    (data : list Z) (byte_address : Z) (fuel : nat) :
  (Z.to_nat (len data + 8) < fuel)%nat ->
  exists padded packed ops,
    Codec.pic24_compact data = Ok (padded, packed)
    /\ _write_flash_page_proxy_command fuel byte_address (len padded) = Ok ops
    /\ buffer_bytes ops = len packed
    /\ wire_bytes ops = 4.
Proof.
  intros Hf.
  destruct (CodecUseFacts.codec_sizes_compact data)
    as (padded & packed & Hc & Hlp & Hlk).
  exists padded, packed. rewrite Hc.
  pose proof (len_nonneg data) as Hd.
  set (q := (len data + 7) / 8) in *.
  assert (0 <= q) as Hq by (apply Z.div_pos; lia).
  assert (8 * q <= len data + 7) as Hq8
    by (unfold q; apply Z.mul_div_le; lia).
  unfold _write_flash_page_proxy_command. rewrite Hlp.
  replace (3 * (8 * q / 4) / 2) with (3 * q) by floor_arith.
  rewrite send_words_buf_counts by lia. rewrite bind_ok.
  eexists. split; [reflexivity|]. split; [reflexivity|]. split.
  - rewrite !buffer_bytes_app, buffer_bytes_replicate.
    change (buffer_bytes [_; _; _]) with 0.
    change (buffer_bytes [_; _; _; _]) with 0. lia.
  - rewrite !wire_bytes_app.
    assert (wire_bytes (replicate (Z.to_nat (3 * q)) send_word_buf) = 0) as ->.
    { unfold wire_bytes. induction (Z.to_nat (3 * q)); [done|]. by simpl. }
    reflexivity.
Qed.

Lemma write_page_command_consumes_packed_data_witness :
  (Z.to_nat (len [1; 2; 3; 0; 5]%Z + 8) < 20)%nat
  /\ exists padded packed ops,
       Codec.pic24_compact [1; 2; 3; 0; 5] = Ok (padded, packed)
       /\ _write_flash_page_proxy_command 20 0x800 (len padded) = Ok ops
       /\ buffer_bytes ops = len packed
       /\ wire_bytes ops = 4.
Proof.
  split; [vm_compute; lia|].
  apply (write_page_command_consumes_packed_data [1; 2; 3; 0; 5] 0x800 20).
  vm_compute. lia.
Defined.

(** What an accepted response looks like (shared by the facts below). *)
Lemma accepted_response_shape (cmd databytes : Z) (response data : list Z) :
  _check_pe_response cmd databytes response = Ok data ->
  exists e r1 lo hi payload,
    response = e :: r1 :: lo :: hi :: payload
    /\ data = Codec.decompact_frames (Codec.zero_pad 6 payload)
    /\ len data = databytes
    /\ len data = 8 * ((len payload + 5) / 6)
    /\ (lo + Z.shiftl hi 8) * 2 = databytes * 3 / 4 + 4.
Proof.
  intros H.
  destruct (check_pe_response_short _ _ _ _ H)
    as (e & r1 & lo & hi & payload & ->).
  exists e, r1, lo, hi, payload. split; [done|].
  rewrite check_pe_response_header in H.
  destruct (status_of r1 =? PE_STATUS_FAIL); [done|].
  destruct (status_of r1 =? PE_STATUS_NACK); [done|].
  destruct (negb (cmd_echo_of r1 =? cmd)); [done|].
  destruct (Z.eqb_spec ((lo + Z.shiftl hi 8) * 2) (databytes * 3 / 4 + 4));
    [|done].
  cbn [negb] in H.
  destruct (CodecUseFacts.codec_sizes_decompact payload)
    as (padded & raw & Hd & -> & -> & _ & Hl).
  rewrite Hd in H. cbn in H.
  destruct (Z.eqb_spec
              (len (Codec.decompact_frames (Codec.zero_pad 6 payload)))
              databytes); [|done].
  injection H as <-. done.
Qed.

(** A response is only ever accepted for a number of data bytes that is a
    multiple of 8: the data returned has exactly that many bytes, eight
    for every six (or fewer, at the end) of the payload, and its phantom
    bytes are zero. *)
Theorem pe_response_data_in_whole_frames
    (cmd databytes : Z) (response data : list Z) :
  _check_pe_response cmd databytes response = Ok data ->
  databytes mod 8 = 0
  /\ len data = databytes
  /\ databytes = 8 * ((len response - 4 + 5) / 6)
  /\ Codec.phantom_clear data = true.
Proof.
  intros H.
  destruct (accepted_response_shape _ _ _ _ H)
    as (e & r1 & lo & hi & payload & -> & -> & Hl & Hf & _).
  assert (len (e :: r1 :: lo :: hi :: payload) - 4 = len payload) as ->
    by (unfold len; simpl; lia).
  split; [rewrite <- Hl, Hf; by rewrite Z.mul_comm, Z.mod_mul|].
  split; [done|]. split; [by rewrite <- Hl|].
  destruct (CodecFacts.zero_pad_length 6 payload) as [n Hn]; [lia|].
  by apply (CodecUseFacts.decompact_frames_clear n).
Qed.

Lemma pe_response_data_in_whole_frames_witness :
  _check_pe_response PE_COMMAND_READP 8 [0; 0x12; 5; 0; 1; 2; 3; 4; 5; 6]
  = Ok [1; 2; 3; 0; 5; 6; 4; 0]
  /\ 8 mod 8 = 0
  /\ len [1; 2; 3; 0; 5; 6; 4; 0] = 8.
Proof.
  assert (_check_pe_response PE_COMMAND_READP 8
            [0; 0x12; 5; 0; 1; 2; 3; 4; 5; 6]
          = Ok [1; 2; 3; 0; 5; 6; 4; 0]) as H by reflexivity.
  split; [exact H|].
  destruct (pe_response_data_in_whole_frames _ _ _ _ H) as (? & ? & _).
  by split.
Defined.

(** Reading an odd number of instruction words through the programming
    executive never returns data, whatever the tool answers: the length
    check asks for an odd number of bytes, and the length field counts
    16-bit words. *)
Theorem pe_read_of_odd_count_never_returns
    (invoke_read : Z -> Z -> Z -> outcome (list Z)) (byte_address N : Z)
    (data : list Z) :
  N mod 2 = 1 ->
  read_flash_by_proxy invoke_read byte_address (4 * N) <> Ok data.
Proof.
  intros Hodd H. unfold read_flash_by_proxy in H.
  destruct (invoke_read _ _ _) as [response|e|]; [|done..].
  rewrite bind_ok in H.
  destruct (accepted_response_shape _ _ _ _ H)
    as (e & r1 & lo & hi & payload & _ & _ & _ & _ & Hf).
  revert Hf. generalize (lo + Z.shiftl hi 8). intros L HL.
  replace (4 * N * 3 / 4) with (3 * N) in HL by floor_arith.
  assert (N = 2 * (N / 2) + 1) as HN
    by (pose proof (Z.div_mod N 2 ltac:(lia)); lia).
  lia.
Qed.

Lemma pe_read_of_odd_count_never_returns_witness :
  3 mod 2 = 1
  /\ read_flash_by_proxy (fun _ _ _ => Ok [0; 0x12; 9; 0; 1; 2; 3; 4; 5; 6;
                                         7; 8; 9; 10])
       0x800 (4 * 3)
     <> Ok [1; 2; 3; 0; 5; 6; 4; 0; 7; 8; 9; 0].
Proof.
  split; [reflexivity|].
  apply (pe_read_of_odd_count_never_returns _ 0x800 3). reflexivity.
Defined.

(** Reading an even number [2k] of instruction words: a response of the
    byte count the host asked for, with a status that is neither FAIL nor
    NACK, the READP echo and a length field of [2 + 3k] words, is accepted
    and gives [8k] bytes, the payload expanded frame by frame. *)
Theorem pe_read_of_even_count_accepted
    (invoke_read : Z -> Z -> Z -> outcome (list Z)) (byte_address k : Z)
    (e r1 lo hi : Z) (payload : list Z) :
  0 <= k ->
  invoke_read (_memory_read_bytes_expected_from_pe (8 * k)) byte_address (8 * k)
  = Ok (e :: r1 :: lo :: hi :: payload) ->
  len (e :: r1 :: lo :: hi :: payload)
  = _memory_read_bytes_expected_from_pe (8 * k) ->
  status_of r1 <> PE_STATUS_FAIL -> status_of r1 <> PE_STATUS_NACK ->
  cmd_echo_of r1 = PE_COMMAND_READP ->
  lo + Z.shiftl hi 8 = 2 + 3 * k ->
  read_flash_by_proxy invoke_read byte_address (8 * k)
  = Ok (Codec.decompact_frames payload)
  /\ len (Codec.decompact_frames payload) = 8 * k.
Proof.
  intros Hk Hinv Hlen Hf Hn Hecho Hfield.
  assert (_memory_read_bytes_expected_from_pe (8 * k) = 4 + 6 * k) as Hexp
    by (unfold _memory_read_bytes_expected_from_pe; floor_arith).
  rewrite Hexp in Hlen.
  assert (len payload = 6 * k) as Hp by (unfold len in *; simpl in Hlen; lia).
  assert (length payload = (Z.to_nat k * 6)%nat) as Hfr
    by (unfold len in Hp; lia).
  assert (len (Codec.decompact_frames payload) = 8 * k) as Hd.
  { unfold len. rewrite (CodecUseFacts.decompact_frames_length _ _ Hfr). lia. }
  split; [|done].
  unfold read_flash_by_proxy. rewrite Hinv, bind_ok.
  rewrite check_pe_response_header.
  destruct (Z.eqb_spec (status_of r1) PE_STATUS_FAIL); [done|].
  destruct (Z.eqb_spec (status_of r1) PE_STATUS_NACK); [done|].
  rewrite Hecho, Z.eqb_refl. cbn [negb].
  rewrite Hfield.
  replace (8 * k * 3 / 4 + 4) with ((2 + 3 * k) * 2) by floor_arith.
  rewrite Z.eqb_refl. cbn [negb].
  rewrite (CodecFacts.pic24_decompact_frames _ _ Hfr). cbn.
  by rewrite Hd, Z.eqb_refl.
Qed.

Lemma pe_read_of_even_count_accepted_witness :
  let invoke_read :=
    fun (_ _ _ : Z) => Ok [0; 0x12; 5; 0; 1; 2; 3; 4; 5; 6] in
  0 <= 1
  /\ read_flash_by_proxy invoke_read 0x800 (8 * 1)
     = Ok (Codec.decompact_frames [1; 2; 3; 4; 5; 6]).
Proof.
  intros invoke_read. split; [lia|].
  apply (pe_read_of_even_count_accepted invoke_read 0x800 1 0 0x12 5 0
           [1; 2; 3; 4; 5; 6]);
    try reflexivity; try lia; discriminate.
Defined.

End ProgExecUseFacts.

(** ** The accumulating and the executing proxy *)

Module AccumulatorFacts.
Import Accumulator.

Lemma extend_last_snoc (init : list (list Z)) (element values : list Z) :
  extend_last values (init ++ [element])
  = (Ok tt, init ++ [element ++ values]).
Proof. unfold extend_last. by rewrite last_snoc, removelast_last. Qed.

Lemma byte_of_land (v : Z) : Z.land v 0xFF = v mod 256.
Proof. change 0xFF with (Z.ones 8). by rewrite Z.land_ones by lia. Qed.

Lemma shiftr_is_div (v n : Z) : 0 <= n -> Z.shiftr v n = v / 2 ^ n.
Proof. intros Hn. by apply Z.shiftr_div_pow2. Qed.

(** The appends write little-endian digits to the primitive under
    construction and leave the earlier primitives alone: [append_le16]
    adds two bytes worth [value] modulo 2^16, [append_le32] four bytes
    worth [value] modulo 2^32, for any integer [value]; with no primitive
    started they raise [IndexError] and add nothing. *)
Theorem appends_are_little_endian (value : Z) :
  append_le16 value [] = (Raise IndexError, [])
  /\ append_le32 value [] = (Raise IndexError, [])
  /\ (forall init element,
        exists b0 b1,
          append_le16 value (init ++ [element])
          = (Ok tt, init ++ [element ++ [b0; b1]])
          /\ 0 <= b0 < 256 /\ 0 <= b1 < 256
          /\ b0 + 256 * b1 = value mod 65536)
  /\ (forall init element,
        exists b0 b1 b2 b3,
          append_le32 value (init ++ [element])
          = (Ok tt, init ++ [element ++ [b0; b1; b2; b3]])
          /\ 0 <= b0 < 256 /\ 0 <= b1 < 256
          /\ 0 <= b2 < 256 /\ 0 <= b3 < 256
          /\ b0 + 256 * b1 + 65536 * b2 + 16777216 * b3
             = value mod 4294967296).
Proof.
  split; [done|]. split; [done|]. split.
  - intros init element.
    exists (value mod 256), ((value / 256) mod 256).
    unfold append_le16, mbind, M_bind.
    rewrite !extend_last_snoc, <- !app_assoc.
    rewrite !byte_of_land, !shiftr_is_div by lia.
    change (2 ^ 8) with 256.
    split; [done|]. repeat split; Z.div_mod_to_equations; lia.
  - intros init element.
    exists (value mod 256), ((value / 256) mod 256),
      ((value / 65536) mod 256), ((value / 16777216) mod 256).
    unfold append_le32, mbind, M_bind.
    rewrite !extend_last_snoc, <- !app_assoc.
    rewrite !byte_of_land, !shiftr_is_div by lia.
    change (2 ^ 8) with 256. change (2 ^ 16) with 65536.
    change (2 ^ 24) with 16777216.
    split; [done|]. repeat split; Z.div_mod_to_equations; lia.
Qed.

End AccumulatorFacts.

Module ExecuterFacts.
Import Accumulator Executer.

Section Proxy.

Variable generate_bytestream : list Z -> list Z.
Variable execute : list (list (list Z)) -> outcome (list (list Z)).

Local Abbreviation wire := (fmap generate_bytestream).
Local Abbreviation tp_send_block :=
  (Transport.send_block generate_bytestream execute).
Local Abbreviation tp_sync := (Transport.sync generate_bytestream execute).
Local Abbreviation new_element := (Executer.new_element generate_bytestream execute).
Local Abbreviation sync := (Executer.sync generate_bytestream execute).
Local Abbreviation finalise := (Executer.finalise generate_bytestream execute).
Local Abbreviation do_build := (Executer.do_build generate_bytestream execute).
Local Abbreviation do_builds := (Executer.do_builds generate_bytestream execute).
Local Abbreviation do_use := (Executer.do_use generate_bytestream execute).
Local Abbreviation after_uses := (Executer.after_uses generate_bytestream execute).

(** *** At most one primitive is pending *)

Lemma extend_last_cases (values : list Z) (content : list (list Z)) :
  content = [] /\ extend_last values content = (Raise IndexError, [])
  \/ exists init element,
       content = init ++ [element]
       /\ extend_last values content = (Ok tt, init ++ [element ++ values]).
Proof.
  destruct (last content) as [element|] eqn:E.
  - apply last_Some in E as [init ->]. right. exists init, element.
    split; [done|]. apply AccumulatorFacts.extend_last_snoc.
  - apply last_None in E as ->. by left.
Qed.

Lemma extend_last_length (values : list Z) (content : list (list Z)) :
  length (extend_last values content).2 = length content.
Proof.
  destruct (extend_last_cases values content)
    as [[-> ->]|(init & element & -> & ->)]; [done|].
  cbn [snd]. by rewrite !length_app.
Qed.

Lemma bind_length {A} (m : M PrimitiveAccumulatorProxy A)
    (f : A -> M PrimitiveAccumulatorProxy unit) (content : list (list Z)) :
  length (m content).2 = length content ->
  (forall a c, length (f a c).2 = length c) ->
  length ((m ≫= f) content).2 = length content.
Proof.
  intros Hm Hf. unfold mbind, M_bind.
  destruct (m content) as [[a|e|] c]; cbn [snd] in *; try done.
  by rewrite Hf.
Qed.

Lemma append_length (b : build) (content : list (list Z)) :
  (forall element, b <> NewElement element) ->
  length (Accumulator.do_build b content).2 = length content.
Proof.
  intros Hb. destruct b as [element|v|v|v]; [by destruct (Hb element)|..];
    cbn [Accumulator.do_build]; unfold append_byte, append_le16, append_le32;
    repeat (apply bind_length; [apply extend_last_length|intros _ ?]);
    apply extend_last_length.
Qed.

Lemma inherited_content {A} (m : M PrimitiveAccumulatorProxy A)
    (self : PrimitiveExecuterProxy) :
  _content (inherited m self).2 = (m (_content self)).2.
Proof. unfold inherited. by destruct (m (_content self)). Qed.

Lemma on_transport_content {A} (m : M Transport.TransportProxy A)
    (self : PrimitiveExecuterProxy) :
  _content (on_transport m self).2 = _content self.
Proof. unfold on_transport. by destruct (m (transportproxy self)). Qed.

Lemma send_pending_content (self : PrimitiveExecuterProxy) :
  _content (send_pending generate_bytestream execute self).2 = _content self.
Proof.
  unfold send_pending. destruct (_content self) eqn:E; [done|].
  by rewrite on_transport_content.
Qed.

Lemma new_element_one_pending (element : Z) (self : PrimitiveExecuterProxy) :
  one_pending self -> one_pending (new_element element self).2.
Proof.
  unfold Executer.new_element, one_pending. intros Hs.
  destruct (_content self) as [|block rest] eqn:Hc.
  - unfold mbind, M_bind, mret, M_ret, inherited, Accumulator.new_element.
    cbn. by rewrite Hc.
  - unfold mbind at 1, M_bind at 1. unfold mbind at 1, M_bind at 1.
    pose proof (send_pending_content self) as Hp.
    destruct (send_pending generate_bytestream execute self) as [[[]|e|] s1];
      cbn [snd] in *; [|by rewrite Hp, Hc..].
    unfold inherited, Accumulator.reset, Accumulator.new_element. cbn. lia.
Qed.

Lemma sync_one_pending (numbytes : Z) (self : PrimitiveExecuterProxy) :
  one_pending self -> one_pending (sync numbytes self).2.
Proof.
  unfold Executer.sync, one_pending. intros Hs.
  destruct (_content self) as [|block rest] eqn:Hc; [cbn [snd]; by rewrite Hc|].
  unfold mbind at 1, M_bind at 1.
  pose proof (send_pending_content self) as Hp.
  destruct (send_pending generate_bytestream execute self) as [[[]|e|] s1];
    cbn [snd] in *; [|by rewrite Hp, Hc..].
  unfold mbind at 1, M_bind at 1.
  pose proof (on_transport_content tp_sync s1) as Ht.
  destruct (on_transport tp_sync s1) as [[result|e|] s2];
    cbn [snd] in *; [|by rewrite Ht, Hp, Hc..].
  unfold mbind at 1, M_bind at 1, extend_results.
  destruct (forallb is_byte (slice_to result numbytes));
    [|cbn [snd]; by rewrite Ht, Hp, Hc].
  unfold mbind, M_bind, inherited, reset, mret, M_ret. cbn. lia.
Qed.

Lemma do_use_one_pending (u : use) (self : PrimitiveExecuterProxy) :
  one_pending self -> one_pending (do_use u self).2.
Proof.
  intros Hs. destruct u as [b|numbytes|]; cbn [Executer.do_use].
  - destruct b as [element|v|v|v]; cbn [Executer.do_build];
      [by apply new_element_one_pending|..];
      unfold one_pending; rewrite inherited_content, append_length; done.
  - pose proof (sync_one_pending numbytes self Hs) as H.
    unfold mbind, M_bind. by destruct (sync numbytes self) as [[?|?|] ?].
  - done.
Qed.

(** The executing proxy never holds more than one primitive: however it
    is used, and whatever the transport answers or raises, [_content] has
    at most one element. This also holds when a result holds a value that
    the result accumulator refuses, so that [sync] raises before its
    [reset()]: the primitive just sent is then still the only one held. *)
Theorem executer_holds_one_primitive (us : list use) :
  one_pending (after_uses us Executer.new).
Proof.
  assert (forall self, one_pending self -> one_pending (after_uses us self))
    as H; [|apply H; unfold one_pending; simpl; lia].
  induction us as [|u us IH]; intros self Hs; [done|].
  cbn [Executer.after_uses]. by apply IH, do_use_one_pending.
Qed.

(** *** What is built is what is delivered *)

Local Abbreviation handed_over := (Executer.handed_over generate_bytestream).
Local Abbreviation follows := (Executer.follows generate_bytestream).

Hypothesis one_per_block : Transport.one_response_per_block execute.

Lemma total_size_positive (blocks : list (list Z)) :
  0 < Transport.total_size blocks -> blocks <> [].
Proof. by intros H ->. Qed.

Lemma tp_send_block_ok (tp : Transport.TransportProxy) (block : list Z) :
  sound tp -> len block <= 64 ->
  exists tp',
    tp_send_block block tp = (Ok tt, tp')
    /\ handed_over tp' = handed_over tp ++ [generate_bytestream block]
    /\ sound tp'
    /\ Transport.content tp' <> [].
Proof.
  intros [Hl Hb] Hx. pose proof (len_nonneg block) as Hn.
  pose proof (TransportFacts.total_size_nonneg (Transport.content tp)) as Ht.
  destruct (Transport.must_flush block tp) eqn:Hm.
  - unfold Transport.must_flush in Hm. apply Z.gtb_gt in Hm.
    assert (Transport.content tp <> []) as Hne
      by (apply total_size_positive; lia).
    destruct (one_per_block
                (Transport.executed tp ++ [wire (Transport.content tp)])
                (wire (Transport.content tp)))
      as (results & He & Hr); [by rewrite last_snoc|].
    destruct (TransportFacts.last_nonempty results) as [r Hlast].
    { intros ->. rewrite length_fmap in Hr.
      by destruct (Transport.content tp). }
    eexists. split.
    + apply (TransportFacts.send_block_full _ _ _ _ results r);
        [unfold Transport.must_flush; by apply Z.gtb_gt|done|done].
    + unfold Executer.handed_over, sound, Transport.appended,
        Transport.flushed. cbn.
      split; [by rewrite concat_app; cbn; rewrite app_nil_r|].
      split; [split; [lia|done]|done].
  - eexists. split; [by apply TransportFacts.send_block_fits|].
    unfold Executer.handed_over, sound, Transport.appended. cbn.
    split; [by rewrite fmap_app, app_assoc|].
    split; [split; [rewrite TransportFacts.total_size_app; cbn; lia|done]|].
    by destruct (Transport.content tp).
Qed.

Lemma tp_sync_ok (tp : Transport.TransportProxy) :
  Transport.content tp <> [] ->
  exists result tp',
    tp_sync tp = (Ok result, tp')
    /\ concat (Transport.executed tp') = handed_over tp
    /\ Transport.content tp' = [].
Proof.
  intros Hne.
  destruct (one_per_block
              (Transport.executed tp ++ [wire (Transport.content tp)])
              (wire (Transport.content tp)))
    as (results & He & Hr); [by rewrite last_snoc|].
  destruct (TransportFacts.last_nonempty results) as [r Hlast].
  { intros ->. rewrite length_fmap in Hr. by destruct (Transport.content tp). }
  exists r. eexists. split.
  - by apply (TransportFacts.flush_ok _ _ _ results r).
  - unfold Transport.flushed, Executer.handed_over. cbn.
    split; [by rewrite concat_app; cbn; rewrite app_nil_r|done].
Qed.

(** What an append does to the primitive under construction. *)
Lemma append_shape (b : build) :
  (forall element, b <> NewElement element) ->
  Accumulator.do_build b [] = (Raise IndexError, [])
  /\ exists values, forall init element,
       Accumulator.do_build b (init ++ [element])
       = (Ok tt, init ++ [element ++ values]).
Proof.
  intros Hb. destruct b as [element|v|v|v]; [by destruct (Hb element)|..];
    (split; [done|]); cbn [Accumulator.do_build];
    unfold append_byte, append_le16, append_le32, mbind, M_bind;
    eexists; intros init element;
    rewrite !AccumulatorFacts.extend_last_snoc, <- ?app_assoc; reflexivity.
Qed.

(** Building never touches a primitive once the next one is started. *)
Lemma built_prefix_kept (bs : list build) :
  forall (pre : list (list Z)) (element : list Z) (built : list (list Z)),
    Accumulator.do_builds bs (pre ++ [element]) = (Ok tt, built) ->
    exists tail, built = pre ++ tail.
Proof.
  induction bs as [|b bs IH]; intros pre element built H.
  - injection H as <-. by eexists.
  - cbn [Accumulator.do_builds] in H. unfold mbind, M_bind in H.
    destruct b as [e|v|v|v].
    + cbn [Accumulator.do_build] in H. unfold Accumulator.new_element in H.
      destruct (IH (pre ++ [element]) [e] built H) as [tail ->].
      exists ([element] ++ tail). by rewrite app_assoc.
    + destruct (append_shape (AppendByte v)) as (_ & values & Hs); [done|].
      rewrite Hs in H. by apply IH in H.
    + destruct (append_shape (AppendLe16 v)) as (_ & values & Hs); [done|].
      rewrite Hs in H. by apply IH in H.
    + destruct (append_shape (AppendLe32 v)) as (_ & values & Hs); [done|].
      rewrite Hs in H. by apply IH in H.
Qed.

Lemma run_bind {S A B} (m : M S A) (f : A -> M S B) (s s' : S) (a : A) :
  m s = (Ok a, s') -> (m ≫= f) s = f a s'.
Proof. intros H. unfold mbind, M_bind. by rewrite H. Qed.

Lemma new_element_first (e : Z) (self : PrimitiveExecuterProxy) :
  _content self = [] ->
  new_element e self
  = (Ok tt, {| _content := [[e]]; transportproxy := transportproxy self;
               _result_accumulator := _result_accumulator self |}).
Proof.
  intros Hc. unfold Executer.new_element. rewrite Hc.
  unfold mbind, M_bind, mret, M_ret, inherited, Accumulator.new_element.
  cbn. by rewrite Hc.
Qed.

Lemma new_element_next (e : Z) (self : PrimitiveExecuterProxy)
    (element : list Z) (tp' : Transport.TransportProxy) :
  _content self = [element] ->
  tp_send_block element (transportproxy self) = (Ok tt, tp') ->
  new_element e self
  = (Ok tt, {| _content := [[e]]; transportproxy := tp';
               _result_accumulator := _result_accumulator self |}).
Proof.
  intros Hc Hsend. unfold Executer.new_element. rewrite Hc.
  unfold mbind, M_bind, send_pending, on_transport. rewrite Hc, Hsend.
  unfold inherited, Accumulator.reset, Accumulator.new_element. by cbn.
Qed.

Lemma append_inherited (b : build) (self : PrimitiveExecuterProxy)
    (element values : list Z) :
  _content self = [element] ->
  Accumulator.do_build b [element] = (Ok tt, [element ++ values]) ->
  inherited (Accumulator.do_build b) self
  = (Ok tt, {| _content := [element ++ values];
               transportproxy := transportproxy self;
               _result_accumulator := _result_accumulator self |}).
Proof. intros Hc Hb. unfold inherited. by rewrite Hc, Hb. Qed.

Lemma builds_followed (bs : list build) :
  forall (built0 : list (list Z)) (self0 : PrimitiveExecuterProxy)
         (built : list (list Z)),
    follows built0 self0 ->
    Accumulator.do_builds bs built0 = (Ok tt, built) ->
    Forall (fun element => len element <= 64) built ->
    exists self,
      do_builds bs self0 = (Ok tt, self) /\ follows built self.
Proof.
  induction bs as [|b bs IH]; intros built0 self0 built Hf Hacc Hsmall.
  - injection Hacc as <-. by exists self0.
  - cbn [Accumulator.do_builds Executer.do_builds] in *.
    unfold mbind, M_bind in Hacc.
    destruct Hf as (Hflat & Hsound & Hpending).
    assert (forall values init element,
      (forall init' element',
         Accumulator.do_build b (init' ++ [element'])
         = (Ok tt, init' ++ [element' ++ values])) ->
      do_build b = inherited (Accumulator.do_build b) ->
      built0 = init ++ [element] -> _content self0 = [element] ->
      exists self,
        (_ ← do_build b; do_builds bs) self0 = (Ok tt, self)
        /\ follows built self) as Happend.
    { intros values init element Hs Hb -> Hc. rewrite Hs in Hacc.
      rewrite (run_bind _ _ _ _ _
                 (eq_trans (f_equal (fun m => m self0) Hb)
                    (append_inherited b self0 element values Hc
                       (Hs [] element)))).
      apply (IH (init ++ [element ++ values]) _ built); [|done|done].
      split; [|split; [done|right; by eexists _, _]].
      cbn [transportproxy _content].
      rewrite Hc, fmap_app in Hflat. apply app_inj_tail in Hflat as [-> _].
      by rewrite fmap_app. }
    destruct b as [e|v|v|v].
    + (* new_element *)
      cbn [Accumulator.do_build] in Hacc.
      unfold Accumulator.new_element in Hacc.
      cbn [Executer.do_build].
      destruct Hpending as [[Hc ->]|(init & element & -> & Hc)].
      * rewrite (run_bind _ _ _ _ _ (new_element_first e self0 Hc)).
        apply (IH [[e]] _ built); [|done|done].
        rewrite Hc in Hflat. cbn in Hflat. rewrite app_nil_r in Hflat.
        split; [cbn; by rewrite Hflat|]. split; [done|].
        right. by exists [], [e].
      * destruct (built_prefix_kept _ _ _ _ Hacc) as [tail Htail].
        assert (len element <= 64) as Hel.
        { rewrite Htail in Hsmall.
          apply Forall_app in Hsmall as [Hsmall _].
          apply Forall_app in Hsmall as [_ Hsmall].
          by inversion Hsmall. }
        destruct (tp_send_block_ok _ element Hsound Hel)
          as (tp' & Hsend & Hflat' & Hsound' & _).
        rewrite (run_bind _ _ _ _ _
                   (new_element_next e self0 element tp' Hc Hsend)).
        apply (IH ((init ++ [element]) ++ [[e]]) _ built); [|done|done].
        split; [|split; [done|right; by eexists _, _]].
        cbn [transportproxy _content]. rewrite Hflat'.
        rewrite Hc in Hflat. rewrite fmap_app, <- Hflat.
        by rewrite <- !app_assoc.
    + destruct (append_shape (AppendByte v)) as (He & values & Hs); [done|].
      destruct Hpending as [[Hc ->]|(init & element & -> & Hc)];
        [by rewrite He in Hacc|].
      by apply (Happend values init element).
    + destruct (append_shape (AppendLe16 v)) as (He & values & Hs); [done|].
      destruct Hpending as [[Hc ->]|(init & element & -> & Hc)];
        [by rewrite He in Hacc|].
      by apply (Happend values init element).
    + destruct (append_shape (AppendLe32 v)) as (He & values & Hs); [done|].
      destruct Hpending as [[Hc ->]|(init & element & -> & Hc)];
        [by rewrite He in Hacc|].
      by apply (Happend values init element).
Qed.

(** With a transport that answers one response per block, and primitives
    of at most 64 entries each, the executing proxy delivers exactly what
    the accumulating proxy would have built from the same calls: after
    [finalise()] the blocks executed by the transport, call after call,
    are the encoded primitives in order, each once, and nothing is left
    pending. *)
Theorem executing_delivers_what_is_built
    (bs : list build) (built : list (list Z)) :
  Accumulator.do_builds bs [] = (Ok tt, built) ->
  Forall (fun element => len element <= 64) built ->
  exists self,
    (_ ← do_builds bs; finalise) Executer.new = (Ok tt, self)
    /\ _content self = []
    /\ Transport.content (transportproxy self) = []
    /\ delivered self = wire built.
Proof.
  intros Hacc Hsmall.
  destruct (builds_followed bs [] Executer.new built) as (s1 & Hrun & Hf);
    [|done|done|].
  { split; [done|]. split; [done|]. by left. }
  unfold mbind at 1, M_bind at 1. rewrite Hrun.
  destruct Hf as (Hflat & Hsound & Hpending).
  unfold Executer.finalise, Executer.sync, mbind, M_bind.
  destruct Hpending as [[Hc ->]|(init & element & -> & Hc)]; rewrite Hc.
  - exists s1. unfold mret, M_ret. split; [done|]. split; [done|].
    rewrite Hc in Hflat. cbn in Hflat. rewrite app_nil_r in Hflat.
    apply app_eq_nil in Hflat as [Hex Hct].
    split; [by apply fmap_nil_inv in Hct|done].
  - assert (len element <= 64) as Hel.
    { apply Forall_app in Hsmall as [_ Hsmall]. by inversion Hsmall. }
    destruct (tp_send_block_ok _ element Hsound Hel)
      as (tp' & Hsend & Hflat' & Hsound' & Hne).
    unfold send_pending, on_transport. rewrite Hc, Hsend.
    cbn [transportproxy].
    destruct (tp_sync_ok tp' Hne) as (result & tp'' & Hsync & Hex & Hct).
    rewrite Hsync. cbn.
    eexists. split; [reflexivity|]. cbn.
    split; [done|]. split; [done|].
    unfold delivered. cbn. rewrite Hex, Hflat'.
    by rewrite Hc in Hflat.
Qed.

End Proxy.

(** A result the accumulator refuses: [sync] raises after the block was
    sent, and the primitive is still held. *)
Example sync_refuses_a_value :
  let self :=
    (Executer.do_build id Transport.echo (NewElement 300) Executer.new).2 in
  (Executer.sync id Transport.echo 1 self).1 = Raise ValueError
  /\ _content (Executer.sync id Transport.echo 1 self).2 = [[300]]
  /\ Transport.executed (transportproxy (Executer.sync id Transport.echo 1 self).2)
     = [[[300]]].
Proof. by vm_compute. Qed.

Lemma executing_delivers_what_is_built_witness :
  Transport.one_response_per_block Transport.echo
  /\ Accumulator.do_builds
       [NewElement 1; AppendByte 2; NewElement 3; AppendLe16 0x1234] []
     = (Ok tt, [[1; 2]; [3; 0x34; 0x12]])
  /\ Forall (fun element => len element <= 64) [[1; 2]; [3; 0x34; 0x12]]
  /\ exists self,
       (_ ← Executer.do_builds id Transport.echo
              [NewElement 1; AppendByte 2; NewElement 3; AppendLe16 0x1234];
        Executer.finalise id Transport.echo) (Executer.new)
       = (Ok tt, self)
       /\ _content self = []
       /\ Transport.content (transportproxy self) = []
       /\ delivered self = id <$> [[1; 2]; [3; 0x34; 0x12]].
Proof.
  assert (Forall (fun element => len element <= 64) [[1; 2]; [3; 0x34; 0x12]])
    as Hsmall by (repeat constructor; vm_compute; discriminate).
  split; [exact TransportFacts.echo_one_response_per_block|].
  split; [reflexivity|]. split; [exact Hsmall|].
  apply (executing_delivers_what_is_built id Transport.echo
           TransportFacts.echo_one_response_per_block
           [NewElement 1; AppendByte 2; NewElement 3; AppendLe16 0x1234]
           [[1; 2]; [3; 0x34; 0x12]]); [reflexivity|exact Hsmall].
Defined.

End ExecuterFacts.

(** ** Blocks, chunks and rows *)

Module DebuggerUseFacts.
Import Debugger DebuggerUse.

Local Abbreviation slices n data :=
  ((fun i => take n (drop i data)) <$> py_range (length data) n).

Lemma slices_nil (n : nat) : (0 < n)%nat -> slices n (@nil Z) = [].
Proof.
  intros Hn. unfold py_range. cbn [length].
  rewrite Nat.div_small by lia. done.
Qed.

Lemma slices_cons (n : nat) (data : list Z) :
  (0 < n)%nat -> data <> [] ->
  slices n data = take n data :: slices n (drop n data).
Proof.
  intros Hn Hne. unfold py_range. rewrite length_drop.
  assert (0 < length data)%nat as Hl by (destruct data; [done|cbn; lia]).
  assert ((length data + n - 1) / n
          = S ((length data - n + n - 1) / n))%nat as ->.
  { destruct (Nat.le_gt_cases (length data) n) as [Hle|Hgt].
    - replace (length data - n)%nat with 0%nat by lia.
      rewrite (Nat.div_small (0 + n - 1)) by lia.
      symmetry. apply Nat.div_unique with (r := (length data - 1)%nat); lia.
    - replace (length data + n - 1)%nat
        with (1 * n + (length data - n + n - 1))%nat by lia.
      rewrite Nat.div_add_l by lia. lia. }
  cbn [seq fmap list_fmap]. rewrite Nat.mul_0_l, drop_0. f_equal.
  rewrite <- fmap_S_seq, <- !list_fmap_compose.
  apply list_fmap_ext. intros _ k _. cbn.
  rewrite drop_drop. by do 2 f_equal.
Qed.

Lemma slices_one (n : nat) (data : list Z) :
  (0 < n)%nat -> data <> [] -> (length data <= n)%nat ->
  slices n data = [data].
Proof.
  intros Hn Hne Hl. rewrite slices_cons by done.
  rewrite take_ge, drop_ge by lia. by rewrite slices_nil.
Qed.

(** [chunks] cuts the data into consecutive pieces: put end to end the
    chunks are the data, no chunk is empty or longer than [chunk_size],
    and every chunk before the last has exactly [chunk_size] entries. A
    chunk size of zero is refused. *)
Theorem chunks_partition (data : list Z) (chunk_size : Z) :
  chunks data 0 = Raise ValueError
  /\ (0 < chunk_size ->
      exists todo,
        chunks data chunk_size = Ok todo
        /\ concat todo = data
        /\ Forall (fun chunk => 0 < len chunk <= chunk_size) todo
        /\ Forall (fun chunk => len chunk = chunk_size) (removelast todo)).
Proof.
  split; [done|]. intros Hc. unfold chunks.
  destruct (Z.eqb_spec chunk_size 0) as [|_]; [lia|].
  destruct (Z.ltb_spec chunk_size 0) as [|_]; [lia|].
  eexists. split; [reflexivity|].
  set (n := Z.to_nat chunk_size).
  assert (0 < n)%nat as Hn by lia.
  assert (chunk_size = Z.of_nat n) as Hcs by lia.
  clearbody n. subst chunk_size. clear Hc.
  remember (length data) as m eqn:Hm. revert data Hm.
  induction (lt_wf m) as [m _ IH]. intros data ->.
  destruct data as [|d data]; [by rewrite slices_nil|].
  rewrite slices_cons by done.
  set (all := d :: data) in *.
  assert (0 < length all)%nat as Hl by (cbn; lia).
  destruct (IH (length (drop n all))) with (data := drop n all)
    as (Hcat & Hsize & Hfull); [rewrite length_drop; lia|done|].
  split; [|split].
  - cbn [concat]. by rewrite Hcat, take_drop.
  - apply Forall_cons. split; [|done]. unfold len.
    rewrite length_take. lia.
  - destruct (decide (drop n all = [])) as [E|E].
    + rewrite E, slices_nil by done. constructor.
    + rewrite (slices_cons n (drop n all)) in Hfull |- * by done.
      set (rest := slices n (drop n (drop n all))) in *.
      change (Forall (fun chunk => len chunk = Z.of_nat n)
                (take n all :: removelast (take n (drop n all) :: rest))).
      apply Forall_cons. split; [|done]. unfold len.
      rewrite length_take.
      assert (n < length all)%nat; [|lia].
      destruct (Nat.le_gt_cases (length all) n); [|done].
      by rewrite drop_ge in E.
Qed.

Lemma chunks_partition_witness :
  0 < 2
  /\ exists todo,
       chunks [1; 2; 3; 4; 5] 2 = Ok todo
       /\ concat todo = [1; 2; 3; 4; 5]
       /\ Forall (fun chunk => 0 < len chunk <= 2) todo
       /\ Forall (fun chunk => len chunk = 2) (removelast todo).
Proof.
  split; [lia|]. apply (chunks_partition [1; 2; 3; 4; 5] 2). lia.
Defined.

(** *** Padding to whole rows *)

Lemma mod_abs_zero (n m : Z) : n mod m = 0 <-> n mod Z.abs m = 0.
Proof.
  destruct (Z.eq_dec m 0) as [->|Hm]; [done|].
  rewrite !Z.mod_divide by lia. symmetry. apply Z.divide_abs_l.
Qed.

Lemma append_while_abs (fill : Z) (fuel : nat) :
  forall (m : Z) (data : list Z),
    m <> 0 ->
    append_while fuel m fill data = append_while fuel (Z.abs m) fill data.
Proof.
  induction fuel as [|fuel IH]; intros m data Hm; [done|].
  cbn [append_while].
  destruct (Z.eqb_spec m 0) as [|_]; [done|].
  destruct (Z.eqb_spec (Z.abs m) 0) as [|_]; [lia|].
  destruct (Z.eqb_spec (len data mod m) 0) as [E|E];
    destruct (Z.eqb_spec (len data mod Z.abs m) 0) as [F|F];
    try done; try (by apply mod_abs_zero in E); try (by apply mod_abs_zero in F).
  by apply IH.
Qed.

(** The bytes [pad] adds. *)
Local Abbreviation shortfall data pagesize :=
  (Z.to_nat ((- len data) mod Z.abs pagesize)).

Lemma pad_any (data : list Z) (pagesize : Z) :
  pagesize <> 0 ->
  pad data pagesize = Ok (data ++ replicate (shortfall data pagesize) 0xFF).
Proof.
  intros Hp. unfold pad. rewrite append_while_abs by done.
  apply append_while_shortfall; [lia|].
  pose proof (shortfall_lt (len data) (Z.abs pagesize) ltac:(lia)). lia.
Qed.

Lemma padded_whole (data : list Z) (pagesize : Z) :
  pagesize <> 0 ->
  len (data ++ replicate (shortfall data pagesize) 0xFF) mod pagesize = 0.
Proof.
  intros Hp. apply mod_abs_zero.
  rewrite len_app. unfold len at 2. rewrite length_replicate.
  pose proof (Z.mod_pos_bound (- len data) (Z.abs pagesize) ltac:(lia)).
  rewrite Z2Nat.id by lia. rewrite Zplus_mod_idemp_r.
  replace (len data + - len data) with 0 by lia. apply Z.mod_0_l. lia.
Qed.

Lemma shortfall_whole (data : list Z) (pagesize : Z) :
  pagesize <> 0 -> len data mod pagesize = 0 ->
  shortfall data pagesize = 0%nat.
Proof.
  intros Hp Hw. apply mod_abs_zero in Hw.
  rewrite Z.mod_opp_l_z by lia. done.
Qed.

Lemma is_blank_app (a b : list Z) :
  is_blank (a ++ b) = is_blank a && is_blank b.
Proof.
  induction a as [|d a IH]; [done|]. cbn [app is_blank].
  by destruct (negb (d =? 255)).
Qed.

Lemma is_blank_replicate (k : nat) : is_blank (replicate k 0xFF) = true.
Proof. induction k as [|k IH]; [done|]. by cbn. Qed.

(** [pad] fills the last row with 0xFF: it adds fewer bytes than a row
    has, the result is a whole number of rows, data that is whole rows
    already comes back as it is, padding twice is padding once, and the
    padded data is blank exactly when the data is. A row size of zero
    makes it raise. *)
Theorem pad_fills_last_row (data : list Z) (pagesize : Z) :
  pad data 0 = Raise ZeroDivisionError
  /\ (pagesize <> 0 ->
      exists fill,
        pad data pagesize = Ok (data ++ replicate fill 0xFF)
        /\ Z.of_nat fill < Z.abs pagesize
        /\ len (data ++ replicate fill 0xFF) mod pagesize = 0
        /\ (len data mod pagesize = 0 -> fill = 0%nat)
        /\ pad (data ++ replicate fill 0xFF) pagesize
           = Ok (data ++ replicate fill 0xFF)
        /\ is_blank (data ++ replicate fill 0xFF) = is_blank data).
Proof.
  split; [done|]. intros Hp. exists (shortfall data pagesize).
  split; [by apply pad_any|].
  split.
  { pose proof (Z.mod_pos_bound (- len data) (Z.abs pagesize) ltac:(lia)).
    lia. }
  split; [by apply padded_whole|].
  split; [by apply shortfall_whole|].
  split.
  - rewrite pad_any by done.
    rewrite (shortfall_whole _ pagesize Hp (padded_whole data pagesize Hp)).
    cbn [replicate]. by rewrite app_nil_r.
  - by rewrite is_blank_app, is_blank_replicate, andb_true_r.
Qed.

Lemma pad_fills_last_row_witness :
  512 <> 0
  /\ exists fill,
       pad [1; 2; 3] 512 = Ok ([1; 2; 3] ++ replicate fill 0xFF)
       /\ Z.of_nat fill < Z.abs 512
       /\ len ([1; 2; 3] ++ replicate fill 0xFF) mod 512 = 0
       /\ (len [1; 2; 3] mod 512 = 0 -> fill = 0%nat)
       /\ pad ([1; 2; 3] ++ replicate fill 0xFF) 512
          = Ok ([1; 2; 3] ++ replicate fill 0xFF)
       /\ is_blank ([1; 2; 3] ++ replicate fill 0xFF) = is_blank [1; 2; 3].
Proof.
  split; [lia|]. apply (pad_fills_last_row [1; 2; 3] 512). lia.
Defined.

(** *** Writing the executives *)

Section Executives.

Variable tool : list call -> outcome (list Z).
Variable device_object : PicDevice.

Local Abbreviation write_chunks := (write_chunks tool device_object).
Local Abbreviation _write_flash_block := (_write_flash_block tool device_object).
Local Abbreviation write_pe_memory := (write_pe_memory tool device_object).
Local Abbreviation write_de_memory := (write_de_memory tool device_object).
Local Abbreviation padded data pagesize :=
  (data ++ replicate (shortfall data pagesize) 0xFF).

Lemma shortfall_drop (n : nat) (data : list Z) (pagesize : Z) :
  pagesize <> 0 -> Z.of_nat n mod pagesize = 0 -> (n < length data)%nat ->
  shortfall (drop n data) pagesize = shortfall data pagesize.
Proof.
  intros Hp Hn Hl. f_equal. unfold len. rewrite length_drop.
  apply mod_abs_zero, Z.mod_divide in Hn as [q Hq]; [|lia].
  replace (- Z.of_nat (length data - n))
    with (- Z.of_nat (length data) + q * Z.abs pagesize) by lia.
  apply Z.mod_add. lia.
Qed.

Lemma padded_fits (n : nat) (data : list Z) (pagesize : Z) :
  pagesize <> 0 -> Z.of_nat n mod pagesize = 0 -> (length data <= n)%nat ->
  (length (padded data pagesize) <= n)%nat.
Proof.
  intros Hp Hn Hl.
  pose proof (padded_whole data pagesize Hp) as Hw.
  apply mod_abs_zero, Z.mod_divide in Hn as [q Hq]; [|lia].
  apply mod_abs_zero, Z.mod_divide in Hw as [r Hr]; [|lia].
  pose proof (Z.mod_pos_bound (- len data) (Z.abs pagesize) ltac:(lia)) as Hb.
  unfold len in *. rewrite length_app, length_replicate in Hr |- *.
  set (k := (- Z.of_nat (length data)) mod Z.abs pagesize) in *.
  set (A := Z.abs pagesize) in *.
  assert (r * A < (q + 1) * A) by lia.
  assert (r <= q) by nia.
  assert (r * A <= q * A) by nia.
  lia.
Qed.

Lemma bind_congr {S A B} (m : M S A) (f g : A -> M S B) (s : S) :
  (forall a s', f a s' = g a s') -> (m ≫= f) s = (m ≫= g) s.
Proof.
  intros H. unfold mbind, M_bind.
  destruct (m s) as [[a|e|] s']; [apply H|done|done].
Qed.

(** Padding the block before it is cut into chunks changes nothing: each
    chunk is padded again before it is written. *)
Lemma write_chunks_padded (n : nat) (pagesize : Z) :
  (0 < n)%nat -> pagesize <> 0 -> Z.of_nat n mod pagesize = 0 ->
  forall (data : list Z) (byte_address : Z) (s : Gen4WrapperDebugger),
    write_chunks (slices n (padded data pagesize)) byte_address
      (Z.of_nat n) pagesize s
    = write_chunks (slices n data) byte_address (Z.of_nat n) pagesize s.
Proof.
  intros Hn Hp Hd data.
  remember (length data) as m eqn:Hm. revert data Hm.
  induction (lt_wf m) as [m _ IH]. intros data -> a s.
  destruct (decide (data = [])) as [->|Hne]; [done|].
  assert (padded data pagesize <> []) as Hpne by (by destruct data).
  destruct (Nat.le_gt_cases (length data) n) as [Hle|Hgt].
  - rewrite (slices_one n data), (slices_one n (padded data pagesize));
      [|done|done|by apply padded_fits|done..].
    cbn [Debugger.write_chunks].
    rewrite is_blank_app, is_blank_replicate, andb_true_r.
    rewrite (pad_any data), (pad_any (padded data pagesize)) by done.
    rewrite (shortfall_whole _ pagesize Hp (padded_whole data pagesize Hp)).
    cbn [replicate]. by rewrite app_nil_r.
  - rewrite (slices_cons n data), (slices_cons n (padded data pagesize))
      by done.
    rewrite take_app_le, drop_app_le by lia.
    rewrite <- (shortfall_drop n data pagesize) by done.
    cbn [Debugger.write_chunks]. apply bind_congr. intros _ s1.
    apply (IH (length (drop n data))); [rewrite length_drop; lia|done].
Qed.

(** [write_de_memory] hands the block to [_write_flash_block] as it is
    and [write_pe_memory] hands over the padded block: whatever the row
    size of the device, the data, the state and the answers of the tool,
    both make the same calls, leave the same state and end the same
    way. *)
Theorem executives_written_alike (byte_address : Z) (data : list Z)
    (s : Gen4WrapperDebugger) :
  write_de_memory byte_address data s = write_pe_memory byte_address data s.
Proof.
  unfold DebuggerUse.write_de_memory, DebuggerUse.write_pe_memory.
  set (pagesize := get_flash_write_row_size_bytes device_object).
  destruct (Z.eq_dec pagesize 0) as [E|Hp].
  - rewrite E. done.
  - rewrite (pad_any data pagesize Hp).
    unfold mbind, M_bind, lift. unfold Debugger._write_flash_block.
    fold pagesize. destruct (Z.eqb_spec pagesize 0) as [|_]; [done|].
    cbv zeta. set (chunksize := 512 - 512 mod pagesize).
    unfold chunks.
    destruct (Z.eqb_spec chunksize 0) as [|Hc0]; [done|].
    destruct (Z.ltb_spec chunksize 0) as [|Hc]; [done|].
    unfold mbind, M_bind, lift.
    assert (chunksize = Z.of_nat (Z.to_nat chunksize)) as Hn by lia.
    set (n := Z.to_nat chunksize) in *. rewrite Hn. symmetry.
    apply write_chunks_padded; [lia|done|].
    rewrite <- Hn. unfold chunksize. apply Z.mod_divide; [done|].
    exists (512 / pagesize).
    pose proof (Z.div_mod 512 pagesize Hp). lia.
Qed.

End Executives.

(** *** Repeating and combining mode calls *)

Section ModeCalls.

Variable tool : list call -> outcome (list Z).

Local Abbreviation exit_tmod := (exit_tmod tool).
Local Abbreviation enter_tmod := (enter_tmod tool).
Local Abbreviation enter_tmod_pe := (enter_tmod_pe tool).
Local Abbreviation do_mode_call := (do_mode_call tool).
Local Abbreviation after_mode_calls := (after_mode_calls tool).

Lemma discard_result {S A} (m : M S A) (s s' : S) :
  (_ ← m; mret tt) s = (Ok tt, s') -> exists a, m s = (Ok a, s').
Proof.
  unfold mbind, M_bind, mret, M_ret.
  destruct (m s) as [[a|e|] s1]; intros [=]. subst. by exists a.
Qed.

Lemma discard_state {S A} (m : M S A) (s : S) :
  ((_ ← m; mret tt) s).2 = (m s).2.
Proof.
  unfold mbind, M_bind, mret, M_ret. by destruct (m s) as [[a|e|] s1].
Qed.

(** A mode call that returned has settled the mode: made again at once,
    the same call returns without a single call on the tool and leaves
    the debugger as it is. *)
Theorem mode_call_repeated (c : mode_call) (s s' : Gen4WrapperDebugger) :
  do_mode_call c s = (Ok tt, s') -> do_mode_call c s' = (Ok tt, s').
Proof.
  destruct c; cbn [Debugger.do_mode_call]; intros Hrun.
  - assert (_in_tmod s' = true) as Ht.
    { destruct (_in_tmod s) eqn:Ht.
      - unfold Debugger.enter_tmod in Hrun. rewrite Ht in Hrun.
        by injection Hrun as <-.
      - destruct (DebuggerFacts.enter_tmod_summary tool s Ht)
          as (evs & _ & _ & Hok & _).
        rewrite Hrun in Hok. by destruct (Hok eq_refl) as (? & _). }
    unfold Debugger.enter_tmod. by rewrite Ht.
  - apply discard_result in Hrun as [v Hrun].
    assert (_in_tmod_pe s' = true) as Hp.
    { destruct (_in_tmod_pe s) eqn:Hp.
      - unfold Debugger.enter_tmod_pe in Hrun. rewrite Hp in Hrun.
        by injection Hrun as _ <-.
      - destruct (DebuggerFacts.enter_tmod_pe_summary tool s Hp)
          as (evs & _ & _ & Hok & _).
        rewrite Hrun in Hok.
        by destruct (Hok (ex_intro _ v eq_refl)) as (_ & ? & _). }
    unfold mbind, M_bind, Debugger.enter_tmod_pe. by rewrite Hp.
  - destruct (DebuggerFacts.exit_tmod_summary tool s)
      as (evs & _ & [(_ & Ht & Hp & _)|(Hno & _)]);
      rewrite Hrun in *; [|done].
    cbn [snd] in *. unfold Debugger.exit_tmod. by rewrite Ht, Hp.
Qed.

Lemma do_mode_call_quiet (c : mode_call) (s : Gen4WrapperDebugger) :
  exists evs, quiet s (do_mode_call c s).2 evs.
Proof.
  assert (quiet s s []) as Hnone
    by (unfold quiet; by rewrite app_nil_r).
  destruct c; cbn [Debugger.do_mode_call].
  - destruct (_in_tmod s) eqn:Ht.
    + exists []. unfold Debugger.enter_tmod. by rewrite Ht.
    + destruct (DebuggerFacts.enter_tmod_summary tool s Ht) as (evs & H & _).
      by exists evs.
  - rewrite discard_state. destruct (_in_tmod_pe s) eqn:Hp.
    + exists []. unfold Debugger.enter_tmod_pe. by rewrite Hp.
    + destruct (DebuggerFacts.enter_tmod_pe_summary tool s Hp)
        as (evs & H & _).
      by exists evs.
  - destruct (DebuggerFacts.exit_tmod_summary tool s) as (evs & H & _).
    by exists evs.
Qed.

(** Changing mode never writes flash: whatever sequence of mode calls is
    made from whatever state, and whatever the tool answers, no call made
    on the way is a page write, and [use_pe] and [_is_running] are left
    as they were. *)
Theorem mode_calls_never_write (cs : list mode_call)
    (s : Gen4WrapperDebugger) :
  exists evs,
    calls (after_mode_calls cs s) = calls s ++ evs
    /\ page_writes evs = []
    /\ use_pe (after_mode_calls cs s) = use_pe s
    /\ _is_running (after_mode_calls cs s) = _is_running s.
Proof.
  change (exists evs, quiet s (after_mode_calls cs s) evs).
  revert s. induction cs as [|c cs IH]; intros s.
  - exists []. unfold quiet. by rewrite app_nil_r.
  - cbn [Debugger.after_mode_calls].
    destruct (do_mode_call_quiet c s) as (e1 & H1).
    destruct (IH (do_mode_call c s).2) as (e2 & H2).
    exists (e1 ++ e2). by apply (DebuggerFacts.quiet_trans _ _ _ _ _ H1 H2).
Qed.

End ModeCalls.

Lemma mode_call_repeated_witness :
  do_mode_call healthy_tool call_enter_tmod_pe init
  = (Ok tt, (do_mode_call healthy_tool call_enter_tmod_pe init).2)
  /\ do_mode_call healthy_tool call_enter_tmod_pe
       (do_mode_call healthy_tool call_enter_tmod_pe init).2
     = (Ok tt, (do_mode_call healthy_tool call_enter_tmod_pe init).2).
Proof.
  assert (do_mode_call healthy_tool call_enter_tmod_pe init
          = (Ok tt, (do_mode_call healthy_tool call_enter_tmod_pe init).2))
    as Hrun by reflexivity.
  split; [exact Hrun|].
  exact (mode_call_repeated healthy_tool call_enter_tmod_pe init _ Hrun).
Defined.

(** *** Reading flash in debug mode, chunk by chunk *)

Section DebugReadFlash.

Variable tool : list call -> outcome (list Z).

Local Abbreviation read_flash_loop := (read_flash_loop tool).
Local Abbreviation debug_read_flash := (debug_read_flash tool).
Local Abbreviation gives_data :=
  (forall made, exists b bs, tool made = Ok (b :: bs)).

(** The chunk of a turn that starts at a multiple of four. *)
Lemma temp_chunk_aligned (byte_address numbytes_actual : Z) :
  let temp := temp_chunk_size_bytes byte_address 504 numbytes_actual in
  byte_address mod 4 = 0 -> 0 < numbytes_actual ->
  0 < temp <= 504
  /\ temp <= numbytes_actual
  /\ (temp = numbytes_actual \/ (byte_address + (temp * 4) / 3) mod 4 = 0).
Proof.
  unfold temp_chunk_size_bytes. intros Ha Hn.
  destruct (Z.ltb_spec byte_address 131072); cbn [andb];
    [destruct (Z.geb_spec (byte_address + 504 * 4 / 3) 131072)|];
    floor_arith.
Qed.

Lemma read_flash_loop_aligned (fuel : nat) :
  gives_data ->
  forall byte_address numbytes_actual result s,
    numbytes_actual <= 0 \/ byte_address mod 4 = 0 ->
    Z.max 0 numbytes_actual < Z.of_nat fuel ->
    exists data s' evs,
      read_flash_loop fuel byte_address numbytes_actual 504 result s
      = (Ok (result ++ data), s')
      /\ calls s' = calls s ++ evs
      /\ Forall within_chunk evs
      /\ requested evs = Z.max 0 numbytes_actual.
Proof.
  intros Hdata. induction fuel as [|fuel IH]; intros a n result s Ha Hf;
    [lia|].
  destruct (Z.gtb_spec n 0) as [Hn|Hn].
  - destruct Ha as [|Ha]; [lia|].
    destruct (temp_chunk_aligned a n Ha Hn) as (Ht & Hle & Hnext).
    set (temp := temp_chunk_size_bytes a 504 n) in *.
    set (ev := de_read_flash_chunk a
                 (DebugExec.de_command_read_flash (a / 2) temp) temp).
    destruct (Hdata (calls s ++ [ev])) as (b & bs & Hreply).
    rewrite (DebuggerFacts.read_flash_loop_step tool fuel a n 504 result s
               b bs); [|by rewrite Z.gtb_ltb; apply Z.ltb_lt|done].
    fold temp. fold ev.
    destruct (IH (a + temp * 4 / 3) (n - temp) (result ++ b :: bs)
                (called ev (_is_running s) s))
      as (data & s' & evs & Hrun & Hcalls & Hin & Hreq);
      [destruct Hnext; [left; lia|by right]|lia|].
    exists (b :: bs ++ data), s', (ev :: evs).
    split; [by rewrite Hrun, <- app_assoc|].
    split; [by rewrite Hcalls; cbn; rewrite <- app_assoc|].
    split; [by constructor|].
    change (requested (ev :: evs)) with (temp + requested evs).
    rewrite Hreq. lia.
  - exists [], s, [].
    rewrite DebuggerFacts.read_flash_loop_done
      by (rewrite Z.gtb_ltb; apply Z.ltb_ge; lia).
    rewrite !app_nil_r. split; [done|]. split; [done|].
    split; [constructor|]. cbn. lia.
Qed.

(** From a start address that is a multiple of four, and with a tool that
    gives data for every chunk, [debug_read_flash] always ends: it
    returns after asking for chunks of 1 to 504 packed bytes that add up
    to the [numbytes * 3 // 4] packed bytes wanted, no more and no
    less. *)
Theorem debug_read_flash_asks_for_all (byte_address numbytes : Z)
    (fuel : nat) (s : Gen4WrapperDebugger) :
  gives_data ->
  byte_address mod 4 = 0 ->
  Z.max 0 ((numbytes * 3) / 4) < Z.of_nat fuel ->
  exists data s' evs,
    debug_read_flash fuel byte_address numbytes s = (Ok data, s')
    /\ calls s' = calls s ++ evs
    /\ Forall within_chunk evs
    /\ requested evs = Z.max 0 ((numbytes * 3) / 4).
Proof.
  intros Hdata Ha Hf. unfold Debugger.debug_read_flash.
  change (512 - 512 mod DebugExec.de_read_flash_pack_size) with 504.
  destruct (read_flash_loop_aligned fuel Hdata byte_address
              (numbytes * 3 / 4) [] s) as (data & s' & evs & Hrun & H);
    [by right|done|].
  by exists data, s', evs.
Qed.

(** One byte below the boundary the loop asks for nothing and stays where
    it is. *)
Lemma read_flash_loop_stuck (fuel : nat) :
  forall numbytes_actual result s,
    0 < numbytes_actual ->
    let run := read_flash_loop fuel 0x1FFFF numbytes_actual 504 result s in
    (exists evs,
       calls run.2 = calls s ++ evs
       /\ Forall below_boundary evs
       /\ requested evs = 0)
    /\ (gives_data -> run.1 = Diverge).
Proof.
  induction fuel as [|fuel IH]; intros n result s Hn; cbv zeta.
  - split; [|done]. exists []. by rewrite app_nil_r.
  - cbn [Debugger.read_flash_loop].
    destruct (Z.gtb_spec n 0) as [_|]; [|lia].
    assert (temp_chunk_size_bytes 0x1FFFF 504 n = 0) as ->.
    { unfold temp_chunk_size_bytes.
      change ((131071 <? 131072)
              && (131071 + 504 * 4 / 3 >=? 131072)) with true.
      change ((131072 - 131071) * 3 / 4) with 0. cbv iota.
      destruct (Z.gtb_spec 0 n); [lia|done]. }
    unfold mbind, M_bind, invoke.
    set (ev := de_read_flash_chunk 0x1FFFF _ 0).
    assert (below_boundary ev) as Hev by (by cbn).
    destruct (tool (calls s ++ [ev])) as [chunk|e|] eqn:Hreply.
    + destruct chunk as [|b chunk].
      * split.
        -- exists [ev]. split; [done|]. split; [by constructor|done].
        -- intros Hdata. destruct (Hdata (calls s ++ [ev])) as (? & ? & H).
           congruence.
      * change (131071 + 0 * 4 / 3) with 131071.
        replace (n - 0) with n by lia.
        match goal with
        | |- context [Debugger.read_flash_loop tool fuel _ n 504 ?res ?s1] =>
            destruct (IH n res s1 Hn) as ((evs & Hc & Hb & Hr) & Hd)
        end.
        split; [|done].
        exists (ev :: evs). rewrite Hc. cbn [calls].
        rewrite <- app_assoc. split; [done|].
        split; [by constructor|].
        change (requested (ev :: evs)) with (0 + requested evs). lia.
    + split.
      * exists [ev]. split; [done|]. split; [by constructor|done].
      * intros Hdata. destruct (Hdata (calls s ++ [ev])) as (? & ? & H).
        congruence.
    + split; [|done].
      exists [ev]. split; [done|]. split; [by constructor|done].
Qed.

(** The first chunk of a read that starts off the multiples of four, less
    than a chunk below the boundary. *)
Lemma temp_chunk_unaligned (byte_address numbytes_actual : Z) :
  let temp := temp_chunk_size_bytes byte_address 504 numbytes_actual in
  byte_address < 0x20000 <= byte_address + 672 ->
  byte_address mod 4 <> 0 ->
  ((0x20000 - byte_address) * 3) / 4 < numbytes_actual ->
  temp = ((0x20000 - byte_address) * 3) / 4
  /\ byte_address + (temp * 4) / 3 = 0x1FFFF.
Proof.
  unfold temp_chunk_size_bytes. intros Hb Ha Hn.
  destruct (Z.ltb_spec byte_address 131072); [|lia]. cbn [andb].
  destruct (Z.geb_spec (byte_address + 504 * 4 / 3) 131072);
    [|floor_arith].
  floor_arith.
Qed.

(** A read that starts off the multiples of four, less than a chunk below
    0x20000, and wants bytes from beyond it, never gets there: whatever
    the tool answers and however long the loop runs, every chunk it asks
    for starts below 0x20000 and all of them together are fewer packed
    bytes than wanted; and with a tool that gives data for every chunk
    the loop never ends. *)
Theorem debug_read_flash_unaligned_stops_short (byte_address numbytes : Z)
    (fuel : nat) (s : Gen4WrapperDebugger) :
  byte_address < 0x20000 <= byte_address + 672 ->
  byte_address mod 4 <> 0 ->
  ((0x20000 - byte_address) * 3) / 4 < (numbytes * 3) / 4 ->
  let run := debug_read_flash fuel byte_address numbytes s in
  (exists evs,
     calls run.2 = calls s ++ evs
     /\ Forall below_boundary evs
     /\ requested evs < (numbytes * 3) / 4)
  /\ (gives_data -> run.1 = Diverge).
Proof.
  intros Hb Ha Hn. cbv zeta. unfold Debugger.debug_read_flash.
  change (512 - 512 mod DebugExec.de_read_flash_pack_size) with 504.
  set (n := numbytes * 3 / 4) in *.
  destruct (temp_chunk_unaligned byte_address n Hb Ha Hn) as (Ht & Hnext).
  assert (0 <= (131072 - byte_address) * 3 / 4) as H0
    by (apply Z.div_pos; lia).
  destruct fuel as [|fuel].
  { split; [|done]. exists []. rewrite app_nil_r. cbn. split; [done|].
    split; [constructor|lia]. }
  cbn [Debugger.read_flash_loop].
  destruct (Z.gtb_spec n 0) as [_|]; [|lia].
  set (temp := temp_chunk_size_bytes byte_address 504 n) in *.
  unfold mbind, M_bind, invoke.
  set (ev := de_read_flash_chunk byte_address _ temp).
  assert (below_boundary ev) as Hev by (cbn; lia).
  assert (requested [ev] < n) as Hreq
    by (change (requested [ev]) with (temp + 0); lia).
  destruct (tool (calls s ++ [ev])) as [chunk|e|] eqn:Hreply.
  - destruct chunk as [|b chunk].
    + split.
      * exists [ev]. split; [done|]. split; [by constructor|done].
      * intros Hdata. destruct (Hdata (calls s ++ [ev])) as (? & ? & H).
        congruence.
    + rewrite Hnext.
      match goal with
      | |- context [Debugger.read_flash_loop tool fuel _ ?n' 504 ?res ?s1] =>
          destruct (read_flash_loop_stuck fuel n' res s1)
            as ((evs & Hc & Hbel & Hr) & Hd); [lia|]
      end.
      split; [|done].
      exists (ev :: evs). rewrite Hc. cbn [calls].
      rewrite <- app_assoc. split; [done|].
      split; [by constructor|].
      change (requested (ev :: evs)) with (temp + requested evs).
      change (requested [ev]) with (temp + 0) in Hreq. lia.
  - split.
    + exists [ev]. split; [done|]. split; [by constructor|done].
    + intros Hdata. destruct (Hdata (calls s ++ [ev])) as (? & ? & H).
      congruence.
  - split; [|done].
    exists [ev]. split; [done|]. split; [by constructor|done].
Qed.

End DebugReadFlash.

Lemma debug_read_flash_asks_for_all_witness :
  let tool := steady_tool [0xDD] in
  (forall made, exists b bs, tool made = Ok (b :: bs))
  /\ 0x1FFF0 mod 4 = 0
  /\ Z.max 0 ((0x40 * 3) / 4) < Z.of_nat 49
  /\ exists data s' evs,
       debug_read_flash tool 49 0x1FFF0 0x40 init = (Ok data, s')
       /\ calls s' = calls init ++ evs
       /\ Forall within_chunk evs
       /\ requested evs = Z.max 0 ((0x40 * 3) / 4).
Proof.
  intros tool.
  assert (forall made, exists b bs, tool made = Ok (b :: bs)) as Hdata
    by (intros made; by exists 0xDD, []).
  split; [exact Hdata|]. split; [reflexivity|]. split; [reflexivity|].
  apply (debug_read_flash_asks_for_all tool 0x1FFF0 0x40 49 init Hdata);
    reflexivity.
Defined.

Lemma debug_read_flash_unaligned_stops_short_witness :
  let tool := steady_tool [0xDD] in
  0x1FFFE < 0x20000 <= 0x1FFFE + 672
  /\ 0x1FFFE mod 4 <> 0
  /\ ((0x20000 - 0x1FFFE) * 3) / 4 < (0x40 * 3) / 4
  /\ (exists evs,
        calls (debug_read_flash tool 5 0x1FFFE 0x40 init).2
        = calls init ++ evs
        /\ Forall below_boundary evs
        /\ requested evs < (0x40 * 3) / 4)
  /\ ((forall made, exists b bs, tool made = Ok (b :: bs)) ->
      (debug_read_flash tool 5 0x1FFFE 0x40 init).1 = Diverge).
Proof.
  intros tool.
  assert (0x1FFFE < 0x20000 <= 0x1FFFE + 672) as Hb by lia.
  assert (0x1FFFE mod 4 <> 0) as Ha by discriminate.
  assert (((0x20000 - 0x1FFFE) * 3) / 4 < (0x40 * 3) / 4) as Hn
    by reflexivity.
  split; [exact Hb|]. split; [exact Ha|]. split; [exact Hn|].
  exact (debug_read_flash_unaligned_stops_short tool 0x1FFFE 0x40 5 init
           Hb Ha Hn).
Defined.
End DebuggerUseFacts.

(** ** Raw flash access through the script wrapper *)

Module DeviceScriptsFacts.
Import DeviceScripts.

Section Wrapper.

Variable execute : script -> outcome (list Z).
Variable read_data_buffer : Z -> Z -> outcome (list Z).

Local Abbreviation _read_flash_block :=
  (_read_flash_block execute read_data_buffer).

Lemma read_flash_count (byte_address numbytes : Z) :
  numbytes mod 4 = 0 ->
  packed_data_count (read_flash byte_address numbytes)
  = 12 * ((numbytes + 15) / 16).
Proof.
  intros Hn. unfold read_flash. cbn [packed_data_count].
  destruct (Z.gtb_spec ((numbytes * 3 / 4) mod 12) 0); floor_arith.
Qed.

(** A raw read of flash comes back in groups of four instructions: with
    a controller that runs the script and hands back the packed bytes
    asked for, a read of [numbytes], a multiple of four, returns
    [numbytes] rounded up to a multiple of 16 bytes, which is more than
    was asked for unless [numbytes] is a multiple of 16 itself. *)
Theorem raw_read_returns_whole_groups (byte_address numbytes : Z)
    (buffer : list Z) :
  numbytes mod 4 = 0 ->
  returns (execute (read_flash byte_address numbytes)) ->
  read_data_buffer 1 (packed_data_count (read_flash byte_address numbytes))
  = Ok buffer ->
  len buffer = packed_data_count (read_flash byte_address numbytes) ->
  exists data,
    _read_flash_block byte_address numbytes = Ok data
    /\ len data = 16 * ((numbytes + 15) / 16)
    /\ numbytes <= len data < numbytes + 16
    /\ (len data = numbytes <-> numbytes mod 16 = 0).
Proof.
  intros Hn [reply Hrun] Hread Hlen.
  unfold DeviceScripts._read_flash_block, invoke_read.
  rewrite Hrun, bind_ok, Hread, bind_ok.
  destruct (CodecUseFacts.codec_sizes_decompact buffer)
    as (padded & raw & -> & _ & _ & _ & Hraw).
  rewrite bind_ok. exists raw. split; [done|].
  rewrite read_flash_count in Hlen by done.
  assert (len raw = 16 * ((numbytes + 15) / 16)) as Hsize
    by (rewrite Hraw, Hlen; floor_arith).
  split; [done|]. rewrite Hsize. floor_arith.
Qed.

Variable write_data_buffer : Z -> list Z -> outcome unit.

Local Abbreviation invoke_write := (invoke_write execute write_data_buffer).

(** The packed data written for a page write fills the byte count given
    to the script exactly when the data is a whole number of 8-byte
    frames; otherwise the data buffer gets more bytes than the count. *)
Theorem raw_write_count_matches_whole_frames (byte_address : Z)
    (data : list Z) :
  exists packed,
    invoke_write data (write_flash_page byte_address (len data))
    = (_ ← write_data_buffer 1 packed;
       execute (write_flash_page byte_address (len data)))
    /\ packed_data_count (write_flash_page byte_address (len data))
       <= len packed
    /\ (len packed
        = packed_data_count (write_flash_page byte_address (len data))
        <-> len data mod 8 = 0).
Proof.
  pose proof (len_nonneg data) as Hd.
  destruct (CodecUseFacts.codec_sizes_compact data)
    as (padded & packed & Hc & _ & Hpacked).
  exists packed. unfold DeviceScripts.invoke_write.
  rewrite Hc, bind_ok. split; [done|].
  unfold write_flash_page. cbn [packed_data_count]. rewrite Hpacked.
  floor_arith.
Qed.

End Wrapper.

Lemma raw_read_returns_whole_groups_witness :
  let execute := fun _ : script => Ok [] in
  let read_data_buffer := fun (_ numbytes : Z) =>
    Ok (replicate (Z.to_nat numbytes) 0xAB) in
  20 mod 4 = 0
  /\ returns (execute (read_flash 0x800 20))
  /\ read_data_buffer 1 (packed_data_count (read_flash 0x800 20))
     = Ok (replicate 24 0xAB)
  /\ len (replicate 24 0xAB) = packed_data_count (read_flash 0x800 20)
  /\ exists data,
       _read_flash_block execute read_data_buffer 0x800 20 = Ok data
       /\ len data = 16 * ((20 + 15) / 16)
       /\ 20 <= len data < 20 + 16
       /\ (len data = 20 <-> 20 mod 16 = 0).
Proof.
  intros execute read_data_buffer.
  assert (returns (execute (read_flash 0x800 20))) as Hrun
    by (by exists []).
  split; [reflexivity|]. split; [exact Hrun|].
  split; [reflexivity|]. split; [reflexivity|].
  apply (raw_read_returns_whole_groups execute read_data_buffer 0x800 20
           (replicate 24 0xAB)); [reflexivity|exact Hrun|reflexivity..].
Defined.

End DeviceScriptsFacts.
